(** * betachip: real-time screen censoring pipeline

    Shallow embedding of the capture service ([capture/mss_capture.py]),
    the mosaic processor ([detection/mosaic_processor.py]), the overlay
    window ([overlay/pygame_overlay.py]) and the orchestrator ([main.py]),
    followed by the properties of the specification that concern them.

    Conventions.  Python integers are [Z]; [//] is [Z.div] (both round
    towards minus infinity).  A numpy image of shape (H, W, 3) is a list of
    H rows of W pixels.  Library calls whose code is not part of the
    repository (OpenCV, the screen grabber, pygame, Win32) appear as
    parameters or as outcomes supplied by the environment. *)

From Stdlib Require Import String ZArith List Bool Lia QArith.
Import ListNotations.
Local Open Scope Z_scope.

(* ================================================================== *)
(** * Part I: definitions                                              *)
(* ================================================================== *)

(** ** numpy arrays of shape (H, W, 3) and their slices *)
Module Numpy.

(** One BGR pixel, dtype uint8. *)
Definition pixel : Type := (Z * Z * Z)%type.

(** The value every channel takes under [img[...] = 0]. *)
Definition zero : pixel := (0, 0, 0).

Definition image : Type := list (list pixel).

(** [img.shape[0]] and [img.shape[1]]. *)
Definition shape0 (img : image) : Z := Z.of_nat (length img).

Definition shape1 (img : image) : Z :=
  match img with
  | [] => 0
  | row :: _ => Z.of_nat (length row)
  end.

(** [img.size]: the number of array elements. *)
Definition size (img : image) : Z := shape0 img * shape1 img * 3.

(** Every row has the width of the first one. *)
Definition rect (img : image) : bool :=
  forallb (fun row => Z.of_nat (length row) =? shape1 img) img.

(** The pixel at row [r], column [c]. *)
Definition px (img : image) (r c : nat) : option pixel :=
  match nth_error img r with
  | Some row => nth_error row c
  | None => None
  end.

(** How Python resolves one bound of [a[start:stop]] on an axis of
    length [n]: a negative bound counts from the end, and both bounds are
    clamped to [0, n]. *)
Definition slice_index (n i : Z) : Z :=
  if i <? 0 then Z.max 0 (i + n) else Z.min i n.

(** The half-open index range [lo, hi) selected by [start:stop]. *)
Definition indices (n : Z) (s : Z * Z) : nat * nat :=
  (Z.to_nat (slice_index n (fst s)), Z.to_nat (slice_index n (snd s))).

Definition in_span (s : nat * nat) (i : nat) : bool :=
  (fst s <=? i)%nat && (i <? snd s)%nat.

Definition sub {A} (s : nat * nat) (l : list A) : list A :=
  firstn (snd s - fst s) (skipn (fst s) l).

Fixpoint imap_from {A B} (f : nat -> A -> B) (i : nat) (l : list A) : list B :=
  match l with
  | [] => []
  | a :: l' => f i a :: imap_from f (S i) l'
  end.

Definition imap {A B} (f : nat -> A -> B) (l : list A) : list B :=
  imap_from f 0 l.

(** [img[y0:y1, x0:x1]] (the values; the aliasing of the view with its
    base array is handled where the view is written back). *)
Definition getitem (img : image) (ys xs : Z * Z) : image :=
  map (sub (indices (shape1 img) xs)) (sub (indices (shape0 img) ys) img).

(** An assignment to a slice rewrites the pixels of the selected rows:
    [g r c p] is the new value of pixel [p] at row [r], column [c]. *)
Definition rewrite_px (g : nat -> nat -> pixel -> pixel) (sel : nat -> bool)
  (img : image) : image :=
  imap (fun r row => if sel r then imap (g r) row else row) img.

(** [img[y0:y1, x0:x1] = 0]. *)
Definition fill (img : image) (ys xs : Z * Z) (v : pixel) : image :=
  let rs := indices (shape0 img) ys in
  let cs := indices (shape1 img) xs in
  rewrite_px (fun _ c p => if in_span cs c then v else p) (in_span rs) img.

Definition same_shape (a b : image) : bool :=
  (shape0 a =? shape0 b) && (shape1 a =? shape1 b).

(** [img[y0:y1, x0:x1] = val] for an array [val] (hence rectangular).
    numpy raises ValueError when [val] cannot be broadcast to the shape of
    the slice; the callers modelled here only assign arrays of the slice's
    own shape, and any other shape is reported as [None]. *)
Definition setitem (img : image) (ys xs : Z * Z) (val : image) : option image :=
  let rs := indices (shape0 img) ys in
  let cs := indices (shape1 img) xs in
  if same_shape (getitem img ys xs) val && rect val then
    Some (rewrite_px (fun r c p =>
                        if in_span cs c
                        then nth (c - fst cs) (nth (r - fst rs) val []) p
                        else p)
                     (in_span rs) img)
  else None.

(** [img.copy()]: a fresh array with the same contents. *)
Definition copy (img : image) : image := img.

(** [np.transpose(img, (1, 0, 2))] of a non-empty array: rows become
    columns, the channels stay. *)
Definition transpose (img : image) : image :=
  map (fun c => map (fun row => nth c row zero) img)
      (seq 0 (Z.to_nat (shape1 img))).

End Numpy.

(** ** OpenCV, as far as the repository calls it *)
Module Cv2.
Import Numpy.

Inductive interpolation := INTER_NEAREST | INTER_LINEAR.

(** [cv2.resize(src, (w, h), interpolation=i)]; [None] stands for the
    [cv2.error] it raises. *)
Definition resize_fn : Type := image -> Z * Z -> interpolation -> option image.

(** What the callers rely on: resizing a non-empty image to a positive
    size succeeds and yields an image of exactly that size. *)
Definition resize_contract (resize : resize_fn) : Prop :=
  forall src w h i,
    0 < shape0 src -> 0 < shape1 src -> 0 < w -> 0 < h ->
    exists dst, resize src (w, h) i = Some dst /\
                shape0 dst = h /\ shape1 dst = w /\ rect dst = true.

(** A reference resampler used to exercise the development: it picks,
    for both interpolation modes, the source pixel at the scaled
    coordinate, and fails on empty input or non-positive sizes. *)
Definition sample (src : image) (w h : Z) : image :=
  map (fun r =>
         map (fun c =>
                nth (Z.to_nat (Z.of_nat c * shape1 src / w))
                    (nth (Z.to_nat (Z.of_nat r * shape0 src / h)) src [])
                    zero)
             (seq 0 (Z.to_nat w)))
      (seq 0 (Z.to_nat h)).

Definition nearest_resize : resize_fn :=
  fun src dsize _ =>
    let '(w, h) := dsize in
    if (0 <? shape0 src) && (0 <? shape1 src) && (0 <? w) && (0 <? h)
    then Some (sample src w h)
    else None.

(** [cv2.cvtColor(img, cv2.COLOR_BGR2RGB)]: the first and the third channel
    change places; an empty source is refused ([None]: cv2.error). *)
Definition swap_channels (p : pixel) : pixel :=
  let '(b, g, r) := p in (r, g, b).

Definition cvtColor_BGR2RGB (img : image) : option image :=
  if size img =? 0 then None else Some (map (map swap_channels) img).

(** A resize that always raises, to exercise the error paths. *)
Definition failing_resize : resize_fn := fun _ _ _ => None.

End Cv2.

(** ** Python outcomes and [queue.Queue] *)
Module Py.

(** The exceptions the modelled code can meet. *)
Inductive exn :=
| QueueFull | QueueEmpty | ZeroDivisionError | Cv2Error | ValueError | OSError.

(** A call either returns a value or raises. *)
Inductive result (A : Type) :=
| Ret (a : A)
| Raise (e : exn).
Arguments Ret {A} a.
Arguments Raise {A} e.

Definition bind {A B} (m : result A) (k : A -> result B) : result B :=
  match m with
  | Ret a => k a
  | Raise e => Raise e
  end.

Notation "x <- m ;; k" := (bind m (fun x => k))
  (at level 61, m at next level, right associativity).

(** [a // b] and [a % b] on Python integers. *)
Definition floordiv (a b : Z) : result Z :=
  if b =? 0 then Raise ZeroDivisionError else Ret (a / b).

Definition pymod (a b : Z) : result Z :=
  if b =? 0 then Raise ZeroDivisionError else Ret (a mod b).

(** [queue.Queue(maxsize)]: a FIFO whose oldest entry is the head of
    [items].  As in CPython, [maxsize <= 0] means no bound. *)
Record Queue (A : Type) := mkQueue { maxsize : Z; items : list A }.
Arguments mkQueue {A} maxsize items.
Arguments maxsize {A} q.
Arguments items {A} q.

(** What a call on the queue does to its caller. *)
Inductive outcome (B : Type) :=
| Done (b : B)
| Raises (e : exn)
| Blocks.
Arguments Done {B} b.
Arguments Raises {B} e.
Arguments Blocks {B}.

Section QueueOps.
Context {A : Type}.

Definition qsize (q : Queue A) : Z := Z.of_nat (length (items q)).

(** [Queue.full]: [0 < self.maxsize <= self._qsize()]. *)
Definition full (q : Queue A) : bool :=
  (0 <? maxsize q) && (maxsize q <=? qsize q).

(** [Queue.put(item, block)]: on a full queue it waits when [block]
    holds and raises [queue.Full] otherwise. *)
Definition put (q : Queue A) (item : A) (block : bool) : outcome (Queue A) :=
  if full q
  then (if block then Blocks else Raises QueueFull)
  else Done (mkQueue (maxsize q) (items q ++ [item])).

(** [Queue.get_nowait()]. *)
Definition get_nowait (q : Queue A) : outcome (A * Queue A) :=
  match items q with
  | [] => Raises QueueEmpty
  | a :: rest => Done (a, mkQueue (maxsize q) rest)
  end.

(** [Queue.get(block=True, timeout=t)], observed once the wait is
    over: the oldest entry, or [queue.Empty] after the timeout. *)
Definition get_timeout (q : Queue A) : result (A * Queue A) :=
  match items q with
  | [] => Raise QueueEmpty
  | a :: rest => Ret (a, mkQueue (maxsize q) rest)
  end.

End QueueOps.

End Py.

(** ** capture/mss_capture.py *)
Module Capture.
Import Numpy Cv2 Py.

(** An entry of [exclude_regions]: (x, y, width, height). *)
Definition region : Type := (Z * Z * Z * Z)%type.

(** The coordinate check of the loop over [self.exclude_regions]: the
    corner (x, y) of the region is a pixel of the frame. *)
Definition origin_inside (img : image) (reg : region) : bool :=
  let '(x, y, w, h) := reg in
  (x >=? 0) && (y >=? 0) && (x <? shape1 img) && (y <? shape0 img).

(** Body of the loop [for x, y, w, h in self.exclude_regions] in
    [_capture_screen]. *)
Definition mask_region (img : image) (reg : region) : image :=
  let '(x, y, w, h) := reg in
  if origin_inside img reg then
    let end_x := Z.min (x + w) (shape1 img) in
    let end_y := Z.min (y + h) (shape0 img) in
    fill img (y, end_y) (x, end_x) zero
  else img.

(** The pixel at row [r], column [c] lies in the rectangle of the region. *)
Definition covers (reg : region) (r c : nat) : Prop :=
  let '(x, y, w, h) := reg in
  x <= Z.of_nat c < x + w /\ y <= Z.of_nat r < y + h.

(** The rectangle of the region has no pixel in common with the frame. *)
Definition fully_outside (img : image) (reg : region) : Prop :=
  let '(x, y, w, h) := reg in
  0 < w /\ 0 < h /\
  (x + w <= 0 \/ shape1 img <= x \/ y + h <= 0 \/ shape0 img <= y).

Definition mask_regions (regions : list region) (img : image) : image :=
  fold_left mask_region regions img.

(** The fields of [ScreenCapturer] the modelled methods read or write.
    [queue_size] and [log_interval] are the values [self.config.get]
    yields (defaults 2 and 100). *)
Record ScreenCapturer := mkCapturer {
  capture_downscale : Q;
  capture_width : Z;
  capture_height : Z;
  debug_mode : bool;
  debug_save_interval : Z;
  log_interval : Z;
  exclude_regions : list region;
  prev_frame : option image;
  frame_count : Z;
  frame_queue : Queue image;
  stop_event : bool
}.

Definition set_prev_frame (self : ScreenCapturer) (f : option image) :=
  mkCapturer (capture_downscale self) (capture_width self) (capture_height self)
    (debug_mode self) (debug_save_interval self) (log_interval self)
    (exclude_regions self) f (frame_count self) (frame_queue self)
    (stop_event self).

Definition set_frame_count (self : ScreenCapturer) (n : Z) :=
  mkCapturer (capture_downscale self) (capture_width self) (capture_height self)
    (debug_mode self) (debug_save_interval self) (log_interval self)
    (exclude_regions self) (prev_frame self) n (frame_queue self)
    (stop_event self).

Definition set_frame_queue (self : ScreenCapturer) (q : Queue image) :=
  mkCapturer (capture_downscale self) (capture_width self) (capture_height self)
    (debug_mode self) (debug_save_interval self) (log_interval self)
    (exclude_regions self) (prev_frame self) (frame_count self) q
    (stop_event self).

Definition set_exclude_regions (self : ScreenCapturer) (l : list region) :=
  mkCapturer (capture_downscale self) (capture_width self) (capture_height self)
    (debug_mode self) (debug_save_interval self) (log_interval self)
    l (prev_frame self) (frame_count self) (frame_queue self)
    (stop_event self).

Definition add_exclude_region (self : ScreenCapturer) (x y width height : Z) :=
  set_exclude_regions self (exclude_regions self ++ [(x, y, width, height)]).

Definition clear_exclude_regions (self : ScreenCapturer) :=
  set_exclude_regions self [].

(** A capturer as [__init__] leaves it with the default configuration
    (no downscale, no debug, log every 100 frames, queue of 2) on a screen
    of the given size. *)
Definition default_capturer (width height : Z) : ScreenCapturer :=
  mkCapturer 1 width height false 300 100 [] None 0 (mkQueue 2 []) false.

Section WithResize.
Variable resize : resize_fn.

(** The [try] body of [_capture_screen].  [shot] is what [sct.grab]
    delivers, already as a BGR array ([None]: the grab raises). *)
Definition capture_body (self : ScreenCapturer) (shot : option image)
  : result image :=
  match shot with
  | None => Raise OSError
  | Some img =>
      img1 <- (if negb (Qeq_bool (capture_downscale self) 1)
               then match resize img (capture_width self, capture_height self)
                                 INTER_NEAREST with
                    | Some r => Ret r
                    | None => Raise Cv2Error
                    end
               else Ret img) ;;
      let img2 := mask_regions (exclude_regions self) img1 in
      (* debug snapshot: the write itself is guarded by its own try *)
      _ <- (if debug_mode self
            then pymod (frame_count self) (debug_save_interval self)
            else Ret 0) ;;
      Ret img2
  end.

(** [_capture_screen]: any exception of the body becomes [None]. *)
Definition _capture_screen (self : ScreenCapturer) (shot : option image)
  : option image :=
  match capture_body self shot with
  | Ret img => Some img
  | Raise _ => None
  end.

(** *** The frame queue as the capture thread uses it *)

(** Where the producer stands inside the inner [try] of
    [_capture_thread_func] (full / get_nowait / put), and how that
    block ends. *)
Inductive push_pc :=
| Idle
| AtFull (frame : image)
| AtEvict (frame : image)
| AtPut (frame : image)
| Pushed
| Skipped
| Escaped (e : exn)
| Stalled.

(** One queue call of the producer.  [queue.Full] is swallowed by the
    inner [except queue.Full: pass]; any other exception leaves the
    block; [Stalled] is a call that would wait. *)
Definition push_step (st : Queue image * push_pc) : Queue image * push_pc :=
  let (q, pc) := st in
  match pc with
  | AtFull f => (q, if full q then AtEvict f else AtPut f)
  | AtEvict f =>
      match get_nowait q with
      | Done (_, q') => (q', AtPut f)
      | Raises QueueFull => (q, Skipped)
      | Raises e => (q, Escaped e)
      | Blocks => (q, Stalled)
      end
  | AtPut f =>
      match put q f false with
      | Done q' => (q', Pushed)
      | Raises QueueFull => (q, Skipped)
      | Raises e => (q, Escaped e)
      | Blocks => (q, Stalled)
      end
  | _ => st
  end.

(** The whole block, run without interference. *)
Definition push (q : Queue image) (frame : image) : Queue image * push_pc :=
  push_step (push_step (push_step (q, AtFull frame))).

(** The producer interleaved with the consumer of the queue:
    [Produce f] starts the block for a new frame once the previous one
    is over, [Step] performs the producer's next queue call, and
    [Consume] is a [get] of the processing thread that finds an entry
    (on an empty queue it keeps waiting and nothing changes). *)
Inductive sched :=
| Produce (frame : image)
| Step
| Consume.

Definition busy (pc : push_pc) : bool :=
  match pc with
  | AtFull _ | AtEvict _ | AtPut _ | Stalled => true
  | _ => false
  end.

Definition sys_step (st : Queue image * push_pc) (e : sched)
  : Queue image * push_pc :=
  match e with
  | Produce f => if busy (snd st) then st else (fst st, AtFull f)
  | Step => push_step st
  | Consume =>
      match get_timeout (fst st) with
      | Ret (_, q') => (q', snd st)
      | Raise _ => st
      end
  end.

Definition sys_run (st : Queue image * push_pc) (es : list sched)
  : Queue image * push_pc :=
  fold_left sys_step es st.

(** *** The capture thread *)

(** [time.sleep(seconds)]. *)
Inductive effect := Sleep (seconds : Q).

Inductive status := Running | Exited | Hung.

(** The thread: the capturer it works on, its local [retry_count], the
    sleeps it has performed (latest last) and whether its loop is still
    running. *)
Record thread := mkThread {
  self_ : ScreenCapturer;
  retry_count : Z;
  effects : list effect;
  state : status
}.

(** What one turn of the loop meets: the rate limiter fires
    ([elapsed < 0.01]) or a grab is attempted with the given outcome.
    [Taken] is a [get] by the consumer between two turns and [SetStop]
    is [stop_event.set()] by [stop_capture_thread]. *)
Inductive event :=
| TooSoon
| Grab (shot : option image)
| Taken
| SetStop.

Definition set_stop_event (self : ScreenCapturer) (b : bool) :=
  mkCapturer (capture_downscale self) (capture_width self) (capture_height self)
    (debug_mode self) (debug_save_interval self) (log_interval self)
    (exclude_regions self) (prev_frame self) (frame_count self)
    (frame_queue self) b.

(** The handler [except Exception] of the loop. *)
Definition on_exception (self : ScreenCapturer) (retry : Z) (log : list effect)
  : thread :=
  let r := retry + 1 in
  mkThread self (if r >? 5 then 0 else r) (log ++ [Sleep (1 # 10)]) Running.

(** One turn of [while not self.stop_event.is_set()]. *)
Definition iteration (t : thread) (shot : option image) : thread :=
  let self := self_ t in
  match _capture_screen self shot with
  | Some frame =>
      let self1 := set_frame_count self (frame_count self + 1) in
      match push (frame_queue self1) frame with
      | (q, Pushed) => mkThread (set_frame_queue self1 q) 0 (effects t) Running
      | (q, Skipped) =>
          mkThread (set_frame_queue self1 q) (retry_count t) (effects t) Running
      | (q, Escaped _) =>
          on_exception (set_frame_queue self1 q) (retry_count t) (effects t)
      | (q, _) =>
          mkThread (set_frame_queue self1 q) (retry_count t) (effects t) Hung
      end
  | None =>
      let r := retry_count t + 1 in
      if r >? 5
      then mkThread self 0 (effects t ++ [Sleep (1 # 10)]) Running
      else mkThread self r (effects t) Running
  end.

Definition thread_step (t : thread) (e : event) : thread :=
  match state t with
  | Running =>
      match e with
      | SetStop =>
          mkThread (set_stop_event (self_ t) true) (retry_count t) (effects t)
                   Running
      | Taken =>
          match get_timeout (frame_queue (self_ t)) with
          | Ret (_, q') =>
              mkThread (set_frame_queue (self_ t) q') (retry_count t)
                       (effects t) Running
          | Raise _ => t
          end
      | TooSoon =>
          if stop_event (self_ t)
          then mkThread (self_ t) (retry_count t) (effects t) Exited
          else mkThread (self_ t) (retry_count t)
                        (effects t ++ [Sleep (1 # 1000)]) Running
      | Grab shot =>
          if stop_event (self_ t)
          then mkThread (self_ t) (retry_count t) (effects t) Exited
          else iteration t shot
      end
  | _ => t
  end.

Definition thread_run (t : thread) (es : list event) : thread :=
  fold_left thread_step es t.

(** [_capture_thread_func] starts with [retry_count = 0]. *)
Definition thread_start (self : ScreenCapturer) : thread :=
  mkThread self 0 [] Running.

(** *** get_frame *)

(** [fallback] is what the direct capture of the [queue.Empty] handler
    meets: [None] when [mss.mss()] itself raises, otherwise the outcome
    of the grab. *)
Definition get_frame (self : ScreenCapturer) (fallback : option (option image))
  : ScreenCapturer * result (option image) :=
  match get_timeout (frame_queue self) with
  | Ret (frame, q) =>
      let self1 := set_prev_frame (set_frame_queue self q) (Some frame) in
      match pymod (frame_count self1) (log_interval self1) with
      | Ret _ => (self1, Ret (Some frame))
      | Raise _ => (self1, Ret (prev_frame self1))
      end
  | Raise QueueEmpty =>
      match prev_frame self with
      | Some p => (self, Ret (Some p))
      | None =>
          match fallback with
          | Some shot => (self, Ret (_capture_screen self shot))
          | None => (self, Raise OSError)
          end
      end
  | Raise _ => (self, Ret (prev_frame self))
  end.

(** The capture thread and the caller of [get_frame] side by side. *)
Inductive action :=
| Thread (e : event)
| GetFrame (fallback : option (option image)).

(** What a call of [get_frame] did: whether it took its frame from the
    queue, and what it handed back. *)
Record call := mkCall {
  from_queue : bool;
  returned : result (option image)
}.

Definition nonempty (q : Queue image) : bool :=
  match items q with [] => false | _ => true end.

Fixpoint run (t : thread) (acts : list action) : thread * list call :=
  match acts with
  | [] => (t, [])
  | Thread e :: rest => run (thread_step t e) rest
  | GetFrame fb :: rest =>
      let (self', r) := get_frame (self_ t) fb in
      let (t', calls) :=
        run (mkThread self' (retry_count t) (effects t) (state t)) rest in
      (t', mkCall (nonempty (frame_queue (self_ t))) r :: calls)
  end.

End WithResize.

(** The last [n] entries of a list. *)
Definition lastn {A} (n : nat) (l : list A) : list A := skipn (length l - n) l.

(** Frames pushed one after the other, each push running undisturbed. *)
Definition push_all (q : Queue image) (frames : list image) : Queue image :=
  fold_left (fun q' frame => fst (push q' frame)) frames q.

(** [is_alive()] of the capture thread. *)
Definition is_alive (t : thread) : bool :=
  match state t with
  | Exited => false
  | _ => true
  end.

(** [start_capture_thread]: nothing happens while the thread is alive;
    otherwise the stop event is cleared and a new thread starts, with a
    [retry_count] of its own. *)
Definition start_capture_thread (t : thread) : thread :=
  if is_alive t then t
  else mkThread (set_stop_event (self_ t) false) 0 (effects t) Running.

(** [stop_capture_thread]: sets the stop event of a thread that is alive
    and waits up to one second for it; the thread itself leaves its loop
    at its next turn. *)
Definition stop_capture_thread (t : thread) : thread :=
  if is_alive t
  then mkThread (set_stop_event (self_ t) true) (retry_count t) (effects t) (state t)
  else t.

End Capture.

(** ** detection/mosaic_processor.py *)
Module Mosaic.
Import Numpy Cv2 Py.

(** A detection dictionary: ['class_name'], ['confidence'], ['bbox'] =
    [x1, y1, x2, y2] and ['class_id']. *)
Record detection := mkDetection {
  class_name : string;
  confidence : Q;
  bbox : Z * Z * Z * Z;
  class_id : Z
}.

Record MosaicProcessor := mkProcessor {
  model_loaded : bool;
  conf_threshold : Q;
  targets : list string;
  strength : Z
}.

(** [set_strength]: clamped to 1..50. *)
Definition set_strength (self : MosaicProcessor) (s : Z) : MosaicProcessor :=
  mkProcessor (model_loaded self) (conf_threshold self) (targets self)
              (Z.max 1 (Z.min 50 s)).

Definition set_targets (self : MosaicProcessor) (t : list string) : MosaicProcessor :=
  mkProcessor (model_loaded self) (conf_threshold self) t (strength self).

(** [if strength is None: strength = self.strength]. *)
Definition strength_of (self : MosaicProcessor) (strength_arg : option Z) : Z :=
  match strength_arg with
  | None => strength self
  | Some s => s
  end.

(** The pixel at row [r], column [c] lies in the bounding box. *)
Definition in_box (d : detection) (r c : nat) : Prop :=
  let '(x1, y1, x2, y2) := bbox d in
  x1 <= Z.of_nat c < x2 /\ y1 <= Z.of_nat r < y2.

(** The corner (x1, y1) of the box is given in frame coordinates, which
    start at 0. *)
Definition frame_coordinates (d : detection) : Prop :=
  let '(x1, y1, x2, y2) := bbox d in
  0 <= x1 /\ 0 <= y1.

(** All four coordinates of the box are non-negative. *)
Definition box_nonneg (d : detection) : Prop :=
  let '(x1, y1, x2, y2) := bbox d in
  0 <= x1 /\ 0 <= y1 /\ 0 <= x2 /\ 0 <= y2.

(** [class_name in self.targets]. *)
Definition is_target (self : MosaicProcessor) (d : detection) : bool :=
  existsb (String.eqb (class_name d)) (targets self).

(** [frame[y1:y2, x1:x2]] for the box of a detection, and the pixels of
    the frame this slice selects. *)
Definition box_region (img : image) (d : detection) : image :=
  let '(x1, y1, x2, y2) := bbox d in
  getitem img (y1, y2) (x1, x2).

Definition in_slice (img : image) (d : detection) (r c : nat) : bool :=
  let '(x1, y1, x2, y2) := bbox d in
  in_span (indices (shape0 img) (y1, y2)) r
  && in_span (indices (shape1 img) (x1, x2)) c.

(** The test that admits a box into the result of [detect_objects]. *)
Definition valid_box (self : MosaicProcessor) (d : detection) : bool :=
  let '(x1, y1, x2, y2) := bbox d in
  (x2 >? x1) && (y2 >? y1) && Qle_bool (conf_threshold self) (confidence d).

(** [detect_objects].  [boxes] is what the model reports for the frame,
    corners already converted by [int] ([None]: the inference raises,
    which the method turns into an empty list). *)
Definition detect_objects (self : MosaicProcessor) (boxes : option (list detection))
  : list detection :=
  if model_loaded self then
    match boxes with
    | Some l => filter (valid_box self) l
    | None => []
    end
  else [].

Section WithResize.
Variable resize : resize_fn.

Definition cv2_resize (src : image) (dsize : Z * Z) (i : interpolation)
  : result image :=
  match resize src dsize i with
  | Some dst => Ret dst
  | None => Raise Cv2Error
  end.

(** The [try] body of [apply_mosaic]. *)
Definition mosaic_body (img : image) (strength : Z) : result image :=
  let h := shape0 img in
  let w := shape1 img in
  qh <- floordiv h strength ;;
  let small_h := Z.max 1 qh in
  qw <- floordiv w strength ;;
  let small_w := Z.max 1 qw in
  small <- cv2_resize img (small_w, small_h) INTER_LINEAR ;;
  mosaic <- cv2_resize small (w, h) INTER_NEAREST ;;
  Ret mosaic.

(** [apply_mosaic(image, strength=None)]. *)
Definition apply_mosaic (self : MosaicProcessor) (img : image)
           (strength_arg : option Z) : result image :=
  let s := strength_of self strength_arg in
  if size img =? 0 then Ret img
  else match mosaic_body img s with
       | Ret mosaic => Ret mosaic
       | Raise _ => Ret img
       end.

(** The body of [for detection in detections] shared by
    [detect_objects_detailed] and the processing loop of main.py: a
    target's box is cut out of the frame being built, pixelated and
    written back. *)
Definition mosaic_detection (self : MosaicProcessor) (strength_arg : option Z)
           (processed : image) (d : detection) : result image :=
  if is_target self d then
    let '(x1, y1, x2, y2) := bbox d in
    let region := getitem processed (y1, y2) (x1, x2) in
    if size region >? 0 then
      mosaic_region <- apply_mosaic self region strength_arg ;;
      match setitem processed (y1, y2) (x1, x2) mosaic_region with
      | Some processed' => Ret processed'
      | None => Raise ValueError
      end
    else Ret processed
  else Ret processed.

Fixpoint mosaic_detections (self : MosaicProcessor) (strength_arg : option Z)
         (processed : image) (ds : list detection) : result image :=
  match ds with
  | [] => Ret processed
  | d :: rest =>
      processed' <- mosaic_detection self strength_arg processed d ;;
      mosaic_detections self strength_arg processed' rest
  end.

(** [detect_objects_detailed]: the processed frame and the detections. *)
Definition detect_objects_detailed (self : MosaicProcessor) (frame : image)
           (boxes : option (list detection)) : result (image * list detection) :=
  let detections := detect_objects self boxes in
  processed_frame <- mosaic_detections self (Some (strength self))
                                       (copy frame) detections ;;
  Ret (processed_frame, detections).

(** [create_mosaic_for_region(frame, x1, y1, x2, y2, strength)]: [None]
    for an empty region and for any exception. *)
Definition create_mosaic_for_region (self : MosaicProcessor) (frame : image)
           (x1 y1 x2 y2 : Z) (strength_arg : option Z) : option image :=
  let region := getitem frame (y1, y2) (x1, x2) in
  if size region =? 0 then None
  else match apply_mosaic self region strength_arg with
       | Ret mosaic_region => Some mosaic_region
       | Raise _ => None
       end.

(** What the claim about one turn says of the frame [out] made from
    [frame] with strength [s]: [out] has the shape of [frame]; a pixel
    outside the boxes of all detections of a target class is unchanged; and
    for a detection of a target class whose box shares no pixel with the
    box of another one, the part of [out] under the box is the mosaic
    [apply_mosaic] makes of that part of [frame], which for a strength
    other than 0 and a part that is not empty is the part reduced with
    linear interpolation and enlarged back with nearest neighbour. *)
Definition pixelated_in_boxes (self : MosaicProcessor) (s : Z)
           (detections : list detection) (frame out : image) : Prop :=
  shape0 out = shape0 frame /\ shape1 out = shape1 frame /\
  (forall r c,
      (forall d, In d detections -> is_target self d = true -> ~ in_box d r c) ->
      px out r c = px frame r c) /\
  (forall before d after,
      detections = before ++ d :: after ->
      is_target self d = true ->
      (forall d', In d' (before ++ after) -> is_target self d' = true ->
                  forall r c, in_box d r c -> ~ in_box d' r c) ->
      exists m,
        apply_mosaic self (box_region frame d) (Some s) = Ret m /\
        box_region out d = m /\
        (s <> 0 -> 0 < size (box_region frame d) ->
         exists small,
           resize (box_region frame d)
                  (Z.max 1 (shape1 (box_region frame d) / s),
                   Z.max 1 (shape0 (box_region frame d) / s)) INTER_LINEAR
             = Some small /\
           resize small (shape1 (box_region frame d), shape0 (box_region frame d))
                  INTER_NEAREST = Some m)).

End WithResize.

(** Python's [min(a, b)] and [max(a, b)] on numbers: the second argument
    wins only when it is strictly smaller, respectively larger. *)
Definition pymin (a b : Q) : Q := if Qle_bool a b then a else b.

Definition pymax (a b : Q) : Q := if Qle_bool b a then a else b.

(** One keyword argument of [update_config]; a key other than the three
    it knows is ignored. *)
Inductive kwarg :=
| Kw_conf_threshold (value : Q)
| Kw_targets (value : list string)
| Kw_strength (value : Z)
| Kw_other (key : string).

Definition update_one (self : MosaicProcessor) (kw : kwarg) : MosaicProcessor :=
  match kw with
  | Kw_conf_threshold value =>
      mkProcessor (model_loaded self) (pymax (1 # 100) (pymin (99 # 100) value))
                  (targets self) (strength self)
  | Kw_targets value =>
      mkProcessor (model_loaded self) (conf_threshold self) value (strength self)
  | Kw_strength value =>
      mkProcessor (model_loaded self) (conf_threshold self) (targets self)
                  (Z.max 1 (Z.min 50 value))
  | Kw_other _ => self
  end.

(** [update_config]: its keyword arguments are applied in order. *)
Definition update_config (self : MosaicProcessor) (kwargs : list kwarg)
  : MosaicProcessor :=
  fold_left update_one kwargs self.

(** [self.detection_times] and [self.last_detections]. *)
Record statistics := mkStatistics {
  detection_times : list Q;
  last_detections : list detection
}.

(** [reset_stats]. *)
Definition reset_stats : statistics := mkStatistics [] [].

(** The statistics update at the end of a detection that went through:
    the time is appended, and once more than 100 times are held only the
    last 50 are kept. *)
Definition record_detection (st : statistics) (detection_time : Q)
           (detections : list detection) : statistics :=
  let times := detection_times st ++ [detection_time] in
  mkStatistics
    (if (100 <? length times)%nat then skipn (length times - 50) times else times)
    detections.

(** [detect_objects] with the statistics it keeps: without a model and
    when the inference raises, nothing is recorded. *)
Definition detect_objects_timed (self : MosaicProcessor) (st : statistics)
           (boxes : option (list detection)) (detection_time : Q)
  : list detection * statistics :=
  if model_loaded self then
    match boxes with
    | Some l =>
        let detections := filter (valid_box self) l in
        (detections, record_detection st detection_time detections)
    | None => ([], st)
    end
  else ([], st).

(** The statistics after a series of calls of [detect_objects], each
    given by what the model reports and the time the call took. *)
Definition stats_after (self : MosaicProcessor) (st : statistics)
           (calls : list (option (list detection) * Q)) : statistics :=
  fold_left (fun st' call => snd (detect_objects_timed self st' (fst call) (snd call)))
            calls st.

(** [len(self.last_detections)], the count [get_performance_stats] shows. *)
Definition last_detections_count (st : statistics) : nat :=
  length (last_detections st).

End Mosaic.

(** ** overlay/pygame_overlay.py *)
Module Overlay.
Import Numpy Py.

(** Constants of the module and of win32con. *)
Definition WDA_EXCLUDEFROMCAPTURE : Z := 17.   (* 0x00000011 *)
Definition WH_CBT : Z := 5.
Definition HCBT_ACTIVATE : Z := 5.
Definition HWND_TOP : Z := 0.
Definition HWND_TOPMOST : Z := -1.
Definition SWP_NOSIZE : Z := 1.
Definition SWP_NOMOVE : Z := 2.
Definition SWP_NOREDRAW : Z := 8.
Definition SWP_NOACTIVATE : Z := 16.
Definition SWP_SHOWWINDOW : Z := 64.
Definition WS_EX_TRANSPARENT : Z := 32.
Definition WS_EX_LAYERED : Z := 524288.
Definition LWA_ALPHA : Z := 2.

(** The Win32 requests the overlay issues, in the order issued. *)
Inductive os_call :=
| SetWindowDisplayAffinity (h affinity : Z)
| SetWindowLong (h style : Z)
| SetLayeredWindowAttributes (h key alpha flags : Z)
| SetWindowPos (h insert_after flags : Z)
| BringWindowToTop (h : Z)
| SetWindowsHookExW (id : Z)
| UnhookWindowsHookEx (handle : Z)
| CallNextHookEx (handle : option Z) (nCode wParam lParam : Z).

(** Whether a request moves a window in the z-order while asking the
    system not to activate it.  [SetWindowPos] does so through
    SWP_NOACTIVATE; [BringWindowToTop] has no such option (Win32: a
    top-level window brought to the top this way is activated). *)
Definition asks_no_activate (c : os_call) : bool :=
  match c with
  | SetWindowPos _ _ flags => negb (Z.land flags SWP_NOACTIVATE =? 0)
  | BringWindowToTop _ => false
  | _ => true
  end.

(** A request that puts window [h] at the top of the topmost band. *)
Definition reasserts_topmost (h : Z) (c : os_call) : bool :=
  match c with
  | SetWindowPos h' after _ => (h' =? h) && (after =? HWND_TOPMOST)
  | _ => false
  end.

Record PygameOverlayWindow := mkOverlay {
  show_debug_info : bool;
  is_visible : bool;
  is_running : bool;
  current_frame : option image;
  screen : bool;                 (* self.screen is not None *)
  hwnd : option Z;
  display_thread : bool;         (* started and alive *)
  topmost_thread : bool;         (* started and alive *)
  force_topmost : bool;
  hook_installed : bool;
  hook_handle : option Z;
  calls : list os_call
}.

(** [__init__]. *)
Definition init (debug : bool) : PygameOverlayWindow :=
  mkOverlay debug false false None false None false false false false None [].

(** Python truthiness of a handle: neither [None] nor 0. *)
Definition truthy (h : option Z) : bool :=
  match h with
  | Some z => negb (z =? 0)
  | None => false
  end.

Definition handle (self : PygameOverlayWindow) : Z :=
  match hwnd self with Some z => z | None => 0 end.

Definition with_flags (self : PygameOverlayWindow) (vis run : bool) :=
  mkOverlay (show_debug_info self) vis run (current_frame self) (screen self)
    (hwnd self) (display_thread self) (topmost_thread self) (force_topmost self)
    (hook_installed self) (hook_handle self) (calls self).

Definition with_frame (self : PygameOverlayWindow) (f : option image) :=
  mkOverlay (show_debug_info self) (is_visible self) (is_running self) f
    (screen self) (hwnd self) (display_thread self) (topmost_thread self)
    (force_topmost self) (hook_installed self) (hook_handle self) (calls self).

Definition with_debug (self : PygameOverlayWindow) (b : bool) :=
  mkOverlay b (is_visible self) (is_running self) (current_frame self)
    (screen self) (hwnd self) (display_thread self) (topmost_thread self)
    (force_topmost self) (hook_installed self) (hook_handle self) (calls self).

Definition with_screen (self : PygameOverlayWindow) (b : bool) :=
  mkOverlay (show_debug_info self) (is_visible self) (is_running self)
    (current_frame self) b (hwnd self) (display_thread self)
    (topmost_thread self) (force_topmost self) (hook_installed self)
    (hook_handle self) (calls self).

Definition with_hwnd (self : PygameOverlayWindow) (h : option Z) :=
  mkOverlay (show_debug_info self) (is_visible self) (is_running self)
    (current_frame self) (screen self) h (display_thread self)
    (topmost_thread self) (force_topmost self) (hook_installed self)
    (hook_handle self) (calls self).

Definition with_threads (self : PygameOverlayWindow) (display topmost : bool) :=
  mkOverlay (show_debug_info self) (is_visible self) (is_running self)
    (current_frame self) (screen self) (hwnd self) display topmost
    (force_topmost self) (hook_installed self) (hook_handle self) (calls self).

Definition with_force_topmost (self : PygameOverlayWindow) (b : bool) :=
  mkOverlay (show_debug_info self) (is_visible self) (is_running self)
    (current_frame self) (screen self) (hwnd self) (display_thread self)
    (topmost_thread self) b (hook_installed self) (hook_handle self)
    (calls self).

Definition with_hook (self : PygameOverlayWindow) (installed : bool)
           (h : option Z) :=
  mkOverlay (show_debug_info self) (is_visible self) (is_running self)
    (current_frame self) (screen self) (hwnd self) (display_thread self)
    (topmost_thread self) (force_topmost self) installed h (calls self).

(** Record that the requests [cs] were issued. *)
Definition issue (self : PygameOverlayWindow) (cs : list os_call) :=
  mkOverlay (show_debug_info self) (is_visible self) (is_running self)
    (current_frame self) (screen self) (hwnd self) (display_thread self)
    (topmost_thread self) (force_topmost self) (hook_installed self)
    (hook_handle self) (calls self ++ cs).

(** What pygame and Win32 answer during [show].  A [result] field is a
    call that may raise; a [bool] field says that a call goes through. *)
Record environment := mkEnv {
  pygame_init : bool;            (* pygame.init() and display.Info() *)
  set_mode : bool;               (* pygame.display.set_mode: the window *)
  font_init : bool;              (* pygame.font.Font(None, 24) *)
  clock_init : bool;             (* pygame.time.Clock() *)
  wm_info : result (option Z);   (* get_wm_info() and its 'window' entry *)
  ex_style : result Z;           (* GetWindowLong(GWL_EXSTYLE) *)
  set_style : result Z;          (* SetWindowLong, the value it returns *)
  set_pos : bool;                (* SetWindowPos of step 3 *)
  style_check : result Z;        (* GetWindowLong read back by the test *)
  retry_style : result Z;        (* GetWindowLong of the retry *)
  hook : result Z                (* SetWindowsHookExW, the handle *)
}.

Section Platform.
(** The module constant [HAS_WIN32]: whether pywin32 could be imported. *)
Variable HAS_WIN32 : bool.

(** [test_click_through_immediately], given what GetWindowLong reads. *)
Definition test_click_through_immediately (self : PygameOverlayWindow)
           (style : result Z) : bool :=
  if negb HAS_WIN32 || negb (truthy (hwnd self)) then false
  else match style with
       | Ret ex =>
           negb (Z.land ex WS_EX_TRANSPARENT =? 0)
           && negb (Z.land ex WS_EX_LAYERED =? 0)
       | Raise _ => false
       end.

(** [_retry_click_through_setup]: clear both styles, set them again;
    whatever raises is swallowed (the calls after the style has been
    read are taken to go through). *)
Definition _retry_click_through_setup (self : PygameOverlayWindow)
           (style : result Z) : PygameOverlayWindow :=
  match style with
  | Ret ex =>
      let clean :=
        Z.land ex (Z.lnot (Z.lor WS_EX_LAYERED WS_EX_TRANSPARENT)) in
      let new_style := Z.lor (Z.lor clean WS_EX_LAYERED) WS_EX_TRANSPARENT in
      issue self [SetWindowLong (handle self) clean;
                  SetWindowLong (handle self) new_style;
                  SetLayeredWindowAttributes (handle self) 0 255 LWA_ALPHA]
  | Raise _ => self
  end.

(** [install_activation_hook]. *)
Definition install_activation_hook (self : PygameOverlayWindow)
           (answer : result Z) : PygameOverlayWindow :=
  if negb HAS_WIN32 || negb (truthy (hwnd self)) then self
  else
    let self1 := issue self [SetWindowsHookExW WH_CBT] in
    match answer with
    | Ret h =>
        let self2 := with_hook self1 (hook_installed self1) (Some h) in
        if negb (h =? 0) then with_hook self2 true (Some h) else self2
    | Raise _ => self1
    end.

(** [uninstall_activation_hook]; [unhook] says that
    UnhookWindowsHookEx goes through. *)
Definition uninstall_activation_hook (self : PygameOverlayWindow)
           (unhook : bool) : PygameOverlayWindow :=
  if hook_installed self && truthy (hook_handle self) then
    let self1 :=
      issue self [UnhookWindowsHookEx
                    (match hook_handle self with Some h => h | None => 0 end)] in
    if unhook then with_hook self1 false None else self1
  else self.

(** [start_topmost_keeper] and [stop_topmost_keeper]. *)
Definition start_topmost_keeper (self : PygameOverlayWindow) :=
  if negb HAS_WIN32 || negb (truthy (hwnd self)) then self
  else with_threads self (display_thread self) true.

Definition stop_topmost_keeper (self : PygameOverlayWindow) :=
  with_threads self (display_thread self) false.

(** Steps 2 to 7 of [set_window_click_through_and_capture_protected],
    once the handle is known and truthy. *)
Definition protect_handle (env : environment) (self : PygameOverlayWindow)
  : PygameOverlayWindow :=
  let h := handle self in
  (* step 1: capture exclusion, failures only reported *)
  let self1 := issue self [SetWindowDisplayAffinity h WDA_EXCLUDEFROMCAPTURE] in
  (* step 2: click-through, inside its own try *)
  let self2 :=
    match ex_style env with
    | Ret ex =>
        let new_ex_style := Z.lor (Z.lor ex WS_EX_LAYERED) WS_EX_TRANSPARENT in
        let s := issue self1 [SetWindowLong h new_ex_style] in
        match set_style env with
        | Ret r =>
            if negb (r =? 0)
            then issue s [SetLayeredWindowAttributes h 0 255 LWA_ALPHA]
            else s
        | Raise _ => s
        end
    | Raise _ => self1
    end in
  (* step 3: topmost; an exception here ends the whole method *)
  let self3 :=
    issue self2 [SetWindowPos h HWND_TOPMOST
                   (Z.lor (Z.lor SWP_NOMOVE SWP_NOSIZE) SWP_SHOWWINDOW)] in
  if negb (set_pos env) then self3
  else
    (* step 4: check the styles, retry once *)
    let self4 :=
      if test_click_through_immediately self3 (style_check env) then self3
      else _retry_click_through_setup self3 (retry_style env) in
    (* steps 5 to 7 *)
    let self5 := with_force_topmost self4 true in
    let self6 := install_activation_hook self5 (hook env) in
    start_topmost_keeper self6.

(** [set_window_click_through_and_capture_protected]. *)
Definition set_window_click_through_and_capture_protected
           (env : environment) (self : PygameOverlayWindow)
  : PygameOverlayWindow :=
  if negb HAS_WIN32 then self
  else match wm_info env with
       | Ret (Some h) =>
           let self1 := with_hwnd self (Some h) in
           if truthy (hwnd self1) then protect_handle env self1 else self1
       | Ret None => self
       | Raise _ => self
       end.

(** The pygame calls of [init_pygame] that create the window and what it
    is drawn with all go through: [pygame.init] and the display
    information, [set_mode], the font when the debug information is on,
    and the clock. *)
Definition window_created (env : environment) (self : PygameOverlayWindow) : bool :=
  pygame_init env && set_mode env
  && (negb (show_debug_info self) || font_init env)
  && clock_init env.

(** [init_pygame]: [true] when the [try] body runs to its end. *)
Definition init_pygame (env : environment) (self : PygameOverlayWindow)
  : PygameOverlayWindow * bool :=
  if negb (pygame_init env) then (self, false)
  else if negb (set_mode env) then (self, false)
  else
    let self1 := with_screen self true in
    if show_debug_info self1 && negb (font_init env) then (self1, false)
    else if negb (clock_init env) then (self1, false)
    else if HAS_WIN32
         then (set_window_click_through_and_capture_protected env self1, true)
         else (self1, true).

(** [show]: [None] is the bare [return] of an overlay already shown. *)
Definition show (env : environment) (self : PygameOverlayWindow)
  : PygameOverlayWindow * option bool :=
  if is_visible self then (self, None)
  else
    let (self1, ok) := init_pygame env self in
    if negb ok then (self1, Some false)
    else
      let self2 := with_flags self1 true true in
      (with_threads self2 true (topmost_thread self2), Some true).

(** [hide]. *)
Definition hide (unhook : bool) (self : PygameOverlayWindow)
  : PygameOverlayWindow :=
  if negb (is_visible self) then self
  else
    let self1 := with_force_topmost (with_flags self false false) false in
    let self2 := uninstall_activation_hook self1 unhook in
    let self3 := stop_topmost_keeper self2 in
    with_threads self3 false (topmost_thread self3).

(** [update_frame] and [is_window_visible]. *)
Definition update_frame (self : PygameOverlayWindow) (processed_frame : image) :=
  with_frame self (Some processed_frame).

Definition is_window_visible (self : PygameOverlayWindow) : bool :=
  is_visible self && is_running self.

(** The display loop meets QUIT or the escape key: it switches
    [is_running] off and, its [while] being over, returns, so that the
    display thread is alive no longer. *)
Definition on_close_request (self : PygameOverlayWindow) :=
  with_threads (with_flags self (is_visible self) false)
               false (topmost_thread self).

(** [_force_to_topmost]; [ok1] says that its first request goes through
    (a failure there ends the method; the other two requests sit in a
    [try] of their own, so their failure changes nothing). *)
Definition _force_to_topmost (self : PygameOverlayWindow) (ok1 : bool)
  : PygameOverlayWindow :=
  if negb HAS_WIN32 || negb (truthy (hwnd self)) then self
  else
    let h := handle self in
    let self1 :=
      issue self [SetWindowPos h HWND_TOPMOST
                    (Z.lor (Z.lor SWP_NOMOVE SWP_NOSIZE) SWP_NOACTIVATE)] in
    if negb ok1 then self1
    else issue self1
           [BringWindowToTop h;
            SetWindowPos h HWND_TOP
              (Z.lor (Z.lor SWP_NOMOVE SWP_NOSIZE) SWP_NOACTIVATE)].

(** [_instant_force_topmost]; a failure of the first request skips the
    second. *)
Definition _instant_force_topmost (self : PygameOverlayWindow) (ok1 : bool)
  : PygameOverlayWindow :=
  if negb HAS_WIN32 || negb (truthy (hwnd self)) then self
  else
    let h := handle self in
    let flags :=
      Z.lor (Z.lor (Z.lor SWP_NOMOVE SWP_NOSIZE) SWP_NOACTIVATE) SWP_NOREDRAW in
    let self1 := issue self [SetWindowPos h HWND_TOPMOST flags] in
    if negb ok1 then self1
    else issue self1 [SetWindowPos h HWND_TOP flags].

(** [foreground_hwnd != self.hwnd]. *)
Definition differs (other : Z) (h : option Z) : bool :=
  match h with
  | Some z => negb (other =? z)
  | None => true
  end.

(** One turn of [_topmost_keeper_loop].  [foreground] is the answer of
    GetForegroundWindow; the turn ends with the sleep returned. *)
Definition topmost_keeper_turn (self : PygameOverlayWindow)
           (foreground : result Z) (ok1 : bool)
  : PygameOverlayWindow * Q :=
  match foreground with
  | Ret fg =>
      if differs fg (hwnd self)
      then (_force_to_topmost self ok1, 5 # 100)
      else (self, 5 # 100)
  | Raise _ => (self, 1 # 10)
  end.

(** [activation_hook_proc nCode wParam lParam], installed by
    [install_activation_hook]: both exits hand the event on. *)
Definition activation_hook_proc (self : PygameOverlayWindow)
           (nCode wParam lParam : Z) (ok1 : bool) : PygameOverlayWindow :=
  let self1 :=
    if (nCode >=? 0) && force_topmost self
    then if nCode =? HCBT_ACTIVATE
         then if differs wParam (hwnd self)
              then _instant_force_topmost self ok1
              else self
         else self
    else self in
  issue self1 [CallNextHookEx (hook_handle self1) nCode wParam lParam].

(** The extended styles written by the [SetWindowLong] requests of a
    trace, in order. *)
Definition style_writes (cs : list os_call) : list Z :=
  flat_map (fun c => match c with
                     | SetWindowLong _ style => [style]
                     | _ => []
                     end) cs.

(** The overlay runs only while it is marked visible. *)
Definition coherent (self : PygameOverlayWindow) : Prop :=
  is_running self = true -> is_visible self = true.

(** What can happen to an overlay during a session. *)
Inductive op :=
| Show (env : environment)
| Hide (unhook : bool)
| CloseRequest
| UpdateFrame (frame : image)
| KeeperTurn (foreground : result Z) (ok1 : bool)
| HookEvent (nCode wParam lParam : Z) (ok1 : bool).

Definition apply_op (self : PygameOverlayWindow) (o : op) : PygameOverlayWindow :=
  match o with
  | Show env => fst (show env self)
  | Hide unhook => hide unhook self
  | CloseRequest => on_close_request self
  | UpdateFrame frame => update_frame self frame
  | KeeperTurn fg ok1 => fst (topmost_keeper_turn self fg ok1)
  | HookEvent n w l ok1 => activation_hook_proc self n w l ok1
  end.

(** The overlay after a sequence of such events, starting from
    [__init__]. *)
Definition after (debug : bool) (ops : list op) : PygameOverlayWindow :=
  fold_left apply_op ops (init debug).

End Platform.

(** [set_fps_limit]: the new value of [self.fps_limit]. *)
Definition set_fps_limit (fps : Z) : Z := Z.max 10 (Z.min 60 fps).

(** [cv2_to_pygame_surface], for a screen of [screen_width] by
    [screen_height]: channels swapped, resized to the screen when the
    shape differs (the default interpolation is the linear one), then
    transposed, because a surface is indexed (x, y).  The surface is
    given by its array; [None] is the result after any exception. *)
Definition cv2_to_pygame_surface (resize : Cv2.resize_fn)
           (screen_width screen_height : Z) (cv2_image : image) : option image :=
  match Cv2.cvtColor_BGR2RGB cv2_image with
  | None => None
  | Some rgb_image =>
      let resized :=
        if (shape0 rgb_image =? screen_height) && (shape1 rgb_image =? screen_width)
        then Some rgb_image
        else resize rgb_image (screen_width, screen_height) Cv2.INTER_LINEAR in
      match resized with
      | None => None
      | Some rgb_image' => Some (transpose rgb_image')
      end
  end.

End Overlay.

(** ** main.py *)
Module App.
Import Numpy Py Mosaic.

(** Lines written by [log_message]. *)
Inductive message :=
| MsgStopping
| MsgStopped
| MsgOverlayFailed
| MsgStarted
| MsgMosaic (label : string)
| MsgProcessingError.

(** [self.stats]: frames processed, objects detected, mosaics applied. *)
Record stats := mkStats {
  frames_processed : Z;
  objects_detected : Z;
  mosaic_applied : Z
}.

(** The state of [MosaicApp] that start, stop and the processing loop
    read or write.  [strength_var] is the value of the strength slider;
    [start_button] and [stop_button] say whether the button is enabled;
    [process_thread] says whether the processing thread is alive. *)
Record MosaicApp := mkApp {
  is_running : bool;
  process_thread : bool;
  overlay : Overlay.PygameOverlayWindow;
  processor : MosaicProcessor;
  strength_var : Z;
  counters : stats;
  start_button : bool;
  stop_button : bool;
  log : list message
}.

(** [__init__]: nothing runs, the start button is enabled. *)
Definition init (p : MosaicProcessor) (s : Z) (debug : bool) : MosaicApp :=
  mkApp false false (Overlay.init debug) p s (mkStats 0 0 0) true false [].

(** [stop_censoring].  [unhook] is the answer of UnhookWindowsHookEx
    inside [hide], [joined] says that the processing thread ends
    within the one second [join] waits. *)
Definition stop_censoring (unhook joined : bool) (app : MosaicApp) : MosaicApp :=
  if negb (is_running app) then app
  else
    mkApp false
          (process_thread app && negb joined)
          (Overlay.hide unhook (overlay app))
          (processor app) (strength_var app) (counters app)
          true false
          (log app ++ [MsgStopping; MsgStopped]).

(** What the user has chosen in the window when pressing start: the
    ticked target classes, the answer to the confirmation dialogue, the
    confidence slider and the debug-information box. *)
Record choices := mkChoices {
  selected_targets : list string;
  confirmed : bool;
  confidence_var : Q;
  show_debug_info_var : bool
}.

(** [start_censoring] on a machine described by [hw] (the constant
    HAS_WIN32) and [env]; [unhook] and [joined] serve the [stop_censoring]
    that follows a failed [show]. *)
Definition start_censoring (hw : bool) (env : Overlay.environment)
           (unhook joined : bool) (ui : choices) (app : MosaicApp) : MosaicApp :=
  if is_running app then app
  else
    match selected_targets ui with
    | [] => app
    | _ :: _ =>
        if negb (confirmed ui) then app
        else
          let p0 := set_strength (set_targets (processor app) (selected_targets ui))
                                 (strength_var app) in
          let p := mkProcessor (model_loaded p0) (confidence_var ui) (targets p0)
                               (strength p0) in
          let o := Overlay.with_debug (overlay app) (show_debug_info_var ui) in
          match Overlay.show hw env o with
          | (o', Some true) =>
              mkApp true true o' p (strength_var app) (mkStats 0 0 0)
                    false true (log app ++ [MsgStarted])
          | (o', _) =>
              stop_censoring unhook joined
                (mkApp true (process_thread app) o' p (strength_var app)
                       (mkStats 0 0 0) false true (log app ++ [MsgOverlayFailed]))
          end
    end.

(** The counters after the detections of one frame that went through:
    every detection counts as an object, every detection of a target class
    as a mosaic. *)
Definition count (p : MosaicProcessor) (detections : list detection) (c : stats)
  : stats :=
  mkStats (frames_processed c + 1)
          (objects_detected c + Z.of_nat (length detections))
          (mosaic_applied c + Z.of_nat (length (filter (is_target p) detections))).

Definition with_log (app : MosaicApp) (l : list message) : MosaicApp :=
  mkApp (is_running app) (process_thread app) (overlay app) (processor app)
        (strength_var app) (counters app) (start_button app) (stop_button app) l.

Section WithResize.
Variable resize : Cv2.resize_fn.

(** The loop [for detection in detections] of [processing_loop], on the
    frame being built, the counters and the log.  [strength_value] is what
    the slider holds and [frame_count] the number of the frame.  The result
    ends with the exception that leaves the loop, if any; the counters and
    the log are then as the exception found them. *)
Fixpoint mosaic_loop (p : MosaicProcessor) (strength_value frame_count : Z)
         (processed_frame : image) (c : stats) (lg : list message)
         (detections : list detection)
  : image * stats * list message * option exn :=
  match detections with
  | [] => (processed_frame, c, lg, None)
  | d :: rest =>
      let c1 := mkStats (frames_processed c) (objects_detected c + 1)
                        (mosaic_applied c) in
      if is_target p d then
        let c2 := mkStats (frames_processed c1) (objects_detected c1)
                          (mosaic_applied c1 + 1) in
        let '(x1, y1, x2, y2) := bbox d in
        let region := getitem processed_frame (y1, y2) (x1, x2) in
        if size region >? 0 then
          match apply_mosaic resize p region (Some strength_value) with
          | Ret mosaic_region =>
              match setitem processed_frame (y1, y2) (x1, x2) mosaic_region with
              | Some processed_frame' =>
                  let lg' := if frame_count mod 30 =? 0
                             then lg ++ [MsgMosaic (class_name d)]
                             else lg in
                  mosaic_loop p strength_value frame_count processed_frame'
                              c2 lg' rest
              | None => (processed_frame, c2, lg, Some ValueError)
              end
          | Raise e => (processed_frame, c2, lg, Some e)
          end
        else mosaic_loop p strength_value frame_count processed_frame c2 lg rest
      else mosaic_loop p strength_value frame_count processed_frame c1 lg rest
  end.

(** The part of one turn of [processing_loop] between [get_frame] and
    [update_frame]: number the frame, copy it, detect on the original,
    pixelate the targets in the copy with the strength of the slider, hand
    the copy to the overlay.  The local [frame_count] and the entry
    [frames_processed] agree throughout: [start_censoring] sets the entry
    to 0 before the thread starts, and only this loop writes it.  The
    result is the application after the turn, and the exception that ended
    the turn before [update_frame], if any.  The debug images of a turn,
    the refresh of the statistics labels and the sleep that ends it touch
    nothing of this state (files, widgets and time; the rate slider runs
    from 15 to 60, so that the sleep is defined). *)
Definition run_turn (app : MosaicApp) (original_frame : image)
           (boxes : option (list detection)) : MosaicApp * option exn :=
  let frame_count := frames_processed (counters app) + 1 in
  let c0 := mkStats frame_count (objects_detected (counters app))
                    (mosaic_applied (counters app)) in
  let processed_frame := copy original_frame in
  let detections := detect_objects (processor app) boxes in
  match mosaic_loop (processor app) (strength_var app) frame_count
                    processed_frame c0 (log app) detections with
  | (processed_frame', c, lg, None) =>
      (mkApp (is_running app) (process_thread app)
             (Overlay.update_frame (overlay app) processed_frame')
             (processor app) (strength_var app) c
             (start_button app) (stop_button app) lg, None)
  | (_, c, lg, Some e) =>
      (mkApp (is_running app) (process_thread app) (overlay app)
             (processor app) (strength_var app) c
             (start_button app) (stop_button app) lg, Some e)
  end.

(** The same turn as a call that returns or raises. *)
Definition process_frame (app : MosaicApp) (original_frame : image)
           (boxes : option (list detection)) : result MosaicApp :=
  match run_turn app original_frame boxes with
  | (app', None) => Ret app'
  | (_, Some e) => Raise e
  end.

End WithResize.

(** The frame the overlay holds for display. *)
Definition delivered (app : MosaicApp) : option image :=
  Overlay.current_frame (overlay app).

Definition with_running (app : MosaicApp) (b : bool) : MosaicApp :=
  mkApp b (process_thread app) (overlay app) (processor app) (strength_var app)
        (counters app) (start_button app) (stop_button app) (log app).

Definition with_overlay (app : MosaicApp) (o : Overlay.PygameOverlayWindow)
  : MosaicApp :=
  mkApp (is_running app) (process_thread app) o (processor app) (strength_var app)
        (counters app) (start_button app) (stop_button app) (log app).

(** What one turn of [processing_loop] meets: the frame [get_frame] hands
    over ([None]: no image), the boxes the model reports for it, and
    whether the display loop of the overlay has met a close request by the
    time the turn looks. *)
Record turn := mkTurn {
  frame_in : option image;
  boxes_in : option (list detection);
  closed : bool
}.

(** [processing_loop] up to the point where the [while] is left: it is
    left when [is_running] is off, when the overlay is found closed (the
    loop then switches [is_running] off itself) and on an exception, which
    the [except] around the [while] logs; a turn without a frame only
    sleeps.  The list ends where the observation ends. *)
Fixpoint processing_loop (resize : Cv2.resize_fn) (app : MosaicApp)
         (turns : list turn) : MosaicApp :=
  if negb (is_running app) then app
  else
    match turns with
    | [] => app
    | t :: rest =>
        match frame_in t with
        | None => processing_loop resize app rest
        | Some original_frame =>
            match run_turn resize app original_frame (boxes_in t) with
            | (app1, Some _) => with_log app1 (log app1 ++ [MsgProcessingError])
            | (app1, None) =>
                let app2 :=
                  if closed t
                  then with_overlay app1 (Overlay.on_close_request (overlay app1))
                  else app1 in
                if negb (Overlay.is_window_visible (overlay app2))
                then with_running app2 false
                else processing_loop resize app2 rest
            end
        end
    end.

(** The processing thread as a whole: the loop, then the [stop_censoring]
    its [finally] hands to the main thread. *)
Definition processing_thread (resize : Cv2.resize_fn) (unhook joined : bool)
           (app : MosaicApp) (turns : list turn) : MosaicApp :=
  stop_censoring unhook joined (processing_loop resize app turns).

(** What [processing_loop] leaves alone: the visibility mark of the
    overlay, its topmost settings, its hook and the requests it has issued,
    and the two buttons. *)
Definition outside_loop (app : MosaicApp) :=
  (Overlay.is_visible (overlay app), Overlay.force_topmost (overlay app),
   Overlay.topmost_thread (overlay app), Overlay.hook_installed (overlay app),
   Overlay.hook_handle (overlay app), Overlay.calls (overlay app),
   start_button app, stop_button app).

(** A line the loop writes for a mosaic it has applied. *)
Definition mosaic_notice (m : message) : bool :=
  match m with
  | MsgMosaic _ => true
  | _ => false
  end.

(** [cleanup], on the application and the capture thread of its capturer. *)
Definition cleanup (unhook joined : bool) (st : MosaicApp * Capture.thread)
  : MosaicApp * Capture.thread :=
  let (app, t) := st in
  (mkApp false (process_thread app && negb joined)
         (Overlay.hide unhook (overlay app))
         (processor app) (strength_var app) (counters app)
         (start_button app) (stop_button app) (log app),
   Capture.stop_capture_thread t).

(** [on_closing]: stop when running, then clean up (the window is
    destroyed afterwards).  [joined_stop] is the answer of the [join]
    inside [stop_censoring], [joined] that of the [join] inside [cleanup]. *)
Definition on_closing (unhook joined_stop joined : bool)
           (st : MosaicApp * Capture.thread) : MosaicApp * Capture.thread :=
  let (app, t) := st in
  cleanup unhook joined
          (if is_running app then stop_censoring unhook joined_stop app else app, t).

End App.

(** ** gui/gui_korean.py *)
Module Gui.

(** [self.checkboxes]: label and state of each box, in insertion order
    (the labels are the keys of a dictionary, hence distinct). *)
Definition checkboxes : Type := list (string * bool).

(** The labels of the boxes that are ticked. *)
Definition ticked (boxes : checkboxes) : list string :=
  map fst (filter snd boxes).

(** [get_selected_targets]: the ticked labels; when none is ticked and
    there is a box, the first box is ticked and its label returned. *)
Definition get_selected_targets (boxes : checkboxes) : checkboxes * list string :=
  match ticked boxes, boxes with
  | [], (first_key, _) :: rest => ((first_key, true) :: rest, [first_key])
  | selected, _ => (boxes, selected)
  end.

End Gui.


(** ** Sample data on which the statements below are exercised *)
Module Samples.
Import Numpy Py Capture.

Definition grey : pixel := (7, 7, 7).

Definition frame2x2 : image := [[grey; grey]; [grey; grey]].

Definition frame3x4 : image :=
  [[(1, 1, 1); (2, 2, 2); (3, 3, 3); (4, 4, 4)];
   [(5, 5, 5); (6, 6, 6); (7, 7, 7); (8, 8, 8)];
   [(9, 9, 9); (10, 10, 10); (11, 11, 11); (12, 12, 12)]].

(** A capturer of a 2 x 2 screen with one region that starts one pixel
    left of the frame and reaches one pixel into it. *)
Definition capturer_left_overhang : ScreenCapturer :=
  add_exclude_region (default_capturer 2 2) (-1) 0 2 1.

(** A capturer of a 4 x 3 screen with a region that overhangs the frame on
    the right and at the bottom, and one that lies beyond it. *)
Definition capturer_two_regions : ScreenCapturer :=
  add_exclude_region (add_exclude_region (default_capturer 4 3) 2 1 5 5)
                     10 10 3 3.

(** The caller and the capture thread: a call that times out with nothing
    to fall back on, a frame captured and queued, a call that retrieves
    it, and a call that times out while the screen cannot be grabbed. *)
Definition get_frame_trace : list action :=
  [GetFrame (Some None); Thread (Grab (Some frame2x2));
   GetFrame (Some None); GetFrame (Some None)].

(** A processor with the default configuration of config.py, but for
    ASCII target names. *)
Definition processor : Mosaic.MosaicProcessor :=
  Mosaic.mkProcessor true (1 # 10) ["face"%string] 15.

(** A Windows machine on which every call goes through: the window has
    handle 4242, its extended style is 0 before the styles are set and
    shows both of them afterwards, and the hook gets handle 99. *)
Definition windows_ok : Overlay.environment :=
  Overlay.mkEnv true true true true (Ret (Some 4242)) (Ret 0) (Ret 1) true
                (Ret (Z.lor Overlay.WS_EX_LAYERED Overlay.WS_EX_TRANSPARENT))
                (Ret 0) (Ret 99).

(** The same machine when [set_mode] cannot create the window. *)
Definition no_window : Overlay.environment :=
  Overlay.mkEnv true false true true (Ret (Some 4242)) (Ret 0) (Ret 1) true
                (Ret (Z.lor Overlay.WS_EX_LAYERED Overlay.WS_EX_TRANSPARENT))
                (Ret 0) (Ret 99).

(** The overlay of that machine once [show] has returned. *)
Definition shown : Overlay.PygameOverlayWindow :=
  fst (Overlay.show true windows_ok (Overlay.init false)).

(** The application before any start, with the strength slider at 15. *)
Definition app : App.MosaicApp := App.init processor 15 false.

(** The application while a session runs on that machine: the user has
    ticked one target and confirmed. *)
Definition running_app : App.MosaicApp :=
  App.start_censoring true windows_ok true true
    (App.mkChoices ["face"%string] true (1 # 10) false) app.

(** A detection of a target class over columns 1..2 and rows 1..2, and one
    whose corners are negative. *)
Definition face_box : Mosaic.detection :=
  Mosaic.mkDetection "face" (9 # 10) (1, 1, 3, 3) 0.

Definition negative_box : Mosaic.detection :=
  Mosaic.mkDetection "face" (9 # 10) (-4, -2, -1, -1) 0.

(** A frame of 2 rows and 5 columns whose first row reads 1 2 2 3 4. *)
Definition frame2x5 : image :=
  [[(1, 1, 1); (2, 2, 2); (2, 2, 2); (3, 3, 3); (4, 4, 4)];
   [(5, 5, 5); (6, 6, 6); (7, 7, 7); (8, 8, 8); (9, 9, 9)]].

(** A fresh capture thread after [n] grabs in a row that all fail. *)
Definition after_failures (n : nat) : thread :=
  thread_run Cv2.nearest_resize (thread_start (default_capturer 4 3))
             (repeat (Grab None) n).

(** A detection of a class that is no target. *)
Definition hand_box : Mosaic.detection :=
  Mosaic.mkDetection "hand" (9 # 10) (0, 0, 4, 3) 9.

(** The application with the strength slider at 0. *)
Definition app_strength_0 : App.MosaicApp := App.init processor 0 false.

(** A turn of the processing loop that gets the 3 x 4 frame with a face
    reported in it, and the same turn when the display loop has met the
    escape key by the time the loop looks. *)
Definition plain_turn : App.turn :=
  App.mkTurn (Some frame3x4) (Some [face_box]) false.

Definition escape_turn : App.turn :=
  App.mkTurn (Some frame3x4) (Some [face_box]) true.

(** The application once the processing thread of [running_app] has ended
    on the escape key. *)
Definition app_after_escape : App.MosaicApp :=
  App.processing_thread Cv2.nearest_resize true true running_app
                        [plain_turn; escape_turn; plain_turn].


(** A window of three check boxes, none ticked, and one with the second
    box ticked. *)
Definition boxes_none : Gui.checkboxes :=
  [("face"%string, false); ("hand"%string, false); ("foot"%string, false)].

Definition boxes_hand : Gui.checkboxes :=
  [("face"%string, false); ("hand"%string, true); ("foot"%string, false)].

(** A capturer of a 4 x 3 screen with two well-formed regions. *)
Definition capturer_corner_regions : ScreenCapturer :=
  add_exclude_region (add_exclude_region (default_capturer 4 3) 0 0 1 1)
                     3 2 4 4.

End Samples.

(* ================================================================== *)
(** * Part II: properties                                              *)
(* ================================================================== *)

(** ** Facts about arrays and slices *)
Module NumpyFacts.
Import Numpy.

Lemma nth_error_imap_from {A B} (f : nat -> A -> B) (l : list A) :
  forall i k, nth_error (imap_from f i l) k = option_map (f (i + k)%nat) (nth_error l k).
Proof.
  induction l as [|a l IH]; intros i k.
  - destruct k; reflexivity.
  - destruct k as [|k]; simpl.
    + now rewrite Nat.add_0_r.
    + rewrite IH. now rewrite Nat.add_succ_comm.
Qed.

Lemma nth_error_imap {A B} (f : nat -> A -> B) (l : list A) (k : nat) :
  nth_error (imap f l) k = option_map (f k) (nth_error l k).
Proof. unfold imap. now rewrite nth_error_imap_from. Qed.

Lemma length_imap_from {A B} (f : nat -> A -> B) (l : list A) :
  forall i, length (imap_from f i l) = length l.
Proof. induction l; intros; simpl; auto. Qed.

Lemma length_imap {A B} (f : nat -> A -> B) (l : list A) :
  length (imap f l) = length l.
Proof. apply length_imap_from. Qed.

Lemma px_rewrite g sel img r c :
  px (rewrite_px g sel img) r c =
  option_map (fun p => if sel r then g r c p else p) (px img r c).
Proof.
  unfold px, rewrite_px. rewrite nth_error_imap.
  destruct (nth_error img r) as [row|]; simpl; [|reflexivity].
  destruct (sel r).
  - now rewrite nth_error_imap.
  - now destruct (nth_error row c).
Qed.

Lemma shape0_rewrite g sel img : shape0 (rewrite_px g sel img) = shape0 img.
Proof. unfold shape0, rewrite_px. now rewrite length_imap. Qed.

Lemma shape1_rewrite g sel img : shape1 (rewrite_px g sel img) = shape1 img.
Proof.
  destruct img as [|row img]; [reflexivity|].
  unfold rewrite_px, imap; simpl.
  destruct (sel 0%nat); [|reflexivity].
  now rewrite length_imap_from.
Qed.

Lemma Forall_imap_from {A B} (P : A -> Prop) (Q : B -> Prop) (f : nat -> A -> B) :
  (forall i a, P a -> Q (f i a)) ->
  forall l i, Forall P l -> Forall Q (imap_from f i l).
Proof.
  intros Hf l. induction l as [|a l IH]; intros i H; simpl.
  - constructor.
  - inversion H; subst. constructor; auto.
Qed.

Lemma rect_spec img :
  rect img = true <-> Forall (fun row => Z.of_nat (length row) = shape1 img) img.
Proof.
  unfold rect. rewrite forallb_forall, Forall_forall.
  split; intros H row Hin; specialize (H row Hin); lia.
Qed.

Lemma rect_rewrite g sel img : rect img = true -> rect (rewrite_px g sel img) = true.
Proof.
  rewrite !rect_spec, shape1_rewrite. intros H.
  unfold rewrite_px, imap.
  apply Forall_imap_from with (P := fun row => Z.of_nat (length row) = shape1 img);
    [|exact H].
  intros i row Hrow. destruct (sel i); [|exact Hrow].
  now rewrite length_imap_from.
Qed.

(** In a rectangular image the pixels are exactly those inside the shape. *)
Lemma px_defined img r c :
  rect img = true ->
  (Z.of_nat r < shape0 img) -> (Z.of_nat c < shape1 img) ->
  exists p, px img r c = Some p.
Proof.
  intros Hrect Hr Hc. unfold px, shape0 in *.
  destruct (nth_error img r) as [row|] eqn:E.
  - apply rect_spec in Hrect. rewrite Forall_forall in Hrect.
    specialize (Hrect row (nth_error_In _ _ E)).
    destruct (nth_error row c) as [p|] eqn:E2; [eauto|].
    apply nth_error_None in E2. lia.
  - apply nth_error_None in E. lia.
Qed.

Lemma px_fill img ys xs v r c :
  px (fill img ys xs v) r c =
  option_map (fun p => if in_span (indices (shape0 img) ys) r
                          && in_span (indices (shape1 img) xs) c
                       then v else p) (px img r c).
Proof.
  unfold fill. rewrite px_rewrite.
  destruct (px img r c); simpl; [|reflexivity].
  now destruct (in_span (indices (shape0 img) ys) r).
Qed.

(** A non-negative start and a positive stop select what one expects. *)
Lemma in_span_plain n a b (i : nat) :
  0 <= n -> 0 <= a -> 0 <= b ->
  in_span (indices n (a, b)) i = true <->
  a <= Z.of_nat i /\ Z.of_nat i < b /\ Z.of_nat i < n.
Proof.
  intros Hn Ha Hb. unfold in_span, indices, slice_index; simpl.
  destruct (a <? 0) eqn:Ea; [lia|]. destruct (b <? 0) eqn:Eb; [lia|].
  rewrite andb_true_iff, Nat.leb_le, Nat.ltb_lt. lia.
Qed.

Lemma In_sub {A} (s : nat * nat) (l : list A) x : In x (sub s l) -> In x l.
Proof.
  unfold sub. intros H.
  rewrite <- (firstn_skipn (fst s) l). apply in_or_app. right.
  rewrite <- (firstn_skipn (snd s - fst s) (skipn (fst s) l)).
  apply in_or_app. now left.
Qed.

Lemma length_sub {A} (s : nat * nat) (l : list A) :
  length (sub s l) = Nat.min (snd s - fst s) (length l - fst s).
Proof. unfold sub. now rewrite length_firstn, length_skipn. Qed.

(** A slice of a rectangular image is rectangular. *)
Lemma rect_getitem img ys xs : rect img = true -> rect (getitem img ys xs) = true.
Proof.
  intros Hrect. apply rect_spec in Hrect. rewrite Forall_forall in Hrect.
  set (cs := indices (shape1 img) xs).
  assert (Hlen : forall row, In row (getitem img ys xs) ->
                 length row = Nat.min (snd cs - fst cs)
                                      (Z.to_nat (shape1 img) - fst cs)).
  { intros row Hin. unfold getitem in Hin. apply in_map_iff in Hin.
    destruct Hin as (row0 & <- & Hin0). apply In_sub in Hin0.
    fold cs. rewrite length_sub. specialize (Hrect row0 Hin0). lia. }
  apply rect_spec. apply Forall_forall. intros row Hin.
  rewrite (Hlen row Hin).
  destruct (getitem img ys xs) as [|row0 rest] eqn:E; [destruct Hin|].
  cbn [shape1]. rewrite (Hlen row0); [reflexivity | now left].
Qed.

(** Writing a slice back: pixels outside the selected rows and columns
    keep their value, and the shape is kept. *)
Lemma setitem_facts img ys xs val out :
  setitem img ys xs val = Some out ->
  shape0 out = shape0 img /\ shape1 out = shape1 img /\
  (rect img = true -> rect out = true) /\
  forall r c,
    in_span (indices (shape0 img) ys) r && in_span (indices (shape1 img) xs) c = false ->
    px out r c = px img r c.
Proof.
  unfold setitem.
  destruct (same_shape (getitem img ys xs) val && rect val); [|discriminate].
  intros H. injection H as <-.
  split; [apply shape0_rewrite|]. split; [apply shape1_rewrite|].
  split; [apply rect_rewrite|].
  intros r c Hout. rewrite px_rewrite.
  destruct (px img r c) as [p|]; [|reflexivity]. cbn [option_map].
  destruct (in_span (indices (shape0 img) ys) r); [|reflexivity].
  cbn [andb] in Hout. now rewrite Hout.
Qed.

Lemma setitem_some img ys xs val :
  shape0 val = shape0 (getitem img ys xs) ->
  shape1 val = shape1 (getitem img ys xs) ->
  rect val = true ->
  exists out, setitem img ys xs val = Some out.
Proof.
  intros H0 H1 Hr. unfold setitem, same_shape.
  rewrite H0, H1, !Z.eqb_refl, Hr. cbn [andb]. eauto.
Qed.

(** *** Reading a slice back *)

Lemma nth_error_sub_at {A} (s : nat * nat) (l : list A) (i : nat) :
  nth_error (sub s l) i =
  if (i <? snd s - fst s)%nat then nth_error l (fst s + i) else None.
Proof. unfold sub. now rewrite nth_error_firstn, nth_error_skipn. Qed.

Lemma length_getitem img ys xs :
  length (getitem img ys xs) =
  Nat.min (snd (indices (shape0 img) ys) - fst (indices (shape0 img) ys))
          (length img - fst (indices (shape0 img) ys)).
Proof. unfold getitem. now rewrite length_map, length_sub. Qed.

Lemma shape0_getitem img ys xs :
  shape0 (getitem img ys xs) =
  Z.of_nat (Nat.min (snd (indices (shape0 img) ys) - fst (indices (shape0 img) ys))
                    (length img - fst (indices (shape0 img) ys))).
Proof. unfold shape0. rewrite length_getitem. reflexivity. Qed.

(** The pixel at (i, j) of a slice is the pixel of the array that lies
    i rows and j columns after the start of the slice. *)
Lemma px_getitem img ys xs i j :
  px (getitem img ys xs) i j =
  if (i <? snd (indices (shape0 img) ys) - fst (indices (shape0 img) ys))%nat
     && (j <? snd (indices (shape1 img) xs) - fst (indices (shape1 img) xs))%nat
  then px img (fst (indices (shape0 img) ys) + i) (fst (indices (shape1 img) xs) + j)
  else None.
Proof.
  unfold px, getitem. rewrite nth_error_map, nth_error_sub_at.
  destruct (i <? _)%nat; cbn [andb option_map]; [|reflexivity].
  destruct (nth_error img _) as [row|]; cbn [option_map].
  - now rewrite nth_error_sub_at.
  - now destruct (j <? _)%nat.
Qed.

(** Two arrays with the same number of rows and the same pixels are
    equal. *)
Lemma image_ext (a b : image) :
  shape0 a = shape0 b -> (forall i j, px a i j = px b i j) -> a = b.
Proof.
  intros Hs H. apply nth_error_ext. intros i. specialize (H i). unfold px in H.
  unfold shape0 in Hs.
  destruct (nth_error a i) as [ra|] eqn:Ea, (nth_error b i) as [rb|] eqn:Eb.
  - f_equal. apply nth_error_ext. exact H.
  - apply nth_error_None in Eb.
    assert (i < length a)%nat by (apply nth_error_Some; congruence). lia.
  - apply nth_error_None in Ea.
    assert (i < length b)%nat by (apply nth_error_Some; congruence). lia.
  - reflexivity.
Qed.

Lemma px_inside img i j p :
  rect img = true -> px img i j = Some p ->
  Z.of_nat i < shape0 img /\ Z.of_nat j < shape1 img.
Proof.
  intros Hrect H. unfold px in H.
  destruct (nth_error img i) as [row|] eqn:Er; [|discriminate].
  assert (Hi : (i < length img)%nat) by (apply nth_error_Some; congruence).
  assert (Hj : (j < length row)%nat) by (apply nth_error_Some; congruence).
  apply rect_spec in Hrect. rewrite Forall_forall in Hrect.
  specialize (Hrect row (nth_error_In _ _ Er)). unfold shape0. lia.
Qed.

(** Two rectangular arrays of the same shape have pixels at the same
    places. *)
Lemma px_same_domain a b i j :
  rect a = true -> rect b = true ->
  shape0 a = shape0 b -> shape1 a = shape1 b ->
  (px a i j = None <-> px b i j = None).
Proof.
  intros Ra Rb S0 S1. split; intros H.
  - destruct (px b i j) as [p|] eqn:E; [|reflexivity].
    apply (px_inside b i j p Rb) in E as [E0 E1].
    destruct (px_defined a i j Ra) as [q Hq]; congruence || lia.
  - destruct (px a i j) as [p|] eqn:E; [|reflexivity].
    apply (px_inside a i j p Ra) in E as [E0 E1].
    destruct (px_defined b i j Rb) as [q Hq]; congruence || lia.
Qed.

Lemma in_span_offset (s : nat * nat) (i : nat) :
  (i <? snd s - fst s)%nat = true -> in_span s (fst s + i) = true.
Proof.
  unfold in_span. rewrite Nat.ltb_lt, andb_true_iff, Nat.leb_le, Nat.ltb_lt. lia.
Qed.

(** A slice depends on the pixels it selects only. *)
Lemma getitem_ext a b ys xs :
  shape0 a = shape0 b -> shape1 a = shape1 b ->
  (forall r c,
      in_span (indices (shape0 a) ys) r = true ->
      in_span (indices (shape1 a) xs) c = true ->
      px a r c = px b r c) ->
  getitem a ys xs = getitem b ys xs.
Proof.
  intros S0 S1 H. apply image_ext.
  - rewrite !shape0_getitem, <- S0.
    assert (L : length a = length b) by (unfold shape0 in S0; lia).
    now rewrite L.
  - intros i j. rewrite !px_getitem, <- S0, <- S1.
    destruct (i <? _)%nat eqn:Ei; cbn [andb]; [|reflexivity].
    destruct (j <? _)%nat eqn:Ej; [|reflexivity].
    apply H; now apply in_span_offset.
Qed.

(** Reading back the slice that was written gives what was written. *)
Lemma getitem_setitem img ys xs val out :
  rect img = true ->
  setitem img ys xs val = Some out ->
  getitem out ys xs = val.
Proof.
  intros Hrect. unfold setitem.
  destruct (same_shape (getitem img ys xs) val && rect val) eqn:E; [|discriminate].
  apply andb_true_iff in E as [Hsame Hrv].
  unfold same_shape in Hsame. apply andb_true_iff in Hsame as [G0 G1].
  apply Z.eqb_eq in G0. apply Z.eqb_eq in G1.
  intros H. injection H as <-.
  pose proof (rect_getitem img ys xs Hrect) as Hrg.
  set (rs := indices (shape0 img) ys) in *.
  set (cs := indices (shape1 img) xs) in *.
  apply image_ext.
  - rewrite <- G0, !shape0_getitem, shape0_rewrite.
    unfold rewrite_px. now rewrite length_imap.
  - intros i j. rewrite px_getitem, shape0_rewrite, shape1_rewrite. fold rs cs.
    pose proof (px_getitem img ys xs i j) as Hg. fold rs cs in Hg.
    rewrite px_rewrite.
    destruct ((i <? snd rs - fst rs)%nat && (j <? snd cs - fst cs)%nat) eqn:Eij.
    + apply andb_true_iff in Eij as [Ei Ej].
      destruct (px img (fst rs + i) (fst cs + j)) as [p|] eqn:Ep; cbn [option_map].
      * rewrite (in_span_offset rs i Ei), (in_span_offset cs j Ej).
        change (Z.to_nat (slice_index (shape1 img) (fst xs))) with (fst cs).
        change (Z.to_nat (slice_index (shape0 img) (fst ys))) with (fst rs).
        replace (fst cs + j - fst cs)%nat with j by lia.
        replace (fst rs + i - fst rs)%nat with i by lia.
        apply (px_inside _ i j p Hrg) in Hg as [H0 H1].
        destruct (px_defined val i j Hrv) as [v Hv]; [lia | lia |].
        rewrite Hv. f_equal. unfold px in Hv.
        destruct (nth_error val i) as [row|] eqn:Er; [|discriminate].
        rewrite (nth_error_nth _ _ _ Er). now apply nth_error_nth.
      * symmetry. apply (px_same_domain (getitem img ys xs) val i j); auto.
    + symmetry. apply (px_same_domain (getitem img ys xs) val i j); auto.
Qed.

End NumpyFacts.

(** ** Exclusion masking in the capture step *)
Module MaskingFacts.
Import Numpy Cv2 Py Capture NumpyFacts.

Lemma shape0_mask_region img reg : shape0 (mask_region img reg) = shape0 img.
Proof.
  destruct reg as [[[x y] w] h]. unfold mask_region.
  destruct (origin_inside img (x, y, w, h)); [|reflexivity].
  apply shape0_rewrite.
Qed.

Lemma shape1_mask_region img reg : shape1 (mask_region img reg) = shape1 img.
Proof.
  destruct reg as [[[x y] w] h]. unfold mask_region.
  destruct (origin_inside img (x, y, w, h)); [|reflexivity].
  apply shape1_rewrite.
Qed.

Lemma rect_mask_region img reg : rect img = true -> rect (mask_region img reg) = true.
Proof.
  destruct reg as [[[x y] w] h]. unfold mask_region. intros H.
  destruct (origin_inside img (x, y, w, h)); [|exact H].
  now apply rect_rewrite.
Qed.

Lemma origin_inside_shape a b reg :
  shape0 a = shape0 b -> shape1 a = shape1 b ->
  origin_inside a reg = origin_inside b reg.
Proof.
  destruct reg as [[[x y] w] h]. unfold origin_inside. now intros -> ->.
Qed.

Lemma mask_region_skip img reg : origin_inside img reg = false -> mask_region img reg = img.
Proof.
  destruct reg as [[[x y] w] h]. unfold mask_region. now intros ->.
Qed.

(** Masking turns a pixel black or leaves it alone. *)
Lemma px_mask_region_cases img reg r c p :
  px img r c = Some p ->
  px (mask_region img reg) r c = Some zero \/ px (mask_region img reg) r c = Some p.
Proof.
  destruct reg as [[[x y] w] h]. unfold mask_region. intros Hp.
  destruct (origin_inside img (x, y, w, h)); [|now right].
  rewrite px_fill, Hp; simpl.
  match goal with |- context [if ?b then _ else _] => destruct b end; auto.
Qed.

Lemma px_mask_region_covered img reg r c p :
  px img r c = Some p ->
  origin_inside img reg = true -> covers reg r c ->
  Z.of_nat r < shape0 img -> Z.of_nat c < shape1 img ->
  px (mask_region img reg) r c = Some zero.
Proof.
  destruct reg as [[[x y] w] h]. unfold mask_region, covers.
  intros Hp Ho [Hc Hr] Hr' Hc'. rewrite Ho.
  unfold origin_inside in Ho.
  rewrite !andb_true_iff in Ho. destruct Ho as [[[Hx Hy] Hx'] Hy'].
  rewrite px_fill, Hp; simpl.
  assert (Er : in_span (indices (shape0 img) (y, Z.min (y + h) (shape0 img))) r = true)
    by (apply in_span_plain; lia).
  assert (Ec : in_span (indices (shape1 img) (x, Z.min (x + w) (shape1 img))) c = true)
    by (apply in_span_plain; lia).
  now rewrite Er, Ec.
Qed.

Lemma shape_mask_regions l : forall img,
  shape0 (mask_regions l img) = shape0 img /\
  shape1 (mask_regions l img) = shape1 img /\
  (rect img = true -> rect (mask_regions l img) = true).
Proof.
  induction l as [|reg l IH]; intros img; simpl; [auto|].
  destruct (IH (mask_region img reg)) as (H0 & H1 & Hr).
  rewrite H0, H1, shape0_mask_region, shape1_mask_region.
  repeat split; auto. intros H. apply Hr. now apply rect_mask_region.
Qed.

Lemma zero_stays l : forall img r c,
  px img r c = Some zero -> px (mask_regions l img) r c = Some zero.
Proof.
  induction l as [|reg l IH]; intros img r c H; simpl; [exact H|].
  apply IH. destruct (px_mask_region_cases img reg r c zero H); assumption.
Qed.

Lemma mask_regions_app l1 l2 img :
  mask_regions (l1 ++ l2) img = mask_regions l2 (mask_regions l1 img).
Proof. apply fold_left_app. Qed.

Lemma fully_outside_origin img reg : fully_outside img reg -> origin_inside img reg = false.
Proof.
  destruct reg as [[[x y] w] h]. unfold fully_outside, origin_inside.
  intros (Hw & Hh & H).
  destruct (x >=? 0) eqn:E1, (y >=? 0) eqn:E2, (x <? shape1 img) eqn:E3,
           (y <? shape0 img) eqn:E4; simpl; try reflexivity; lia.
Qed.

(** The capture step succeeds or fails whatever the regions are. *)
Lemma capture_body_regions resize self shot :
  match capture_body resize (clear_exclude_regions self) shot with
  | Ret frame =>
      capture_body resize self shot = Ret (mask_regions (exclude_regions self) frame)
  | Raise e => capture_body resize self shot = Raise e
  end.
Proof.
  unfold capture_body, clear_exclude_regions; simpl.
  destruct shot as [img|]; [|reflexivity].
  destruct (negb (Qeq_bool (capture_downscale self) 1)); simpl.
  - destruct (resize img (capture_width self, capture_height self) INTER_NEAREST);
      simpl; [|reflexivity].
    destruct (debug_mode self); simpl; [|reflexivity].
    now destruct (pymod (frame_count self) (debug_save_interval self)).
  - destruct (debug_mode self); simpl; [|reflexivity].
    now destruct (pymod (frame_count self) (debug_save_interval self)).
Qed.

(** C1, as stated, fails: a region that starts left of the frame and
    reaches into it is skipped by the coordinate check.  On a 2 x 2 grey
    frame with the region (-1, 0, 2, 1), pixel (0, 0) lies in the region and
    in the frame, the capture step succeeds, and the pixel keeps its value
    instead of becoming zero. *)
Lemma exclusion_masking_partial_region_skipped :
  In (-1, 0, 2, 1) (exclude_regions Samples.capturer_left_overhang) /\
  covers (-1, 0, 2, 1) 0 0 /\
  px Samples.frame2x2 0 0 = Some Samples.grey /\
  exists out,
    _capture_screen nearest_resize Samples.capturer_left_overhang
                    (Some Samples.frame2x2) = Some out /\
    px out 0 0 = Some Samples.grey /\
    px out 0 0 <> Some zero.
Proof.
  split; [left; reflexivity|].
  split; [unfold covers; lia|].
  split; [reflexivity|].
  eexists. split; [reflexivity|].
  split; [reflexivity|]. vm_compute. discriminate.
Qed.

(** C1, amended: the regions never make the capture step fail; a region
    whose corner (x, y) is a pixel of the captured frame has every frame
    pixel of its rectangle, clipped to the frame, set to zero; a region
    whose corner is not a pixel of the frame is skipped, that is, the
    result is the one obtained without it; and every region lying fully
    outside the frame is such a region.  The captured frame is what the
    step yields when no region is configured. *)
Theorem exclusion_masking :
  forall resize self shot,
    (_capture_screen resize self shot = None <->
     _capture_screen resize (clear_exclude_regions self) shot = None) /\
    forall frame,
      _capture_screen resize (clear_exclude_regions self) shot = Some frame ->
      rect frame = true ->
      exists out,
        _capture_screen resize self shot = Some out /\
        shape0 out = shape0 frame /\ shape1 out = shape1 frame /\
        (forall reg r c,
            In reg (exclude_regions self) ->
            origin_inside frame reg = true ->
            covers reg r c ->
            Z.of_nat r < shape0 frame -> Z.of_nat c < shape1 frame ->
            px out r c = Some zero) /\
        (forall l1 reg l2,
            exclude_regions self = l1 ++ reg :: l2 ->
            origin_inside frame reg = false ->
            out = mask_regions (l1 ++ l2) frame) /\
        (forall reg, fully_outside frame reg -> origin_inside frame reg = false).
Proof.
  intros resize self shot.
  pose proof (capture_body_regions resize self shot) as Hb.
  unfold _capture_screen.
  destruct (capture_body resize (clear_exclude_regions self) shot) as [frame0|e];
    rewrite Hb.
  - split; [split; discriminate|].
    intros frame Hf Hrect. injection Hf as <-.
    exists (mask_regions (exclude_regions self) frame0).
    destruct (shape_mask_regions (exclude_regions self) frame0) as (H0 & H1 & _).
    repeat split; auto.
    + intros reg r c Hin Ho Hc Hr Hc'.
      destruct (in_split _ _ Hin) as (l1 & l2 & ->).
      rewrite mask_regions_app. simpl.
      destruct (shape_mask_regions l1 frame0) as (E0 & E1 & Er).
      apply zero_stays.
      destruct (px_defined (mask_regions l1 frame0) r c (Er Hrect)) as [p Hp];
        [lia | lia |].
      apply px_mask_region_covered with (p := p); try lia; auto.
      rewrite <- Ho. now apply origin_inside_shape.
    + intros l1 reg l2 -> Ho.
      rewrite !mask_regions_app. simpl.
      destruct (shape_mask_regions l1 frame0) as (E0 & E1 & _).
      rewrite mask_region_skip; [reflexivity|].
      rewrite <- Ho. now apply origin_inside_shape.
    + intros reg. apply fully_outside_origin.
  - split; [split; reflexivity|]. intros frame Hf. discriminate.
Qed.

(** The statement at work on a 3 x 4 frame: the region (2, 1, 5, 5), which
    overhangs the frame, blackens pixel (row 2, column 3), and the region
    (10, 10, 3, 3) beyond the frame changes nothing. *)
Lemma exclusion_masking_witness :
  exists out,
    _capture_screen nearest_resize Samples.capturer_two_regions
                    (Some Samples.frame3x4) = Some out /\
    px out 2 3 = Some zero /\
    out = mask_regions [(2, 1, 5, 5)] Samples.frame3x4.
Proof.
  destruct (exclusion_masking nearest_resize Samples.capturer_two_regions
                              (Some Samples.frame3x4)) as [_ H].
  destruct (H Samples.frame3x4 eq_refl eq_refl) as (out & Hout & _ & _ & Hz & Hs & Hf).
  exists out. split; [exact Hout|]. split.
  - apply (Hz (2, 1, 5, 5) 2%nat 3%nat).
    + left; reflexivity.
    + reflexivity.
    + unfold covers; lia.
    + vm_compute; reflexivity.
    + vm_compute; reflexivity.
  - apply (Hs [(2, 1, 5, 5)] (10, 10, 3, 3) []).
    + reflexivity.
    + apply Hf. unfold fully_outside. vm_compute. intuition congruence.
Defined.

End MaskingFacts.

(** ** The frame queue between capture and processing *)
Module QueueFacts.
Import Numpy Cv2 Py Capture.

(** What holds between any two queue calls of the two threads: the queue
    is within its capacity, a producer about to insert has a free slot,
    and no call of the producer has stalled or met a full queue. *)
Definition within (cap : Z) (st : Queue image * push_pc) : Prop :=
  maxsize (fst st) = cap /\
  qsize (fst st) <= cap /\
  match snd st with
  | AtPut _ => qsize (fst st) < cap
  | Stalled | Skipped => False
  | _ => True
  end.

Lemma qsize_app (q : Queue image) f :
  qsize (mkQueue (maxsize q) (items q ++ [f])) = qsize q + 1.
Proof. unfold qsize; simpl. rewrite length_app; simpl. lia. Qed.

Lemma push_step_within cap st :
  0 < cap -> within cap st -> within cap (push_step st).
Proof.
  intros Hcap. destruct st as [q pc]. unfold within; simpl.
  intros (Hm & Hs & Hpc).
  destruct pc; simpl; auto.
  - (* AtFull *)
    unfold full. destruct (0 <? maxsize q) eqn:E0; simpl; [|lia].
    destruct (maxsize q <=? qsize q) eqn:E1; simpl; repeat split; auto; lia.
  - (* AtEvict *)
    unfold get_nowait. destruct q as [m its]; simpl in *.
    destruct its as [|a rest]; simpl; [repeat split; auto|].
    unfold qsize in *; simpl in *. repeat split; auto; lia.
  - (* AtPut *)
    unfold put, full.
    replace (maxsize q <=? qsize q) with false by lia.
    rewrite andb_false_r. simpl. rewrite qsize_app. repeat split; auto; lia.
Qed.

Lemma sys_step_within cap st e :
  0 < cap -> within cap st -> within cap (sys_step st e).
Proof.
  intros Hcap H. destruct e as [f| |]; simpl.
  - destruct (busy (snd st)) eqn:Eb; [exact H|].
    destruct st as [q pc]. unfold within in *; simpl in *. tauto.
  - now apply push_step_within.
  - destruct st as [[m its] pc]. unfold get_timeout; simpl.
    destruct its as [|a rest]; [exact H|].
    unfold within, qsize in *; simpl in *.
    destruct H as (Hm & Hs & Hpc). repeat split; auto; [lia|].
    destruct pc; auto; lia.
Qed.

Lemma sys_run_within cap es : forall st,
  0 < cap -> within cap st -> within cap (sys_run st es).
Proof.
  induction es as [|e es IH]; intros st Hcap H; simpl; [exact H|].
  apply IH; [exact Hcap|]. now apply sys_step_within.
Qed.

(** C2: with a positive [maxsize] (the configured capacity; the default is
    2) and whatever the interleaving of the producer's queue calls with the
    consumer's, the queue never holds more than [maxsize] frames, no call
    of the producer waits and none meets a full queue; a push on a full
    queue removes exactly the oldest entry and then appends the new frame,
    and a push on a queue with room just appends it. *)
Theorem frame_queue_drop_oldest :
  forall q0 : Queue image,
    0 < maxsize q0 -> qsize q0 <= maxsize q0 ->
    (forall es,
        let st := sys_run (q0, Idle) es in
        qsize (fst st) <= maxsize q0 /\
        maxsize (fst st) = maxsize q0 /\
        snd st <> Stalled /\ snd st <> Skipped) /\
    (forall frame,
        full q0 = true ->
        exists oldest rest,
          items q0 = oldest :: rest /\
          push q0 frame = (mkQueue (maxsize q0) (rest ++ [frame]), Pushed)) /\
    (forall frame,
        full q0 = false ->
        push q0 frame = (mkQueue (maxsize q0) (items q0 ++ [frame]), Pushed)).
Proof.
  intros q0 Hcap Hsize. split; [|split].
  - intros es st.
    assert (H : within (maxsize q0) st).
    { apply sys_run_within; [exact Hcap|]. unfold within; simpl. auto. }
    destruct H as (Hm & Hs & Hpc).
    repeat split; auto; intros E; rewrite E in Hpc; exact Hpc.
  - intros frame Hfull.
    assert (Hle : maxsize q0 <= qsize q0).
    { unfold full in Hfull. apply andb_true_iff in Hfull. lia. }
    destruct q0 as [m its]. unfold qsize in *. cbn [items maxsize] in *.
    destruct its as [|oldest rest]; [cbn [length] in Hle; lia|].
    exists oldest, rest. split; [reflexivity|].
    unfold push. cbn [push_step]. rewrite Hfull.
    cbn [push_step get_nowait items maxsize].
    assert (Hroom : full (mkQueue m rest) = false).
    { unfold full, qsize. cbn [items maxsize]. cbn [length] in Hsize.
      apply andb_false_iff. right. lia. }
    unfold put. rewrite Hroom. reflexivity.
  - intros frame Hfull.
    unfold push. cbn [push_step]. rewrite Hfull.
    cbn [push_step]. unfold put. rewrite Hfull. reflexivity.
Qed.

(** The statement at work on the default queue of capacity 2 holding two
    frames: pushing a third drops the older one, and a schedule in which
    the consumer takes a frame between the producer's fullness test and its
    eviction stays within the capacity. *)
Lemma frame_queue_drop_oldest_witness :
  push (mkQueue 2 [Samples.frame2x2; Samples.frame3x4]) [] =
    (mkQueue 2 [Samples.frame3x4; []], Pushed) /\
  qsize (fst (sys_run (mkQueue 2 [Samples.frame2x2; Samples.frame3x4], Idle)
                      [Produce []; Step; Consume; Step; Step])) <= 2.
Proof.
  destruct (frame_queue_drop_oldest
              (mkQueue 2 [Samples.frame2x2; Samples.frame3x4])) as (Hrun & Hfull & _).
  - reflexivity.
  - vm_compute. discriminate.
  - split.
    + destruct (Hfull [] eq_refl) as (oldest & rest & Hit & Hpush).
      injection Hit as <- <-. exact Hpush.
    + apply (Hrun [Produce []; Step; Consume; Step; Step]).
Defined.

End QueueFacts.

(** ** The capture thread: retries and back-off *)
Module ThreadFacts.
Import Numpy Cv2 Py Capture.

Section WithResize.
Variable resize : resize_fn.

(** The three queue calls of a push end in one of three ways. *)
Lemma push_ends q frame :
  snd (push q frame) = Pushed \/ snd (push q frame) = Skipped \/
  exists e, snd (push q frame) = Escaped e.
Proof.
  unfold push. cbn [push_step].
  destruct (full q) eqn:Ef; cbn [push_step].
  - unfold get_nowait. destruct (items q) as [|a rest].
    + right; right; eexists; reflexivity.
    + cbn [push_step]. clear Ef. unfold put. destruct (full _); cbn; eauto.
  - unfold put. rewrite Ef. cbn. auto.
Qed.

(** A grab that fails leaves the capturer alone and only counts. *)
Lemma failed_grab t shot :
  state t = Running -> stop_event (self_ t) = false ->
  _capture_screen resize (self_ t) shot = None ->
  thread_step resize t (Grab shot) =
  if retry_count t + 1 >? 5
  then mkThread (self_ t) 0 (effects t ++ [Sleep (1 # 10)]) Running
  else mkThread (self_ t) (retry_count t + 1) (effects t) Running.
Proof.
  intros Hs Hstop Hfail. unfold thread_step, iteration.
  now rewrite Hs, Hstop, Hfail.
Qed.

Lemma grab_none_fails self : _capture_screen resize self None = None.
Proof. reflexivity. Qed.

(** [n] failed grabs in a row, starting with a counter between 0 and 5. *)
Lemma failed_grabs n : forall t,
  state t = Running -> stop_event (self_ t) = false ->
  0 <= retry_count t <= 5 ->
  let t' := thread_run resize t (repeat (Grab None) n) in
  state t' = Running /\ self_ t' = self_ t /\
  retry_count t' = (retry_count t + Z.of_nat n) mod 6 /\
  effects t' =
    effects t ++ repeat (Sleep (1 # 10)) (Z.to_nat ((retry_count t + Z.of_nat n) / 6)).
Proof.
  induction n as [|n IH]; intros t Hs Hstop Hr.
  - cbn [repeat thread_run fold_left]. rewrite Z.add_0_r.
    rewrite Z.mod_small, Z.div_small by lia.
    cbn [Z.to_nat repeat]. rewrite app_nil_r. auto.
  - cbn [repeat thread_run fold_left].
    rewrite (failed_grab t None Hs Hstop (grab_none_fails _)).
    destruct (retry_count t + 1 >? 5) eqn:E.
    + assert (Er : retry_count t = 5) by lia.
      set (t1 := mkThread (self_ t) 0 (effects t ++ [Sleep (1 # 10)]) Running).
      destruct (IH t1 eq_refl Hstop) as (H1 & H2 & H3 & H4); [cbn; lia|].
      fold (thread_run resize t1 (repeat (Grab None) n)).
      cbn [retry_count effects self_ t1] in *.
      rewrite H1, H2, H3, H4, Er.
      replace (5 + Z.of_nat (S n)) with (0 + Z.of_nat n + 1 * 6) by lia.
      repeat split.
      * now rewrite Z.mod_add by lia.
      * rewrite Z.div_add by lia.
        rewrite Z2Nat.inj_add by (try apply Z.div_pos; lia).
        rewrite repeat_app. cbn [Z.to_nat Pos.to_nat Pos.iter_op Nat.add repeat].
        rewrite <- app_assoc. f_equal.
        change [Sleep (1 # 10)] with (repeat (Sleep (1 # 10)) 1).
        rewrite <- !repeat_app. f_equal. lia.
    + set (t1 := mkThread (self_ t) (retry_count t + 1) (effects t) Running).
      destruct (IH t1 eq_refl Hstop) as (H1 & H2 & H3 & H4); [cbn; lia|].
      fold (thread_run resize t1 (repeat (Grab None) n)).
      cbn [retry_count effects self_ t1] in *.
      rewrite H1, H2, H3, H4.
      replace (retry_count t + 1 + Z.of_nat n) with (retry_count t + Z.of_nat (S n))
        by lia.
      auto.
Qed.

(** The loop leaves [Running] only through the stop event. *)
Lemma thread_step_alive t e :
  state t = Running -> stop_event (self_ t) = false -> e <> SetStop ->
  state (thread_step resize t e) = Running /\
  stop_event (self_ (thread_step resize t e)) = false.
Proof.
  intros Hs Hstop He. unfold thread_step. rewrite Hs.
  destruct e as [|shot| |]; [| | |congruence].
  - now rewrite Hstop.
  - rewrite Hstop. unfold iteration.
    destruct (_capture_screen resize (self_ t) shot) as [frame|].
    + destruct (push_ends (frame_queue (set_frame_count (self_ t)
                                          (frame_count (self_ t) + 1))) frame)
        as [H|[H|[e H]]];
        destruct (push _ frame) as [q pc]; cbn [snd] in H; subst pc;
        cbn; auto.
    + destruct (retry_count t + 1 >? 5); cbn; auto.
  - destruct (get_timeout (frame_queue (self_ t))) as [[a q']|]; cbn; auto.
Qed.

Lemma thread_run_alive es : forall t,
  state t = Running -> stop_event (self_ t) = false -> ~ In SetStop es ->
  state (thread_run resize t es) = Running.
Proof.
  induction es as [|e es IH]; intros t Hs Hstop Hno; [exact Hs|].
  cbn [thread_run fold_left].
  destruct (thread_step_alive t e Hs Hstop) as [H1 H2].
  - intros ->. apply Hno. now left.
  - apply IH; auto. intros Hin. apply Hno. now right.
Qed.

(** A frame that was captured is pushed, and the push clears the counter,
    whenever the queue is within its capacity. *)
Lemma push_within q frame :
  qsize q <= maxsize q -> snd (push q frame) = Pushed.
Proof.
  intros Hle. unfold push. cbn [push_step].
  destruct (full q) eqn:Ef; cbn [push_step].
  - unfold get_nowait. unfold full in Ef. apply andb_true_iff in Ef.
    destruct Ef as [E1 E2]. apply Z.ltb_lt in E1. apply Z.leb_le in E2.
    destruct q as [m its]. unfold qsize in *. cbn [items maxsize] in *.
    destruct its as [|a rest]; [cbn [length] in *; lia|].
    cbn [push_step]. unfold put, full, qsize. cbn [items maxsize].
    rewrite length_cons in Hle.
    replace (m <=? Z.of_nat (length rest)) with false by lia.
    now rewrite andb_false_r.
  - unfold put. now rewrite Ef.
Qed.

End WithResize.

(** C7, as stated, fails: after five failed grabs in a row the counter
    stands at 5 and the thread has not slept; the test is
    [retry_count > 5]. *)
Lemma five_failures_no_back_off :
  retry_count (Samples.after_failures 5) = 5 /\
  retry_count (Samples.after_failures 5) <> 0 /\
  effects (Samples.after_failures 5) = [] /\
  ~ In (Sleep (1 # 10)) (effects (Samples.after_failures 5)).
Proof. vm_compute. repeat split; try discriminate. intros []. Qed.

(** C7, amended: a capture error leaves the thread running and its
    capturer untouched; it adds one to the counter as long as the result
    does not exceed 5, and the error that would take the counter past 5
    (the sixth in a row) sets it back to zero and sleeps 0.1 s.  Counting
    from zero, [n] errors in a row leave the counter at [n mod 6] after
    [n / 6] such sleeps.  A captured frame that is pushed clears the
    counter.  Whatever the events, the loop ends only once the stop event
    has been set. *)
Theorem capture_errors_back_off :
  forall resize,
    (forall t shot,
        state t = Running -> stop_event (self_ t) = false ->
        _capture_screen resize (self_ t) shot = None ->
        let t' := thread_step resize t (Grab shot) in
        state t' = Running /\ self_ t' = self_ t /\
        (retry_count t < 5 ->
         retry_count t' = retry_count t + 1 /\ effects t' = effects t) /\
        (retry_count t >= 5 ->
         retry_count t' = 0 /\ effects t' = effects t ++ [Sleep (1 # 10)])) /\
    (forall self n,
        stop_event self = false ->
        let t' := thread_run resize (thread_start self) (repeat (Grab None) n) in
        retry_count t' = Z.of_nat n mod 6 /\
        effects t' = repeat (Sleep (1 # 10)) (Z.to_nat (Z.of_nat n / 6))) /\
    (forall t shot frame,
        state t = Running -> stop_event (self_ t) = false ->
        _capture_screen resize (self_ t) shot = Some frame ->
        qsize (frame_queue (self_ t)) <= maxsize (frame_queue (self_ t)) ->
        retry_count (thread_step resize t (Grab shot)) = 0) /\
    (forall t es,
        state t = Running -> stop_event (self_ t) = false ->
        ~ In SetStop es ->
        state (thread_run resize t es) = Running).
Proof.
  intros resize. split; [|split; [|split]].
  - intros t shot Hs Hstop Hfail t'. subst t'.
    rewrite (failed_grab resize t shot Hs Hstop Hfail).
    destruct (retry_count t + 1 >? 5) eqn:E; cbn; repeat split; auto; intros; lia.
  - intros self n Hstop t'.
    destruct (failed_grabs resize n (thread_start self) eq_refl Hstop)
      as (_ & _ & H3 & H4); [cbn; lia|].
    split; [exact H3 | exact H4].
  - intros t shot frame Hs Hstop Hok Hq.
    unfold thread_step, iteration. rewrite Hs, Hstop, Hok.
    pose proof (push_within
                  (frame_queue (set_frame_count (self_ t) (frame_count (self_ t) + 1)))
                  frame Hq) as Hp.
    destruct (push _ frame) as [q pc]. cbn [snd] in Hp. subst pc. reflexivity.
  - intros t es. apply thread_run_alive.
Qed.

(** The statement at work: six failed grabs in a row on a fresh thread
    bring the counter back to zero after one sleep of 0.1 s, and the thread
    is still running after them. *)
Lemma capture_errors_back_off_witness :
  retry_count (Samples.after_failures 6) = 0 /\
  effects (Samples.after_failures 6) = [Sleep (1 # 10)] /\
  state (Samples.after_failures 6) = Running.
Proof.
  unfold Samples.after_failures.
  destruct (capture_errors_back_off nearest_resize) as (_ & Hn & _ & Halive).
  destruct (Hn (default_capturer 4 3) 6%nat eq_refl) as [H1 H2].
  split; [exact H1|]. split; [exact H2|].
  apply (Halive (thread_start (default_capturer 4 3)) (repeat (Grab None) 6)).
  - reflexivity.
  - reflexivity.
  - cbn. intuition discriminate.
Defined.

End ThreadFacts.

(** ** get_frame: the last retrieved frame and the direct capture *)
Module GetFrameFacts.
Import Numpy Cv2 Py Capture.

Section WithResize.
Variable resize : resize_fn.

(** A call that finds a frame in the queue returns it and remembers it. *)
Lemma get_frame_retrieves self fb frame rest :
  items (frame_queue self) = frame :: rest ->
  snd (get_frame resize self fb) = Ret (Some frame) /\
  prev_frame (fst (get_frame resize self fb)) = Some frame /\
  items (frame_queue (fst (get_frame resize self fb))) = rest.
Proof.
  intros H. unfold get_frame, get_timeout. rewrite H.
  destruct (pymod _ _); cbn; auto.
Qed.

(** A call that times out leaves the capturer as it was. *)
Lemma get_frame_timeout self fb :
  items (frame_queue self) = [] ->
  fst (get_frame resize self fb) = self /\
  snd (get_frame resize self fb) =
    match prev_frame self with
    | Some p => Ret (Some p)
    | None =>
        match fb with
        | Some shot => Ret (_capture_screen resize self shot)
        | None => Raise OSError
        end
    end.
Proof.
  intros H. unfold get_frame, get_timeout. rewrite H.
  destruct (prev_frame self); [auto|]. destruct fb; auto.
Qed.

(** With a remembered frame every call hands back a frame and still
    remembers one. *)
Lemma get_frame_remembering self fb p :
  prev_frame self = Some p ->
  (exists f, snd (get_frame resize self fb) = Ret (Some f)) /\
  (exists p', prev_frame (fst (get_frame resize self fb)) = Some p').
Proof.
  intros Hp. destruct (items (frame_queue self)) as [|frame rest] eqn:E.
  - destruct (get_frame_timeout self fb E) as [H1 H2].
    rewrite H1, H2, Hp. eauto.
  - destruct (get_frame_retrieves self fb frame rest E) as (H1 & H2 & _).
    rewrite H1, H2. eauto.
Qed.

(** The capture thread never touches [prev_frame]. *)
Lemma thread_step_prev t e :
  prev_frame (self_ (thread_step resize t e)) = prev_frame (self_ t).
Proof.
  unfold thread_step. destruct (state t); try reflexivity.
  destruct e as [|shot| |].
  - destruct (stop_event (self_ t)); reflexivity.
  - destruct (stop_event (self_ t)); [reflexivity|].
    unfold iteration.
    destruct (_capture_screen resize (self_ t) shot) as [frame|].
    + destruct (push _ frame) as [q pc]. destruct pc; reflexivity.
    + destruct (retry_count t + 1 >? 5); reflexivity.
  - destruct (get_timeout (frame_queue (self_ t))) as [[a q']|]; reflexivity.
  - reflexivity.
Qed.

Lemma run_thread t e acts :
  run resize t (Thread e :: acts) = run resize (thread_step resize t e) acts.
Proof. reflexivity. Qed.

Lemma run_get_frame t fb acts :
  run resize t (GetFrame fb :: acts) =
  let t' := mkThread (fst (get_frame resize (self_ t) fb))
                     (retry_count t) (effects t) (state t) in
  (fst (run resize t' acts),
   mkCall (nonempty (frame_queue (self_ t))) (snd (get_frame resize (self_ t) fb))
     :: snd (run resize t' acts)).
Proof.
  cbn [run]. destruct (get_frame resize (self_ t) fb) as [self' r]. cbn [fst snd].
  now destruct (run resize _ acts).
Qed.

(** Once a frame is remembered, every later call hands back a frame. *)
Lemma run_remembering acts : forall t p,
  prev_frame (self_ t) = Some p ->
  Forall (fun c => exists f, returned c = Ret (Some f)) (snd (run resize t acts)).
Proof.
  induction acts as [|a acts IH]; intros t p Hp; [constructor|].
  destruct a as [e|fb].
  - rewrite run_thread. apply IH with (p := p). now rewrite thread_step_prev.
  - rewrite run_get_frame. cbn [snd].
    destruct (get_frame_remembering (self_ t) fb p Hp) as [[f Hf] [p' Hp']].
    constructor; [exists f; exact Hf|].
    now apply IH with (p := p').
Qed.

Lemma run_after_retrieval acts : forall t i j c1 c2,
  nth_error (snd (run resize t acts)) i = Some c1 ->
  from_queue c1 = true ->
  (i <= j)%nat ->
  nth_error (snd (run resize t acts)) j = Some c2 ->
  exists f, returned c2 = Ret (Some f).
Proof.
  induction acts as [|a acts IH]; intros t i j c1 c2 H1 Hq Hij H2.
  - destruct i; discriminate.
  - destruct a as [e|fb].
    + rewrite run_thread in H1, H2.
      exact (IH _ i j c1 c2 H1 Hq Hij H2).
    + rewrite run_get_frame in H1, H2. cbn [snd] in H1, H2.
      destruct i as [|i].
      * cbn [nth_error] in H1. injection H1 as <-. cbn [from_queue] in Hq.
        unfold nonempty in Hq.
        destruct (items (frame_queue (self_ t))) as [|frame rest] eqn:E;
          [discriminate|].
        destruct (get_frame_retrieves (self_ t) fb frame rest E) as (R1 & R2 & _).
        destruct j as [|j].
        -- cbn [nth_error] in H2. injection H2 as <-. cbn [returned]. eauto.
        -- cbn [nth_error] in H2.
           pose proof (run_remembering acts
                         (mkThread (fst (get_frame resize (self_ t) fb))
                                   (retry_count t) (effects t) (state t))
                         frame R2) as HF.
           rewrite Forall_forall in HF. apply HF. eapply nth_error_In; eauto.
      * destruct j as [|j]; [lia|]. cbn [nth_error] in H1, H2.
        apply (IH _ i j c1 c2 H1 Hq); [lia | exact H2].
Qed.

End WithResize.

(** C3: a call of [get_frame] that times out on the queue changes nothing
    and returns the remembered frame when there is one; without one it
    returns what a direct capture yields.  The remembered frame is the last
    one taken from the queue: a call that finds a frame returns and
    remembers it, and neither a timed-out call nor the capture thread
    changes it.  In every run of the capture thread and the caller, once
    some call has taken a frame from the queue, that call and every later
    one return a frame, never [None] and never an exception. *)
Theorem get_frame_reuses_last_frame :
  forall resize,
    (forall self fb,
        items (frame_queue self) = [] ->
        fst (get_frame resize self fb) = self /\
        (forall p, prev_frame self = Some p ->
                   snd (get_frame resize self fb) = Ret (Some p)) /\
        (forall shot, prev_frame self = None -> fb = Some shot ->
                      snd (get_frame resize self fb) =
                        Ret (_capture_screen resize self shot))) /\
    (forall self fb frame rest,
        items (frame_queue self) = frame :: rest ->
        snd (get_frame resize self fb) = Ret (Some frame) /\
        prev_frame (fst (get_frame resize self fb)) = Some frame) /\
    (forall t e,
        prev_frame (self_ (thread_step resize t e)) = prev_frame (self_ t)) /\
    (forall t acts i j c1 c2,
        nth_error (snd (run resize t acts)) i = Some c1 ->
        from_queue c1 = true ->
        (i <= j)%nat ->
        nth_error (snd (run resize t acts)) j = Some c2 ->
        exists f, returned c2 = Ret (Some f)).
Proof.
  intros resize. split; [|split; [|split]].
  - intros self fb H. destruct (get_frame_timeout resize self fb H) as [H1 H2].
    split; [exact H1|]. split.
    + intros p Hp. now rewrite H2, Hp.
    + intros shot Hp ->. now rewrite H2, Hp.
  - intros self fb frame rest H.
    destruct (get_frame_retrieves resize self fb frame rest H) as (H1 & H2 & _).
    auto.
  - apply thread_step_prev.
  - intros t acts. apply run_after_retrieval.
Qed.

(** The statement at work on [Samples.get_frame_trace]: the second call
    takes the frame from the queue, so the third call, which times out
    while the grab fails, still returns a frame. *)
Lemma get_frame_reuses_last_frame_witness :
  exists c f,
    nth_error (snd (run nearest_resize (thread_start (default_capturer 2 2))
                        Samples.get_frame_trace)) 2 = Some c /\
    returned c = Ret (Some f).
Proof.
  destruct (get_frame_reuses_last_frame nearest_resize) as (_ & _ & _ & H).
  eexists.
  destruct (H (thread_start (default_capturer 2 2)) Samples.get_frame_trace
              1%nat 2%nat _ _ eq_refl eq_refl (le_S _ _ (le_n _)) eq_refl)
    as [f Hf].
  exists f. split; [reflexivity | exact Hf].
Defined.

(** A frame obtained by the direct capture is handed back but not
    remembered: the next call that times out captures again, and returns
    [None] when that capture fails. *)
Lemma direct_capture_not_remembered :
  let self := default_capturer 2 2 in
  get_frame nearest_resize self (Some (Some Samples.frame2x2)) =
    (self, Ret (Some Samples.frame2x2)) /\
  get_frame nearest_resize self (Some None) = (self, Ret None).
Proof. split; reflexivity. Qed.

End GetFrameFacts.

(** ** The mosaic: shape, composition and totality *)
Module MosaicFacts.
Import Numpy Cv2 Py Mosaic NumpyFacts.

Lemma shape_nonneg img : 0 <= shape0 img /\ 0 <= shape1 img.
Proof. unfold shape0, shape1. destruct img; lia. Qed.

Lemma size_pos img : 0 < size img <-> 0 < shape0 img /\ 0 < shape1 img.
Proof. unfold size. pose proof (shape_nonneg img). nia. Qed.

Lemma size_zero img : (size img =? 0) = false <-> 0 < size img.
Proof.
  unfold size. pose proof (shape_nonneg img). rewrite Z.eqb_neq. nia.
Qed.

(** The reference resampler honours the contract of [cv2.resize]. *)
Lemma nearest_resize_contract : resize_contract nearest_resize.
Proof.
  intros src w h i H0 H1 Hw Hh. unfold nearest_resize.
  replace (0 <? shape0 src) with true by lia.
  replace (0 <? shape1 src) with true by lia.
  replace (0 <? w) with true by lia.
  replace (0 <? h) with true by lia.
  cbn [andb]. eexists. split; [reflexivity|].
  assert (Hrow : forall r,
             length (map (fun c : nat =>
                            nth (Z.to_nat (Z.of_nat c * shape1 src / w))
                                (nth (Z.to_nat (Z.of_nat r * shape0 src / h)) src [])
                                zero) (seq 0 (Z.to_nat w))) = Z.to_nat w).
  { intros r. now rewrite length_map, length_seq. }
  assert (E1 : shape1 (sample src w h) = w).
  { unfold sample, shape1.
    destruct (Z.to_nat h) as [|n] eqn:En; [lia|].
    cbn [seq map]. rewrite Hrow. lia. }
  split; [|split; [exact E1|]].
  - unfold shape0, sample. rewrite length_map, length_seq. lia.
  - apply rect_spec. rewrite E1. unfold sample.
    apply Forall_forall. intros row Hin.
    apply in_map_iff in Hin. destruct Hin as (r & <- & _).
    rewrite Hrow. lia.
Qed.

Section WithResize.
Variable resize : resize_fn.

(** The [try] body succeeds exactly when the strength is not zero and
    both resizes go through, the first to the reduced size with linear
    interpolation, the second back to (w, h) with nearest neighbour. *)
Lemma mosaic_body_ret img s out :
  mosaic_body resize img s = Ret out <->
  s <> 0 /\
  exists small,
    resize img (Z.max 1 (shape1 img / s), Z.max 1 (shape0 img / s)) INTER_LINEAR
      = Some small /\
    resize small (shape1 img, shape0 img) INTER_NEAREST = Some out.
Proof.
  unfold mosaic_body, floordiv, cv2_resize.
  destruct (s =? 0) eqn:Es; cbn [bind].
  - split; [discriminate|]. intros [H _]. lia.
  - destruct (resize img (Z.max 1 (shape1 img / s), Z.max 1 (shape0 img / s))
                     INTER_LINEAR) as [small|] eqn:E1; cbn [bind].
    + destruct (resize small (shape1 img, shape0 img) INTER_NEAREST) as [m|] eqn:E2;
        cbn [bind].
      * split.
        -- intros H. injection H as <-. split; [lia|]. exists small. auto.
        -- intros (_ & small' & H1 & H2). injection H1 as <-. congruence.
      * split; [discriminate|].
        intros (_ & small' & H1 & H2). injection H1 as <-. congruence.
    + split; [discriminate|]. intros (_ & small' & H1 & _). discriminate.
Qed.

Lemma mosaic_body_zero img : mosaic_body resize img 0 = Raise ZeroDivisionError.
Proof. reflexivity. Qed.

(** [apply_mosaic] hands back the mosaic when the body succeeds and its
    argument otherwise. *)
Lemma apply_mosaic_cases self img arg :
  (size img = 0 /\ apply_mosaic resize self img arg = Ret img) \/
  (0 < size img /\
   exists e, mosaic_body resize img (strength_of self arg) = Raise e /\
             apply_mosaic resize self img arg = Ret img) \/
  (0 < size img /\
   exists out, mosaic_body resize img (strength_of self arg) = Ret out /\
               apply_mosaic resize self img arg = Ret out).
Proof.
  unfold apply_mosaic. destruct (size img =? 0) eqn:E.
  - left. split; [lia | reflexivity].
  - right. apply size_zero in E.
    destruct (mosaic_body resize img (strength_of self arg)) as [out|e]; eauto.
Qed.

Hypothesis contract : resize_contract resize.

Lemma mosaic_body_contract img s :
  0 < size img -> s <> 0 ->
  exists out,
    mosaic_body resize img s = Ret out /\
    shape0 out = shape0 img /\ shape1 out = shape1 img /\ rect out = true.
Proof.
  intros Hsz Hs. apply size_pos in Hsz. destruct Hsz as [H0 H1].
  destruct (contract img (Z.max 1 (shape1 img / s)) (Z.max 1 (shape0 img / s))
                     INTER_LINEAR) as (small & E1 & S0 & S1 & _); try lia.
  destruct (contract small (shape1 img) (shape0 img) INTER_NEAREST)
    as (out & E2 & T0 & T1 & Tr); try lia.
  exists out. split; [|auto].
  apply mosaic_body_ret. split; [exact Hs|]. eauto.
Qed.

(** Whatever the strength, the result has the shape of the argument. *)
Lemma apply_mosaic_shape self img arg :
  rect img = true ->
  exists out,
    apply_mosaic resize self img arg = Ret out /\
    shape0 out = shape0 img /\ shape1 out = shape1 img /\ rect out = true.
Proof.
  intros Hrect.
  destruct (apply_mosaic_cases self img arg)
    as [[_ H]|[(_ & e & _ & H)|(Hsz & out & Hb & H)]].
  - exists img. auto.
  - exists img. auto.
  - exists out. split; [exact H|].
    assert (Hs : strength_of self arg <> 0) by (apply mosaic_body_ret in Hb; tauto).
    destruct (mosaic_body_contract img (strength_of self arg) Hsz Hs)
      as (out' & Hb' & Hshape).
    assert (out' = out) by congruence. subst out'. exact Hshape.
Qed.

(** One detection: the frame being built keeps its shape, and only the
    pixels of a target's box can change. *)
Lemma mosaic_detection_confined self arg processed d :
  rect processed = true -> box_nonneg d ->
  exists out,
    mosaic_detection resize self arg processed d = Ret out /\
    shape0 out = shape0 processed /\ shape1 out = shape1 processed /\
    rect out = true /\
    forall r c,
      ~ (is_target self d = true /\ in_box d r c) ->
      px out r c = px processed r c.
Proof.
  intros Hrect Hbox. unfold mosaic_detection, box_nonneg, in_box in *.
  destruct (is_target self d); [|exists processed; auto].
  destruct (bbox d) as [[[x1 y1] x2] y2].
  destruct Hbox as (Hx1 & Hy1 & Hx2 & Hy2).
  destruct (size (getitem processed (y1, y2) (x1, x2)) >? 0);
    [|exists processed; auto].
  destruct (apply_mosaic_shape self (getitem processed (y1, y2) (x1, x2)) arg
              (rect_getitem processed (y1, y2) (x1, x2) Hrect))
    as (m & Hm & S0 & S1 & Rm).
  rewrite Hm. cbn [bind].
  destruct (setitem_some processed (y1, y2) (x1, x2) m S0 S1 Rm) as [out Hout].
  rewrite Hout. exists out. split; [reflexivity|].
  destruct (setitem_facts processed (y1, y2) (x1, x2) m out Hout)
    as (T0 & T1 & Tr & Tpx).
  repeat split; auto.
  intros r c Hno. apply Tpx.
  destruct (in_span (indices (shape0 processed) (y1, y2)) r) eqn:Er;
    [|reflexivity].
  destruct (in_span (indices (shape1 processed) (x1, x2)) c) eqn:Ec;
    [|reflexivity].
  exfalso. apply Hno. split; [reflexivity|].
  pose proof (shape_nonneg processed) as [N0 N1].
  apply in_span_plain in Er; try lia. apply in_span_plain in Ec; try lia.
Qed.

Lemma mosaic_detections_confined self arg ds : forall processed,
  rect processed = true ->
  (forall d, In d ds -> box_nonneg d) ->
  exists out,
    mosaic_detections resize self arg processed ds = Ret out /\
    shape0 out = shape0 processed /\ shape1 out = shape1 processed /\
    rect out = true /\
    forall r c,
      (forall d, In d ds -> is_target self d = true -> ~ in_box d r c) ->
      px out r c = px processed r c.
Proof.
  induction ds as [|d ds IH]; intros processed Hrect Hbox.
  - exists processed. cbn. auto.
  - destruct (mosaic_detection_confined self arg processed d Hrect)
      as (p1 & H1 & S0 & S1 & R1 & P1); [apply Hbox; now left|].
    destruct (IH p1 R1) as (out & H2 & T0 & T1 & R2 & P2);
      [intros d' Hd'; apply Hbox; now right|].
    exists out. cbn [mosaic_detections]. rewrite H1. cbn [bind].
    split; [exact H2|]. repeat split; try congruence.
    intros r c Hno. rewrite P2, P1; auto.
    + intros [Ht Hin]. apply (Hno d); auto. now left.
    + intros d' Hd' Ht. apply Hno; auto. now right.
Qed.

(** The boxes [detect_objects] lets through have x2 > x1 and y2 > y1. *)
Lemma detected_box_nonneg self boxes d :
  (forall l d', boxes = Some l -> In d' l -> frame_coordinates d') ->
  In d (detect_objects self boxes) -> box_nonneg d.
Proof.
  intros Hc Hin. unfold detect_objects in Hin.
  destruct (model_loaded self); [|destruct Hin].
  destruct boxes as [l|]; [|destruct Hin].
  apply filter_In in Hin. destruct Hin as [Hin Hv].
  specialize (Hc l d eq_refl Hin).
  unfold frame_coordinates, valid_box, box_nonneg in *.
  destruct (bbox d) as [[[x1 y1] x2] y2].
  rewrite !andb_true_iff in Hv. lia.
Qed.

(** *** What is written inside the slice of a box *)

Lemma size_nonneg img : 0 <= size img.
Proof. unfold size. pose proof (shape_nonneg img). nia. Qed.

Lemma in_slice_shape a b d r c :
  shape0 a = shape0 b -> shape1 a = shape1 b ->
  in_slice a d r c = in_slice b d r c.
Proof.
  intros S0 S1. unfold in_slice. destruct (bbox d) as [[[x1 y1] x2] y2].
  now rewrite S0, S1.
Qed.

(** A box with corners that are not negative selects pixels of the box
    only. *)
Lemma in_slice_in_box img d r c :
  box_nonneg d -> in_slice img d r c = true -> in_box d r c.
Proof.
  unfold box_nonneg, in_slice, in_box. destruct (bbox d) as [[[x1 y1] x2] y2].
  intros (Hx1 & Hy1 & Hx2 & Hy2) H. apply andb_true_iff in H as [Hr Hc].
  pose proof (shape_nonneg img) as [N0 N1].
  apply in_span_plain in Hr; try lia. apply in_span_plain in Hc; try lia.
Qed.

Lemma box_region_ext a b d :
  shape0 a = shape0 b -> shape1 a = shape1 b ->
  (forall r c, in_slice a d r c = true -> px a r c = px b r c) ->
  box_region a d = box_region b d.
Proof.
  unfold box_region, in_slice. destruct (bbox d) as [[[x1 y1] x2] y2].
  intros S0 S1 H. apply getitem_ext; auto.
  intros r c Hr Hc. apply H. now rewrite Hr, Hc.
Qed.

(** One detection: besides keeping the shape and the pixels outside the
    slice, the step leaves under the box of a target the mosaic of what was
    there. *)
Lemma mosaic_detection_slice self arg processed d :
  rect processed = true ->
  exists out,
    mosaic_detection resize self arg processed d = Ret out /\
    shape0 out = shape0 processed /\ shape1 out = shape1 processed /\
    rect out = true /\
    (forall r c,
        is_target self d && in_slice processed d r c = false ->
        px out r c = px processed r c) /\
    (is_target self d = true ->
     exists m,
       apply_mosaic resize self (box_region processed d) arg = Ret m /\
       box_region out d = m).
Proof.
  intros Hrect. unfold mosaic_detection, in_slice, box_region.
  destruct (is_target self d).
  2:{ exists processed. repeat split; auto. discriminate. }
  destruct (bbox d) as [[[x1 y1] x2] y2].
  destruct (size (getitem processed (y1, y2) (x1, x2)) >? 0) eqn:Esz.
  2:{ exists processed. repeat split; auto. intros _.
      exists (getitem processed (y1, y2) (x1, x2)). split; [|reflexivity].
      unfold apply_mosaic.
      pose proof (size_nonneg (getitem processed (y1, y2) (x1, x2))).
      replace (size (getitem processed (y1, y2) (x1, x2)) =? 0) with true by lia.
      reflexivity. }
  destruct (apply_mosaic_shape self (getitem processed (y1, y2) (x1, x2)) arg
              (rect_getitem processed (y1, y2) (x1, x2) Hrect))
    as (m & Hm & S0 & S1 & Rm).
  rewrite Hm. cbn [bind].
  destruct (setitem_some processed (y1, y2) (x1, x2) m S0 S1 Rm) as [out Hout].
  rewrite Hout. exists out. split; [reflexivity|].
  destruct (setitem_facts processed (y1, y2) (x1, x2) m out Hout)
    as (T0 & T1 & Tr & Tpx).
  split; [exact T0|]. split; [exact T1|]. split; [auto|]. split.
  - intros r c H. apply Tpx. exact H.
  - intros _. exists m. split; [reflexivity|].
    now apply (getitem_setitem processed (y1, y2) (x1, x2) m out).
Qed.

Lemma mosaic_detections_slice self arg ds : forall processed,
  rect processed = true ->
  exists out,
    mosaic_detections resize self arg processed ds = Ret out /\
    shape0 out = shape0 processed /\ shape1 out = shape1 processed /\
    rect out = true /\
    forall r c,
      (forall d, In d ds -> is_target self d = true ->
                 in_slice processed d r c = false) ->
      px out r c = px processed r c.
Proof.
  induction ds as [|d ds IH]; intros processed Hrect.
  - exists processed. cbn. auto.
  - destruct (mosaic_detection_slice self arg processed d Hrect)
      as (p1 & H1 & S0 & S1 & R1 & P1 & _).
    destruct (IH p1 R1) as (out & H2 & T0 & T1 & R2 & P2).
    exists out. cbn [mosaic_detections]. rewrite H1. cbn [bind].
    split; [exact H2|]. repeat split; try congruence.
    intros r c Hno. rewrite P2, P1; auto.
    + destruct (is_target self d) eqn:Et; [|reflexivity]. cbn [andb].
      apply Hno; [now left | exact Et].
    + intros d' Hd' Ht. rewrite (in_slice_shape p1 processed d' r c S0 S1).
      apply Hno; [now right | exact Ht].
Qed.

Lemma mosaic_detections_app self arg a b img :
  mosaic_detections resize self arg img (a ++ b) =
  (x <- mosaic_detections resize self arg img a ;;
   mosaic_detections resize self arg x b).
Proof.
  revert img. induction a as [|d a IH]; intros img; [reflexivity|].
  cbn [app mosaic_detections].
  destruct (mosaic_detection resize self arg img d) as [p1|e]; cbn [bind];
    [apply IH | reflexivity].
Qed.

(** A target whose slice meets the slice of no other target in the list:
    whatever comes before and after it, the frame ends with the mosaic of
    the original content under its box. *)
Lemma mosaic_detections_isolated self arg before d after frame :
  rect frame = true ->
  is_target self d = true ->
  (forall d', In d' (before ++ after) -> is_target self d' = true ->
              forall r c, in_slice frame d r c = true ->
                          in_slice frame d' r c = false) ->
  exists out m,
    mosaic_detections resize self arg frame (before ++ d :: after) = Ret out /\
    apply_mosaic resize self (box_region frame d) arg = Ret m /\
    box_region out d = m.
Proof.
  intros Hrect Ht Hiso.
  destruct (mosaic_detections_slice self arg before frame Hrect)
    as (p1 & H1 & S0 & S1 & R1 & P1).
  destruct (mosaic_detection_slice self arg p1 d R1)
    as (p2 & H2 & T0 & T1 & R2 & _ & Hm).
  destruct (Hm Ht) as (m & Ha & Hb).
  destruct (mosaic_detections_slice self arg after p2 R2)
    as (out & H3 & U0 & U1 & R3 & P3).
  exists out, m. split; [|split].
  - rewrite mosaic_detections_app, H1. cbn [bind mosaic_detections].
    rewrite H2. cbn [bind]. exact H3.
  - rewrite <- Ha. f_equal. symmetry. apply box_region_ext; auto.
    intros r c Hin. apply P1. intros d' Hd' Ht'.
    apply Hiso; auto.
    + apply in_or_app. now left.
    + now rewrite <- (in_slice_shape p1 frame d r c S0 S1).
  - rewrite <- Hb. apply box_region_ext; try congruence.
    intros r c Hin. apply P3. intros d' Hd' Ht'.
    rewrite (in_slice_shape p2 frame d' r c) by congruence.
    apply Hiso; auto.
    + apply in_or_app. now right.
    + rewrite <- (in_slice_shape out frame d r c) by congruence. exact Hin.
Qed.

End WithResize.

(** C4: on a non-empty image of shape (h, w) [apply_mosaic] returns an
    image of the same shape for every strength; when the strength is not
    zero (where [dim // strength] is defined) the result is the image
    resized to (max(1, w // s), max(1, h // s)) with linear interpolation
    and then resized back to (w, h) with nearest neighbour.  A zero-area
    image is returned as it is.  [cv2.resize] is any function that honours
    its contract. *)
Theorem apply_mosaic_pixelates :
  forall resize, resize_contract resize ->
  forall self img arg,
    (0 < size img ->
     exists out,
       apply_mosaic resize self img arg = Ret out /\
       shape0 out = shape0 img /\ shape1 out = shape1 img /\
       (strength_of self arg <> 0 ->
        exists small,
          resize img (Z.max 1 (shape1 img / strength_of self arg),
                      Z.max 1 (shape0 img / strength_of self arg)) INTER_LINEAR
            = Some small /\
          resize small (shape1 img, shape0 img) INTER_NEAREST = Some out)) /\
    (size img = 0 -> apply_mosaic resize self img arg = Ret img).
Proof.
  intros resize contract self img arg. split.
  - intros Hsz.
    destruct (apply_mosaic_cases resize self img arg)
      as [[Hz _]|[(_ & e & Hb & H)|(_ & out & Hb & H)]]; [lia| |].
    + exists img. repeat split; auto. intros Hs.
      destruct (mosaic_body_contract resize contract img _ Hsz Hs) as (out & Hb' & _).
      congruence.
    + exists out. split; [exact H|].
      pose proof (proj1 (mosaic_body_ret resize img _ out) Hb) as [Hs Hsmall].
      destruct (mosaic_body_contract resize contract img _ Hsz Hs)
        as (out' & Hb' & S0 & S1 & _).
      assert (out' = out) by congruence. subst out'. auto.
  - intros Hz.
    destruct (apply_mosaic_cases resize self img arg)
      as [[_ H]|[(Hp & _)|(Hp & _)]]; [exact H | lia | lia].
Qed.

(** The statement at work: a 3 x 4 frame pixelated with strength 2 keeps
    its shape. *)
Lemma apply_mosaic_pixelates_witness :
  exists out,
    apply_mosaic nearest_resize Samples.processor Samples.frame3x4 (Some 2) = Ret out /\
    shape0 out = 3 /\ shape1 out = 4.
Proof.
  destruct (apply_mosaic_pixelates nearest_resize nearest_resize_contract
              Samples.processor Samples.frame3x4 (Some 2)) as [H _].
  destruct (H eq_refl) as (out & Hout & S0 & S1 & _).
  exists out. split; [exact Hout|]. split; [exact S0 | exact S1].
Defined.

(** C10: [apply_mosaic] returns for every image, every strength and every
    behaviour of [cv2.resize]; whenever a step of its body raises, the
    value returned is the image it was given, and a strength of zero is
    such a case. *)
Theorem apply_mosaic_never_raises :
  forall resize self img arg,
    (exists out, apply_mosaic resize self img arg = Ret out) /\
    (forall e,
        mosaic_body resize img (strength_of self arg) = Raise e ->
        apply_mosaic resize self img arg = Ret img) /\
    mosaic_body resize img 0 = Raise ZeroDivisionError /\
    apply_mosaic resize self img (Some 0) = Ret img.
Proof.
  intros resize self img arg. split; [|split; [|split]].
  - destruct (apply_mosaic_cases resize self img arg)
      as [[_ H]|[(_ & e & _ & H)|(_ & out & _ & H)]]; eauto.
  - intros e He.
    destruct (apply_mosaic_cases resize self img arg)
      as [[_ H]|[(_ & e' & _ & H)|(_ & out & Hb & H)]]; auto. congruence.
  - reflexivity.
  - unfold apply_mosaic. destruct (size img =? 0); reflexivity.
Qed.

(** The statement at work: when [cv2.resize] raises, the frame comes back
    as it was. *)
Lemma apply_mosaic_never_raises_witness :
  apply_mosaic failing_resize Samples.processor Samples.frame3x4 (Some 15)
  = Ret Samples.frame3x4.
Proof.
  destruct (apply_mosaic_never_raises failing_resize Samples.processor
              Samples.frame3x4 (Some 15)) as (_ & H & _).
  apply (H Cv2Error). reflexivity.
Defined.

End MosaicFacts.

(** ** The processing loop: what reaches the overlay *)
Module PipelineFacts.
Import Numpy Cv2 Py Mosaic App NumpyFacts MosaicFacts.

Lemma stats_eq a b c a' b' c' :
  a = a' -> b = b' -> c = c' -> mkStats a b c = mkStats a' b' c'.
Proof. now intros -> -> ->. Qed.

(** The loop of the processing thread builds the frame that
    [mosaic_detections] builds; on the way it counts every detection, every
    target, and adds notices to the log. *)
Lemma mosaic_loop_ret resize p s fc ds : forall img c lg out,
  mosaic_detections resize p (Some s) img ds = Ret out ->
  exists notes,
    mosaic_loop resize p s fc img c lg ds =
      (out,
       mkStats (frames_processed c)
               (objects_detected c + Z.of_nat (length ds))
               (mosaic_applied c + Z.of_nat (length (filter (is_target p) ds))),
       lg ++ notes, None) /\
    forallb mosaic_notice notes = true.
Proof.
  induction ds as [|d ds IH]; intros img c lg out H.
  - cbn in H. injection H as <-. exists []. split; [|reflexivity].
    cbn. rewrite app_nil_r, !Z.add_0_r. now destruct c.
  - cbn [mosaic_detections] in H. unfold mosaic_detection in H.
    cbn [mosaic_loop filter]. destruct (is_target p d) eqn:Et.
    + destruct (bbox d) as [[[x1 y1] x2] y2].
      destruct (size (getitem img (y1, y2) (x1, x2)) >? 0).
      * destruct (apply_mosaic resize p (getitem img (y1, y2) (x1, x2)) (Some s))
          as [m|e]; cbn [bind] in H; [|discriminate].
        destruct (setitem img (y1, y2) (x1, x2) m) as [img'|]; cbn [bind] in H;
          [|discriminate].
        destruct (fc mod 30 =? 0).
        -- match goal with
           | |- context [mosaic_loop _ _ _ _ ?i ?c' ?l ds] =>
               destruct (IH i c' l out H) as (notes & E & Hn); rewrite E
           end.
           exists (MsgMosaic (class_name d) :: notes).
           split; [|exact Hn]. rewrite <- app_assoc. cbn [app].
           f_equal. f_equal. f_equal.
           apply stats_eq; cbn [frames_processed objects_detected mosaic_applied length];
             lia.
        -- match goal with
           | |- context [mosaic_loop _ _ _ _ ?i ?c' ?l ds] =>
               destruct (IH i c' l out H) as (notes & E & Hn); rewrite E
           end.
           exists notes. split; [|exact Hn].
           f_equal. f_equal. f_equal.
           apply stats_eq; cbn [frames_processed objects_detected mosaic_applied length];
             lia.
      * cbn [bind] in H.
        match goal with
        | |- context [mosaic_loop _ _ _ _ ?i ?c' ?l ds] =>
            destruct (IH i c' l out H) as (notes & E & Hn); rewrite E
        end.
        exists notes. split; [|exact Hn].
        f_equal. f_equal. f_equal.
        apply stats_eq; cbn [frames_processed objects_detected mosaic_applied length];
          lia.
    + cbn [bind] in H.
      match goal with
      | |- context [mosaic_loop _ _ _ _ ?i ?c' ?l ds] =>
          destruct (IH i c' l out H) as (notes & E & Hn); rewrite E
      end.
      exists notes. split; [|exact Hn].
      f_equal. f_equal. f_equal.
      apply stats_eq; cbn [frames_processed objects_detected mosaic_applied length];
        lia.
Qed.

(** A turn whose mosaics go through returns, with the frame built handed
    to the overlay and the counters brought up to date. *)
Lemma process_frame_ret resize app frame boxes out :
  mosaic_detections resize (processor app) (Some (strength_var app))
                    (copy frame) (detect_objects (processor app) boxes) = Ret out ->
  exists notes,
    process_frame resize app frame boxes =
      Ret (mkApp (is_running app) (process_thread app)
                 (Overlay.update_frame (overlay app) out)
                 (processor app) (strength_var app)
                 (count (processor app) (detect_objects (processor app) boxes)
                        (counters app))
                 (start_button app) (stop_button app) (log app ++ notes)) /\
    forallb mosaic_notice notes = true.
Proof.
  intros H. unfold process_frame, run_turn.
  destruct (mosaic_loop_ret resize (processor app) (strength_var app)
              (frames_processed (counters app) + 1)
              (detect_objects (processor app) boxes) (copy frame)
              (mkStats (frames_processed (counters app) + 1)
                       (objects_detected (counters app))
                       (mosaic_applied (counters app)))
              (log app) out H) as (notes & E & Hn).
  rewrite E. exists notes. split; [reflexivity | exact Hn].
Qed.

Lemma in_middle {A} (x : A) (before after : list A) y :
  In y (before ++ after) -> In y (before ++ x :: after).
Proof.
  intros H. apply in_app_or in H as [H|H]; apply in_or_app;
    [now left | right; now right].
Qed.

(** The frame [mosaic_detections] builds from boxes in frame coordinates
    is pixelated in the boxes of the targets and nowhere else. *)
Lemma mosaic_detections_pixelated resize (contract : resize_contract resize)
      self s ds frame :
  rect frame = true ->
  (forall d, In d ds -> box_nonneg d) ->
  exists out,
    mosaic_detections resize self (Some s) frame ds = Ret out /\
    pixelated_in_boxes resize self s ds frame out.
Proof.
  intros Hrect Hbox.
  destruct (mosaic_detections_confined resize contract self (Some s) ds frame
              Hrect Hbox) as (out & Hout & S0 & S1 & _ & Hpx).
  exists out. split; [exact Hout|].
  split; [exact S0|]. split; [exact S1|]. split; [exact Hpx|].
  intros before d after E Ht Hiso.
  assert (Hd : box_nonneg d) by (apply Hbox; rewrite E; apply in_elt).
  destruct (mosaic_detections_isolated resize contract self (Some s)
              before d after frame Hrect Ht) as (out' & m & Hout' & Ha & Hb).
  { intros d' Hd' Ht' r c Hin.
    destruct (in_slice frame d' r c) eqn:E'; [|reflexivity].
    exfalso. apply (Hiso d' Hd' Ht' r c).
    - now apply (in_slice_in_box frame).
    - apply (in_slice_in_box frame); [|exact E'].
      apply Hbox. rewrite E. now apply in_middle. }
  rewrite <- E in Hout'. assert (out' = out) by congruence. subst out'.
  exists m. split; [exact Ha|]. split; [exact Hb|].
  intros Hs Hsz.
  destruct (mosaic_body_contract resize contract (box_region frame d) s Hsz Hs)
    as (m' & Hm' & _).
  unfold apply_mosaic in Ha. cbn [strength_of] in Ha.
  replace (size (box_region frame d) =? 0) with false in Ha by lia.
  rewrite Hm' in Ha. injection Ha as ->.
  apply (mosaic_body_ret resize (box_region frame d) s m) in Hm'
    as (_ & small & H1 & H2).
  exists small. split; assumption.
Qed.

(** C5, as amended: for a rectangular frame and boxes given in frame
    coordinates (corner x1, y1 not negative), one turn of the processing
    loop hands the overlay a frame of the same shape that equals the input
    frame at every pixel lying outside the boxes of all detections whose
    class is a target, and that is pixelated inside them: for a target
    whose box shares no pixel with the box of another target, the part of
    the frame under the box is the mosaic [apply_mosaic] makes of that part
    of the input with the strength of the slider, which for a strength
    other than 0 is the part reduced with linear interpolation and enlarged
    back with nearest neighbour.  [detect_objects_detailed] does the same
    with the strength of the processor.  [cv2.resize] is any function that
    honours its contract. *)
Theorem mosaic_only_inside_target_boxes :
  forall resize, resize_contract resize ->
  forall app frame boxes,
    rect frame = true ->
    (forall l d, boxes = Some l -> In d l -> frame_coordinates d) ->
    (exists app' out,
        process_frame resize app frame boxes = Ret app' /\
        delivered app' = Some out /\
        pixelated_in_boxes resize (processor app) (strength_var app)
                           (detect_objects (processor app) boxes) frame out) /\
    (exists out,
        detect_objects_detailed resize (processor app) frame boxes =
          Ret (out, detect_objects (processor app) boxes) /\
        pixelated_in_boxes resize (processor app) (strength (processor app))
                           (detect_objects (processor app) boxes) frame out).
Proof.
  intros resize contract app frame boxes Hrect Hcoord.
  assert (Hbox : forall d, In d (detect_objects (processor app) boxes) ->
                           box_nonneg d).
  { intros d. now apply detected_box_nonneg. }
  split.
  - destruct (mosaic_detections_pixelated resize contract (processor app)
                (strength_var app) (detect_objects (processor app) boxes)
                frame Hrect Hbox) as (out & Hout & Hp).
    destruct (process_frame_ret resize app frame boxes out Hout)
      as (notes & E & _).
    eexists. exists out. split; [exact E|]. split; [reflexivity | exact Hp].
  - destruct (mosaic_detections_pixelated resize contract (processor app)
                (strength (processor app)) (detect_objects (processor app) boxes)
                frame Hrect Hbox) as (out & Hout & Hp).
    exists out. split; [|exact Hp].
    unfold detect_objects_detailed, copy. rewrite Hout. reflexivity.
Qed.

(** The statement at work: a target box over columns 1..2 and rows 1..2 of
    a 3 x 4 frame leaves pixel (0, 0) as it was and puts the mosaic of the
    four pixels under the box in their place. *)
Lemma mosaic_only_inside_target_boxes_witness :
  exists app' out m,
    process_frame nearest_resize Samples.app Samples.frame3x4
                  (Some [Samples.face_box]) = Ret app' /\
    delivered app' = Some out /\
    px out 0 0 = Some (1, 1, 1) /\
    apply_mosaic nearest_resize Samples.processor
                 (box_region Samples.frame3x4 Samples.face_box) (Some 15) = Ret m /\
    box_region out Samples.face_box = m.
Proof.
  destruct (mosaic_only_inside_target_boxes nearest_resize nearest_resize_contract
              Samples.app Samples.frame3x4 (Some [Samples.face_box]))
    as [(app' & out & H1 & H2 & _ & _ & Hpx & Hin) _].
  - reflexivity.
  - intros l d E Hd. injection E as <-. destruct Hd as [<-|[]].
    unfold frame_coordinates. cbn. lia.
  - destruct (Hin [] Samples.face_box [] eq_refl eq_refl) as (m & Hm & Hb & _).
    { intros d' []. }
    exists app', out, m. split; [exact H1|]. split; [exact H2|].
    split; [|split; [exact Hm | exact Hb]].
    rewrite (Hpx 0%nat 0%nat); [reflexivity|].
    intros d Hd _. cbn in Hd. destruct Hd as [<-|[]].
    unfold in_box. cbn. lia.
Defined.

(** The claim as written fails for a box with negative corners: numpy
    counts a negative slice bound from the end of the axis, so the box
    (-4, -2, -1, -1), which contains no pixel of the frame, selects row 0,
    columns 1..3 of a frame of 2 rows and 5 columns.  The three pixels
    2 2 3 found there become 2 2 2, and pixel (0, 3), which lies in no box,
    differs from the input. *)
Lemma negative_corner_wraps :
  exists app' out,
    process_frame nearest_resize Samples.app Samples.frame2x5
                  (Some [Samples.negative_box]) = Ret app' /\
    delivered app' = Some out /\
    is_target (processor Samples.app) Samples.negative_box = true /\
    ~ in_box Samples.negative_box 0 3 /\
    px Samples.frame2x5 0 3 = Some (3, 3, 3) /\
    px out 0 3 = Some (2, 2, 2).
Proof.
  eexists. eexists. split; [reflexivity|]. split; [reflexivity|].
  split; [reflexivity|]. split; [|split; reflexivity].
  unfold in_box. cbn. lia.
Qed.

End PipelineFacts.

(** ** The overlay window: show, hide and the topmost guard *)
Module OverlayFacts.
Import Numpy Py Overlay.

(** Case analysis on whatever the goal branches on. *)
Ltac branch :=
  repeat match goal with
         | |- context [match ?x with _ => _ end] => destruct x eqn:?
         end.

(** The protection sequence touches neither flag of the overlay. *)
Lemma protect_flags hw env self :
  is_visible (set_window_click_through_and_capture_protected hw env self)
    = is_visible self /\
  is_running (set_window_click_through_and_capture_protected hw env self)
    = is_running self.
Proof.
  unfold set_window_click_through_and_capture_protected, protect_handle,
    start_topmost_keeper, install_activation_hook, _retry_click_through_setup,
    test_click_through_immediately.
  branch; cbn; auto.
Qed.

(** Without the Win32 modules the protection sequence does nothing. *)
Lemma protect_off env self :
  set_window_click_through_and_capture_protected false env self = self.
Proof. reflexivity. Qed.

Lemma init_pygame_flags hw env self :
  is_visible (fst (init_pygame hw env self)) = is_visible self /\
  is_running (fst (init_pygame hw env self)) = is_running self.
Proof.
  unfold init_pygame.
  destruct (pygame_init env); cbn [negb fst]; auto.
  destruct (set_mode env); cbn [negb fst]; auto.
  destruct (show_debug_info (with_screen self true) && negb (font_init env));
    cbn [negb fst]; auto.
  destruct (clock_init env); cbn [negb fst]; auto.
  destruct hw; cbn [fst]; auto.
  apply (protect_flags true env (with_screen self true)).
Qed.

Lemma init_pygame_ok hw env self :
  snd (init_pygame hw env self) = window_created env self.
Proof.
  unfold init_pygame, window_created.
  destruct (pygame_init env), (set_mode env), (show_debug_info self) eqn:E,
    (font_init env), (clock_init env), hw; cbn; rewrite ?E; reflexivity.
Qed.

Lemma init_pygame_created hw env self :
  window_created env self = true ->
  fst (init_pygame hw env self) =
  set_window_click_through_and_capture_protected hw env (with_screen self true).
Proof.
  unfold init_pygame, window_created.
  destruct (pygame_init env), (set_mode env), (show_debug_info self) eqn:E,
    (font_init env), (clock_init env); cbn; rewrite ?E; cbn;
    try discriminate; intros _; destruct hw; reflexivity.
Qed.

Lemma init_pygame_failed hw env self :
  window_created env self = false ->
  calls (fst (init_pygame hw env self)) = calls self.
Proof.
  unfold init_pygame, window_created.
  destruct (pygame_init env), (set_mode env), (show_debug_info self) eqn:E,
    (font_init env), (clock_init env); cbn; rewrite ?E; cbn;
    try discriminate; reflexivity.
Qed.

(** The first request of the protection sequence is the capture
    exclusion of the window. *)
Lemma protect_starts env self h :
  wm_info env = Ret (Some h) -> h <> 0 ->
  exists rest,
    calls (set_window_click_through_and_capture_protected true env self) =
    calls self ++ SetWindowDisplayAffinity h WDA_EXCLUDEFROMCAPTURE :: rest.
Proof.
  intros Hh Hnz.
  unfold set_window_click_through_and_capture_protected, protect_handle,
    start_topmost_keeper, install_activation_hook, _retry_click_through_setup,
    test_click_through_immediately.
  rewrite Hh. cbn [negb hwnd with_hwnd truthy handle].
  replace (h =? 0) with false by lia. cbn [negb orb].
  branch; cbn; repeat rewrite <- app_assoc; cbn [app]; eexists; reflexivity.
Qed.

Lemma show_unfold hw env self :
  show hw env self =
  if is_visible self then (self, None)
  else if window_created env self
       then (with_threads (with_flags (fst (init_pygame hw env self)) true true)
               true
               (topmost_thread (with_flags (fst (init_pygame hw env self)) true true)),
             Some true)
       else (fst (init_pygame hw env self), Some false).
Proof.
  unfold show. destruct (is_visible self); [reflexivity|].
  rewrite <- (init_pygame_ok hw).
  destruct (init_pygame hw env self) as [s ok]. cbn [fst snd].
  now destruct ok.
Qed.

Lemma apply_op_coherent hw self o :
  coherent self -> coherent (apply_op hw self o).
Proof.
  unfold coherent. intros H. destruct o as [env|unhook| |frame|fg ok1|n w l ok1];
    cbn [apply_op].
  - rewrite show_unfold. destruct (is_visible self) eqn:Ev.
    + cbn [fst]. now rewrite Ev.
    + destruct (window_created env self); cbn [fst]; [reflexivity|].
      destruct (init_pygame_flags hw env self) as [-> ->].
      rewrite Ev. exact H.
  - unfold hide, uninstall_activation_hook. destruct (is_visible self) eqn:Ev;
      cbn [negb].
    + branch; cbn; discriminate.
    + rewrite Ev. exact H.
  - cbn. discriminate.
  - exact H.
  - unfold topmost_keeper_turn, _force_to_topmost. branch; cbn; exact H.
  - unfold activation_hook_proc, _instant_force_topmost. branch; cbn; exact H.
Qed.

Lemma after_coherent hw debug ops : coherent (after hw debug ops).
Proof.
  unfold after.
  assert (G : forall s, coherent s -> coherent (fold_left (apply_op hw) ops s)).
  { induction ops as [|o ops IH]; intros s Hs; [exact Hs|].
    cbn [fold_left]. apply IH. now apply apply_op_coherent. }
  apply G. unfold coherent, init. cbn. discriminate.
Qed.

(** C8: [show] returns success exactly when the overlay was not already
    shown and the window creation of [init_pygame] goes through (pygame
    initialisation, [set_mode], the debug font when enabled, the clock).
    On success the overlay returned is the one the protection sequence
    [set_window_click_through_and_capture_protected] produced from the
    created window, marked visible and running with its display thread
    started; with the Win32 modules and a window handle the sequence has
    by then issued its requests, the capture exclusion first, and without
    them it is empty.  When the creation fails, [show] returns failure, no
    request has been issued and the flags are as before: not visible, and,
    for every overlay a session can reach, not running. *)
Theorem show_succeeds_iff_window_created :
  forall hw env self,
    (snd (show hw env self) = Some true <->
     is_visible self = false /\ window_created env self = true) /\
    (snd (show hw env self) = Some true ->
     fst (show hw env self) =
       with_threads
         (with_flags (set_window_click_through_and_capture_protected
                        hw env (with_screen self true)) true true)
         true
         (topmost_thread (set_window_click_through_and_capture_protected
                            hw env (with_screen self true))) /\
     is_visible (fst (show hw env self)) = true /\
     is_running (fst (show hw env self)) = true) /\
    (forall h,
        snd (show hw env self) = Some true ->
        hw = true -> wm_info env = Ret (Some h) -> h <> 0 ->
        exists rest,
          calls (fst (show hw env self)) =
          calls self ++ SetWindowDisplayAffinity h WDA_EXCLUDEFROMCAPTURE :: rest) /\
    (hw = false ->
     set_window_click_through_and_capture_protected hw env (with_screen self true)
     = with_screen self true) /\
    (is_visible self = false -> window_created env self = false ->
     snd (show hw env self) = Some false /\
     is_visible (fst (show hw env self)) = false /\
     is_running (fst (show hw env self)) = is_running self /\
     calls (fst (show hw env self)) = calls self) /\
    (forall debug ops,
        self = after hw debug ops ->
        snd (show hw env self) = Some false ->
        is_visible (fst (show hw env self)) = false /\
        is_running (fst (show hw env self)) = false).
Proof.
  intros hw env self. rewrite show_unfold.
  destruct (is_visible self) eqn:Ev.
  - (* already shown: the bare return *)
    cbn [fst snd]. repeat split; try discriminate.
    + intros [H _]. discriminate.
    + intros ->. reflexivity.
  - destruct (window_created env self) eqn:Ec; cbn [fst snd].
    + rewrite (init_pygame_created hw env self Ec).
      split; [split; auto|]. split; [auto|]. split.
      * intros h _ -> Hh Hnz.
        destruct (protect_starts env (with_screen self true) h Hh Hnz) as [rest Hr].
        exists rest. cbn [calls with_threads with_flags]. exact Hr.
      * split; [intros ->; reflexivity|].
        split; [discriminate|]. intros debug ops _ H. discriminate.
    + destruct (init_pygame_flags hw env self) as [Hv Hr].
      split; [split; [discriminate | intros [_ H]; discriminate]|].
      split; [discriminate|]. split; [discriminate|].
      split; [intros ->; reflexivity|].
      split.
      * intros _ _. rewrite Hv, Hr, (init_pygame_failed hw env self Ec). auto.
      * intros debug ops Hs _. rewrite Hv, Hr. split; [exact Ev|].
        pose proof (after_coherent hw debug ops) as Hc. rewrite <- Hs in Hc.
        unfold coherent in Hc. destruct (is_running self); [|reflexivity].
        rewrite Hc in Ev by reflexivity. discriminate.
Qed.

(** The statement at work: on the Windows machine of [Samples.windows_ok]
    the first [show] succeeds and marks the overlay visible and running;
    when [set_mode] fails, [show] fails and leaves both flags off. *)
Lemma show_succeeds_iff_window_created_witness :
  snd (show true Samples.windows_ok (init false)) = Some true /\
  is_visible Samples.shown = true /\ is_running Samples.shown = true /\
  snd (show true Samples.no_window (init false)) = Some false /\
  is_visible (fst (show true Samples.no_window (init false))) = false /\
  is_running (fst (show true Samples.no_window (init false))) = false.
Proof.
  destruct (show_succeeds_iff_window_created true Samples.windows_ok (init false))
    as (Hiff & Hok & _).
  destruct (show_succeeds_iff_window_created true Samples.no_window (init false))
    as (_ & _ & _ & _ & Hfail & Hreach).
  assert (Hs : snd (show true Samples.windows_ok (init false)) = Some true).
  { apply Hiff. split; reflexivity. }
  destruct (Hok Hs) as (_ & Hv & Hr).
  destruct (Hfail eq_refl eq_refl) as (Hf & _).
  destruct (Hreach false [] eq_refl Hf) as (Hv' & Hr').
  unfold Samples.shown. auto 10.
Defined.

(** C6, the watchdog against the hook: with the overlay's window handle
    [h] known and another window [fg] in the foreground, one turn of the
    watchdog issues three requests, the first of which puts the overlay at
    the top of the topmost band without activating it; the second is
    BringWindowToTop, which carries no such restriction.  The activation
    hook, fired for the same window, issues two SetWindowPos requests that
    both ask not to activate, and hands the event on. *)
Theorem watchdog_turn_requests :
  forall self h fg lParam,
    hwnd self = Some h -> h <> 0 -> fg <> h ->
    calls (fst (topmost_keeper_turn true self (Ret fg) true)) =
      calls self ++
      [SetWindowPos h HWND_TOPMOST (Z.lor (Z.lor SWP_NOMOVE SWP_NOSIZE) SWP_NOACTIVATE);
       BringWindowToTop h;
       SetWindowPos h HWND_TOP (Z.lor (Z.lor SWP_NOMOVE SWP_NOSIZE) SWP_NOACTIVATE)] /\
    reasserts_topmost h
      (SetWindowPos h HWND_TOPMOST (Z.lor (Z.lor SWP_NOMOVE SWP_NOSIZE) SWP_NOACTIVATE))
      = true /\
    asks_no_activate
      (SetWindowPos h HWND_TOPMOST (Z.lor (Z.lor SWP_NOMOVE SWP_NOSIZE) SWP_NOACTIVATE))
      = true /\
    asks_no_activate (BringWindowToTop h) = false /\
    (force_topmost self = true ->
     exists issued,
       calls (activation_hook_proc true self HCBT_ACTIVATE fg lParam true) =
         calls self ++ issued ++
         [CallNextHookEx (hook_handle self) HCBT_ACTIVATE fg lParam] /\
       existsb (reasserts_topmost h) issued = true /\
       forallb asks_no_activate issued = true).
Proof.
  intros self h fg lParam Hh Hnz Hfg.
  assert (Ed : differs fg (hwnd self) = true).
  { rewrite Hh. unfold differs. apply negb_true_iff. lia. }
  assert (Et : truthy (hwnd self) = true).
  { rewrite Hh. unfold truthy. apply negb_true_iff. lia. }
  split; [|split; [|split; [|split]]].
  - unfold topmost_keeper_turn, _force_to_topmost, handle.
    rewrite Ed, Et, Hh. cbn. now rewrite <- app_assoc.
  - unfold reasserts_topmost. now rewrite !Z.eqb_refl.
  - reflexivity.
  - reflexivity.
  - intros Hf.
    exists [SetWindowPos h HWND_TOPMOST
              (Z.lor (Z.lor (Z.lor SWP_NOMOVE SWP_NOSIZE) SWP_NOACTIVATE) SWP_NOREDRAW);
            SetWindowPos h HWND_TOP
              (Z.lor (Z.lor (Z.lor SWP_NOMOVE SWP_NOSIZE) SWP_NOACTIVATE) SWP_NOREDRAW)].
    split; [|split].
    + unfold activation_hook_proc, _instant_force_topmost, handle.
      rewrite Hf, Ed, Et, Hh. cbn. now rewrite <- !app_assoc.
    + cbn [existsb reasserts_topmost]. now rewrite !Z.eqb_refl.
    + reflexivity.
Qed.

(** The statement at work on the overlay of [Samples.windows_ok] (handle
    4242) while window 777 is in the foreground. *)
Lemma watchdog_turn_requests_witness :
  In (BringWindowToTop 4242)
     (calls (fst (topmost_keeper_turn true Samples.shown (Ret 777) true))) /\
  asks_no_activate (BringWindowToTop 4242) = false.
Proof.
  destruct (watchdog_turn_requests Samples.shown 4242 777 0)
    as (Hcalls & _ & _ & Hact & _).
  - reflexivity.
  - discriminate.
  - discriminate.
  - split; [|exact Hact].
    rewrite Hcalls. apply in_or_app. right. right. left. reflexivity.
Defined.

End OverlayFacts.

(** ** The orchestrator: stopping *)
Module AppFacts.
Import Numpy Py App.

Lemma hide_hidden unhook self :
  Overlay.is_visible self = false -> Overlay.hide unhook self = self.
Proof. unfold Overlay.hide. now intros ->. Qed.

Lemma hide_hides unhook self :
  Overlay.is_visible (Overlay.hide unhook self) = false.
Proof.
  unfold Overlay.hide, Overlay.uninstall_activation_hook.
  destruct (Overlay.is_visible self) eqn:E; cbn [negb]; [|exact E].
  destruct (Overlay.hook_installed _ && Overlay.truthy _); [|reflexivity].
  destruct unhook; reflexivity.
Qed.

Lemma stop_stops unhook joined app :
  is_running (stop_censoring unhook joined app) = false.
Proof.
  unfold stop_censoring. destruct (is_running app) eqn:E; cbn [negb]; auto.
Qed.

(** C9: [stop_censoring] on an application that is not running returns
    at once and changes nothing, neither the running flag nor the overlay;
    that is the case before any start and after a first stop, so a second
    stop in a row is a no-op.  The same holds one level down: [hide] on an
    overlay that is not visible changes nothing, and a second [hide] in a
    row is a no-op. *)
Theorem stop_is_idempotent :
  forall unhook joined unhook' joined' app,
    (is_running app = false -> stop_censoring unhook joined app = app) /\
    (forall p s debug,
        stop_censoring unhook joined (init p s debug) = init p s debug) /\
    stop_censoring unhook' joined' (stop_censoring unhook joined app)
      = stop_censoring unhook joined app /\
    (Overlay.is_visible (overlay app) = false ->
     Overlay.hide unhook (overlay app) = overlay app) /\
    Overlay.hide unhook' (Overlay.hide unhook (overlay app))
      = Overlay.hide unhook (overlay app).
Proof.
  intros unhook joined unhook' joined' app.
  assert (Hstop : forall u j a, is_running a = false -> stop_censoring u j a = a).
  { intros u j a H. unfold stop_censoring. now rewrite H. }
  split; [apply Hstop|]. split; [intros; apply Hstop; reflexivity|].
  split; [apply Hstop, stop_stops|].
  split; [apply hide_hidden|]. apply hide_hidden, hide_hides.
Qed.

(** The statement at work: stopping before any start changes nothing, and
    stopping a running session twice gives what stopping it once gives,
    with the running flag and the overlay's visibility off. *)
Lemma stop_is_idempotent_witness :
  stop_censoring true true Samples.app = Samples.app /\
  is_running Samples.running_app = true /\
  Overlay.is_visible (overlay Samples.running_app) = true /\
  stop_censoring true true (stop_censoring true true Samples.running_app)
    = stop_censoring true true Samples.running_app /\
  is_running (stop_censoring true true Samples.running_app) = false /\
  Overlay.is_visible (overlay (stop_censoring true true Samples.running_app)) = false.
Proof.
  destruct (stop_is_idempotent true true true true Samples.app) as (H1 & _).
  destruct (stop_is_idempotent true true true true Samples.running_app)
    as (_ & _ & H2 & _).
  split; [apply H1; reflexivity|].
  split; [reflexivity|]. split; [reflexivity|].
  split; [exact H2|].
  split; reflexivity.
Defined.

End AppFacts.

(** ** Further properties of the capture step *)
Module CaptureMore.
Import Numpy Cv2 Py Capture NumpyFacts MaskingFacts.

(** A region of non-negative width and height blackens nothing outside
    its rectangle. *)
Lemma px_mask_region_outside img reg r c :
  (let '(x, y, w, h) := reg in 0 <= w /\ 0 <= h) ->
  ~ covers reg r c ->
  px (mask_region img reg) r c = px img r c.
Proof.
  destruct reg as [[[x y] w] h]. intros [Hw Hh] Hno.
  unfold mask_region. destruct (origin_inside img (x, y, w, h)) eqn:Ho;
    [|reflexivity].
  unfold origin_inside in Ho. rewrite !andb_true_iff in Ho.
  destruct Ho as [[[Hx Hy] Hx'] Hy'].
  rewrite px_fill. destruct (px img r c) as [p|]; [|reflexivity].
  cbn [option_map]. f_equal.
  destruct (in_span (indices (shape0 img) (y, Z.min (y + h) (shape0 img))) r) eqn:Er;
    [|reflexivity].
  destruct (in_span (indices (shape1 img) (x, Z.min (x + w) (shape1 img))) c) eqn:Ec;
    [|reflexivity].
  exfalso. apply Hno. unfold covers.
  apply in_span_plain in Er; try lia. apply in_span_plain in Ec; try lia.
Qed.

(** X1.  Masking never invents a value: every pixel of the masked frame is
    black or the pixel of the frame at that place; and when all regions
    have a non-negative width and height, a pixel outside every region's
    rectangle keeps its value. *)
Theorem masking_changes_only_regions :
  forall regions img,
    (forall r c p,
        px img r c = Some p ->
        px (mask_regions regions img) r c = Some zero \/
        px (mask_regions regions img) r c = Some p) /\
    ((forall x y w h, In (x, y, w, h) regions -> 0 <= w /\ 0 <= h) ->
     forall r c,
       (forall reg, In reg regions -> ~ covers reg r c) ->
       px (mask_regions regions img) r c = px img r c).
Proof.
  intros regions. induction regions as [|reg regions IH]; intros img.
  - split; [intros; now right | reflexivity].
  - cbn [mask_regions fold_left]. fold (mask_regions regions (mask_region img reg)).
    destruct (IH (mask_region img reg)) as [IH1 IH2]. split.
    + intros r c p Hp.
      destruct (px_mask_region_cases img reg r c p Hp) as [H|H].
      * left. now apply zero_stays.
      * apply (IH1 r c p H).
    + intros Hwf r c Hno. rewrite IH2.
      * apply px_mask_region_outside.
        -- destruct reg as [[[x y] w] h]. apply (Hwf x y w h). now left.
        -- apply Hno. now left.
      * intros x y w h Hin. apply (Hwf x y w h). now right.
      * intros reg' Hin. apply Hno. now right.
Qed.

(** The statement at work: with regions at two corners of a 3 x 4 frame,
    the pixel in the middle keeps its value. *)
Lemma masking_changes_only_regions_witness :
  px (mask_regions (exclude_regions Samples.capturer_corner_regions) Samples.frame3x4)
     1 1 = Some (6, 6, 6).
Proof.
  destruct (masking_changes_only_regions
              (exclude_regions Samples.capturer_corner_regions) Samples.frame3x4)
    as [_ H].
  rewrite (H ltac:(cbn; intros x y w h [E|[E|[]]]; injection E as <- <- <- <-; lia)
             1%nat 1%nat); [reflexivity|].
  cbn. intros reg [<-|[<-|[]]]; unfold covers; lia.
Defined.

(** X2.  When the capture step fails: [_capture_screen] returns [None]
    exactly when the grab raises, or the downscale is on and [cv2.resize]
    raises, or the debug mode is on with a save interval of 0 (the
    remainder [frame_count % 0] raises).  In every other case it returns
    the grabbed frame (resized when the downscale is on) with the regions
    masked. *)
Theorem capture_screen_fails_exactly :
  forall resize self shot,
    (_capture_screen resize self shot = None <->
     shot = None \/
     (exists img, shot = Some img /\ Qeq_bool (capture_downscale self) 1 = false /\
                  resize img (capture_width self, capture_height self) INTER_NEAREST
                    = None) \/
     (debug_mode self = true /\ debug_save_interval self = 0)) /\
    (forall out,
        _capture_screen resize self shot = Some out ->
        exists img scaled,
          shot = Some img /\
          out = mask_regions (exclude_regions self) scaled /\
          (Qeq_bool (capture_downscale self) 1 = true -> scaled = img) /\
          (Qeq_bool (capture_downscale self) 1 = false ->
           resize img (capture_width self, capture_height self) INTER_NEAREST
             = Some scaled)).
Proof.
  intros resize self shot. unfold _capture_screen, capture_body, pymod.
  destruct shot as [img|]; cbn [bind].
  2:{ split; [split; auto|]. intros out H. discriminate. }
  destruct (Qeq_bool (capture_downscale self) 1) eqn:Eq; cbn [negb].
  - cbn [bind]. destruct (debug_mode self) eqn:Ed; cbn [bind].
    + destruct (debug_save_interval self =? 0) eqn:Ei; cbn [bind].
      * split.
        -- split; auto. intros _. right. right. split; [reflexivity | lia].
        -- intros out H. discriminate.
      * split.
        -- split; [discriminate|].
           intros [H|[(i & _ & H & _)|[_ H]]]; try discriminate. lia.
        -- intros out H. injection H as <-. exists img, img.
           repeat split; auto. discriminate.
    + split.
      * split; [discriminate|].
        intros [H|[(i & _ & H & _)|[H _]]]; discriminate.
      * intros out H. injection H as <-. exists img, img.
        repeat split; auto. discriminate.
  - destruct (resize img (capture_width self, capture_height self) INTER_NEAREST)
      as [scaled|] eqn:Er; cbn [bind].
    + destruct (debug_mode self) eqn:Ed; cbn [bind].
      * destruct (debug_save_interval self =? 0) eqn:Ei; cbn [bind].
        -- split.
           ++ split; auto. intros _. right. right. split; [reflexivity | lia].
           ++ intros out H. discriminate.
        -- split.
           ++ split; [discriminate|].
              intros [H|[(i & Hi & _ & H)|[_ H]]]; try discriminate; [|lia].
              injection Hi as <-. congruence.
           ++ intros out H. injection H as <-. exists img, scaled.
              repeat split; auto. discriminate.
      * split.
        -- split; [discriminate|].
           intros [H|[(i & Hi & _ & H)|[H _]]]; try discriminate.
           injection Hi as <-. congruence.
        -- intros out H. injection H as <-. exists img, scaled.
           repeat split; auto. discriminate.
    + split.
      * split; auto. intros _. right. left. exists img. auto.
      * intros out H. discriminate.
Qed.

End CaptureMore.

(** ** Further properties of the frame queue *)
Module QueueMore.
Import Numpy Cv2 Py Capture.

Lemma lastn_app {A} (n : nat) (a b : list A) :
  lastn n (lastn n a ++ b) = lastn n (a ++ b).
Proof.
  unfold lastn. rewrite !length_app, length_skipn.
  destruct (Nat.le_gt_cases (length a) n) as [Hle|Hgt].
  - replace (length a - n)%nat with 0%nat by lia. cbn [skipn].
    now rewrite Nat.sub_0_r.
  - replace (length a - (length a - n) + length b - n)%nat with (length b) by lia.
    replace (length a + length b - n)%nat with (length b + (length a - n))%nat by lia.
    rewrite <- skipn_skipn. f_equal.
    rewrite skipn_app.
    replace (length a - n - length a)%nat with 0%nat by lia. reflexivity.
Qed.

(** One undisturbed push on a queue within its capacity. *)
Lemma push_keeps_recent (q : Queue image) frame :
  0 < maxsize q -> qsize q <= maxsize q ->
  fst (push q frame) =
  mkQueue (maxsize q) (lastn (Z.to_nat (maxsize q)) (items q ++ [frame])).
Proof.
  intros Hcap Hle. destruct q as [m its]. unfold qsize in Hle.
  cbn [items maxsize] in *. unfold lastn. rewrite length_app. cbn [length].
  unfold push. cbn [push_step].
  destruct (full (mkQueue m its)) eqn:Ef; cbn [push_step].
  - unfold full, qsize in Ef. cbn [items maxsize] in Ef.
    apply andb_true_iff in Ef. destruct Ef as [_ E2]. apply Z.leb_le in E2.
    unfold get_nowait. cbn [items maxsize].
    destruct its as [|a rest]; [cbn [length] in *; lia|].
    cbn [push_step]. unfold put, full, qsize. cbn [items maxsize].
    rewrite length_cons in Hle, E2.
    replace (m <=? Z.of_nat (length rest)) with false by lia.
    rewrite andb_false_r. cbn [fst]. f_equal.
    replace (length (a :: rest) + 1 - Z.to_nat m)%nat with 1%nat
      by (rewrite length_cons; lia).
    reflexivity.
  - unfold put. rewrite Ef. cbn [fst items maxsize]. f_equal.
    unfold full, qsize in Ef. cbn [items maxsize] in Ef.
    apply andb_false_iff in Ef. destruct Ef as [E|E]; [lia|].
    apply Z.leb_gt in E.
    replace (length its + 1 - Z.to_nat m)%nat with 0%nat by lia. reflexivity.
Qed.

Lemma length_lastn {A} (n : nat) (l : list A) : (length (lastn n l) <= n)%nat.
Proof. unfold lastn. rewrite length_skipn. lia. Qed.

Lemma push_all_recent frames : forall q : Queue image,
  0 < maxsize q -> qsize q <= maxsize q ->
  push_all q frames =
  mkQueue (maxsize q) (lastn (Z.to_nat (maxsize q)) (items q ++ frames)).
Proof.
  induction frames as [|f frames IH]; intros q Hcap Hle.
  - cbn [push_all fold_left]. rewrite app_nil_r. destruct q as [m its].
    cbn [items maxsize] in *. f_equal. unfold lastn, qsize in *.
    cbn [items] in Hle.
    replace (length its - Z.to_nat m)%nat with 0%nat by lia. reflexivity.
  - cbn [push_all fold_left]. fold (push_all (fst (push q f)) frames).
    rewrite (push_keeps_recent q f Hcap Hle).
    rewrite IH; cbn [maxsize items].
    + f_equal. rewrite lastn_app, <- app_assoc. reflexivity.
    + exact Hcap.
    + unfold qsize. cbn [items].
      pose proof (length_lastn (Z.to_nat (maxsize q)) (items q ++ [f])). lia.
Qed.

(** X3.  Drop-oldest keeps the newest: after any number of frames pushed
    one after the other into a queue of positive capacity, the queue holds
    the last [maxsize] entries of what it held followed by what was pushed,
    in that order, so that the next [get] hands out the oldest of them. *)
Theorem queue_keeps_most_recent :
  forall (q : Queue image) frames,
    0 < maxsize q -> qsize q <= maxsize q ->
    push_all q frames =
      mkQueue (maxsize q) (lastn (Z.to_nat (maxsize q)) (items q ++ frames)) /\
    (forall oldest rest,
        lastn (Z.to_nat (maxsize q)) (items q ++ frames) = oldest :: rest ->
        get_timeout (push_all q frames) = Ret (oldest, mkQueue (maxsize q) rest)).
Proof.
  intros q frames Hcap Hle.
  pose proof (push_all_recent frames q Hcap Hle) as H.
  split; [exact H|].
  intros oldest rest E. rewrite H. unfold get_timeout. cbn [items maxsize].
  now rewrite E.
Qed.

(** The statement at work: three frames pushed into the empty default
    queue of capacity 2 leave the last two, and the next [get] hands out
    the second frame pushed. *)
Lemma queue_keeps_most_recent_witness :
  push_all (mkQueue 2 []) [Samples.frame2x2; Samples.frame3x4; []] =
    mkQueue 2 [Samples.frame3x4; []] /\
  get_timeout (push_all (mkQueue 2 []) [Samples.frame2x2; Samples.frame3x4; []]) =
    Ret (Samples.frame3x4, mkQueue 2 [[]]).
Proof.
  destruct (queue_keeps_most_recent (mkQueue 2 [])
              [Samples.frame2x2; Samples.frame3x4; []]) as [H1 H2].
  - reflexivity.
  - vm_compute. discriminate.
  - split; [exact H1|]. apply (H2 Samples.frame3x4 [[]]). reflexivity.
Defined.

Lemma consume_all pc : forall (m : Z) (l : list image),
  sys_run (mkQueue m l, pc) (repeat Consume (length l)) = (mkQueue m [], pc).
Proof.
  intros m l. induction l as [|a l IH]; [reflexivity|].
  cbn [length repeat sys_run fold_left]. exact IH.
Qed.

(** X4.  The eviction can miss: when the consumer empties a full queue
    between the producer's [full()] and its [get_nowait()], the latter
    raises [queue.Empty], which the inner [except queue.Full] does not
    catch; the block is left with the new frame not queued. *)
Theorem eviction_race_drops_new_frame :
  forall (m : Z) (held : list image) frame,
    0 < m -> Z.of_nat (length held) = m ->
    sys_run (mkQueue m held, Idle)
            ([Produce frame; Step] ++ repeat Consume (length held) ++ [Step])
    = (mkQueue m [], Escaped QueueEmpty).
Proof.
  intros m held frame Hm Hlen.
  unfold sys_run. rewrite fold_left_app. cbn [fold_left sys_step busy snd fst].
  assert (Ef : full (mkQueue m held) = true).
  { unfold full, qsize. cbn [items maxsize]. apply andb_true_iff. lia. }
  cbn [push_step]. rewrite Ef.
  rewrite fold_left_app.
  fold (sys_run (mkQueue m held, AtEvict frame) (repeat Consume (length held))).
  rewrite consume_all. reflexivity.
Qed.

(** The statement at work on the default queue holding two frames. *)
Lemma eviction_race_drops_new_frame_witness :
  sys_run (mkQueue 2 [Samples.frame2x2; Samples.frame3x4], Idle)
          [Produce []; Step; Consume; Consume; Step]
  = (mkQueue 2 [], Escaped QueueEmpty).
Proof.
  apply (eviction_race_drops_new_frame 2 [Samples.frame2x2; Samples.frame3x4] []).
  - reflexivity.
  - reflexivity.
Defined.

End QueueMore.

(** ** Further properties of the capture thread *)
Module ThreadMore.
Import Numpy Cv2 Py Capture.

Section WithResize.
Variable resize : resize_fn.

Lemma thread_step_retry_bound t e :
  0 <= retry_count t <= 5 -> 0 <= retry_count (thread_step resize t e) <= 5.
Proof.
  intros Hr. unfold thread_step. destruct (state t); [|exact Hr|exact Hr].
  destruct e as [|shot| |].
  - destruct (stop_event (self_ t)); exact Hr.
  - destruct (stop_event (self_ t)); [exact Hr|].
    unfold iteration, on_exception.
    destruct (_capture_screen resize (self_ t) shot) as [frame|].
    + destruct (push _ frame) as [q pc].
      destruct pc; cbn [retry_count]; try lia.
      destruct (retry_count t + 1 >? 5) eqn:E; lia.
    + destruct (retry_count t + 1 >? 5) eqn:E; cbn [retry_count]; lia.
  - destruct (get_timeout (frame_queue (self_ t))) as [[a q']|]; exact Hr.
  - exact Hr.
Qed.

(** Once the stop event is set the thread does nothing but leave. *)
Lemma thread_step_stopped t e :
  stop_event (self_ t) = true ->
  let t' := thread_step resize t e in
  stop_event (self_ t') = true /\
  frame_count (self_ t') = frame_count (self_ t) /\
  retry_count t' = retry_count t /\
  effects t' = effects t /\
  (exists k, items (frame_queue (self_ t')) = skipn k (items (frame_queue (self_ t)))) /\
  (state t = Exited -> state t' = Exited) /\
  (state t = Running -> (e = TooSoon \/ exists shot, e = Grab shot) ->
   state t' = Exited).
Proof.
  intros Hstop.
  assert (Hid : exists k, items (frame_queue (self_ t))
                          = skipn k (items (frame_queue (self_ t))))
    by (exists 0%nat; reflexivity).
  unfold thread_step. destruct (state t) eqn:Es.
  - destruct e as [|shot| |].
    + rewrite Hstop. cbn. repeat split; auto; discriminate.
    + rewrite Hstop. cbn. repeat split; auto; discriminate.
    + unfold get_timeout.
      destruct (frame_queue (self_ t)) as [m its] eqn:Eq. cbn [items maxsize] in *.
      destruct its as [|a rest].
      * rewrite Es, Eq. cbn [items]. repeat split; auto; try discriminate.
        intros _ [H|[shot H]]; discriminate.
      * cbn. repeat split; auto; try discriminate.
        -- exists 1%nat. reflexivity.
        -- intros _ [H|[shot H]]; discriminate.
    + cbn. repeat split; auto; try discriminate.
      intros _ [H|[shot H]]; discriminate.
  - rewrite Es. repeat split; auto; discriminate.
  - rewrite Es. repeat split; auto; discriminate.
Qed.

End WithResize.

(** X5.  The retry counter of the capture thread stays between 0 and 5,
    whatever happens: grabs that fail or succeed, pushes that fail, gets by
    the consumer, the stop event. *)
Theorem retry_count_bounded :
  forall resize self es,
    0 <= retry_count (thread_run resize (thread_start self) es) <= 5.
Proof.
  intros resize self es.
  assert (G : forall t, 0 <= retry_count t <= 5 ->
                        0 <= retry_count (thread_run resize t es) <= 5).
  { induction es as [|e es IH]; intros t Ht; [exact Ht|].
    cbn [thread_run fold_left]. apply IH. now apply thread_step_retry_bound. }
  apply G. cbn. lia.
Qed.

(** X6.  Cooperative stop and restart: once [stop_capture_thread] has set
    the stop event, the thread leaves its loop at its next turn without
    grabbing; from then on it counts no frame, sleeps no more and puts
    nothing into the queue (entries can only be taken from it).
    [start_capture_thread] changes nothing while a thread is alive, and
    after the exit it clears the stop event and starts a thread with the
    counter at zero. *)
Theorem stop_then_start :
  forall resize t es,
    state t = Running ->
    let stopped := thread_run resize (stop_capture_thread t) es in
    stop_event (self_ stopped) = true /\
    frame_count (self_ stopped) = frame_count (self_ t) /\
    effects stopped = effects t /\
    (exists k, items (frame_queue (self_ stopped))
               = skipn k (items (frame_queue (self_ t)))) /\
    start_capture_thread t = t /\
    ((exists e, In e es /\ (e = TooSoon \/ exists shot, e = Grab shot)) ->
     state stopped = Exited /\
     state (start_capture_thread stopped) = Running /\
     stop_event (self_ (start_capture_thread stopped)) = false /\
     retry_count (start_capture_thread stopped) = 0 /\
     frame_queue (self_ (start_capture_thread stopped)) = frame_queue (self_ stopped)).
Proof.
  intros resize t es Hs stopped.
  assert (G : forall es t0,
             stop_event (self_ t0) = true ->
             let t1 := thread_run resize t0 es in
             stop_event (self_ t1) = true /\
             frame_count (self_ t1) = frame_count (self_ t0) /\
             effects t1 = effects t0 /\
             (exists k, items (frame_queue (self_ t1))
                        = skipn k (items (frame_queue (self_ t0)))) /\
             (state t0 = Exited -> state t1 = Exited) /\
             (state t0 = Running ->
              (exists e, In e es /\ (e = TooSoon \/ exists shot, e = Grab shot)) ->
              state t1 = Exited)).
  { clear. induction es as [|e es IH]; intros t0 Hstop.
    - cbn. repeat split; auto.
      + exists 0%nat. reflexivity.
      + intros _ (e & [] & _).
    - cbn [thread_run fold_left].
      destruct (thread_step_stopped resize t0 e Hstop)
        as (S1 & S2 & _ & S4 & (k1 & S5) & S6 & S7).
      destruct (IH (thread_step resize t0 e) S1)
        as (T1 & T2 & T4 & (k2 & T5) & T6 & T7).
      fold (thread_run resize (thread_step resize t0 e) es).
      split; [exact T1|]. split; [congruence|]. split; [congruence|].
      split; [exists (k2 + k1)%nat; rewrite T5, S5; apply skipn_skipn|].
      split; [auto|].
      intros Hrun (e' & [<-|Hin] & He').
      + apply T6. now apply S7.
      + destruct (state (thread_step resize t0 e)) eqn:E1.
        * apply T7; eauto.
        * now apply T6.
        * exfalso. clear - Hrun E1 Hstop. unfold thread_step in E1.
          rewrite Hrun, Hstop in E1.
          destruct e as [|shot| |]; try discriminate.
          destruct (get_timeout (frame_queue (self_ t0))) as [[a q']|];
            [discriminate | congruence]. }
  assert (Ha : is_alive t = true) by (unfold is_alive; now rewrite Hs).
  destruct (G es (stop_capture_thread t)) as (T1 & T2 & T4 & T5 & _ & T7).
  { unfold stop_capture_thread. now rewrite Ha. }
  assert (E : stop_capture_thread t =
              mkThread (set_stop_event (self_ t) true) (retry_count t) (effects t)
                       (state t)).
  { unfold stop_capture_thread. now rewrite Ha. }
  fold stopped in T1, T2, T4, T5, T7. rewrite E in T2, T4, T5, T7.
  cbn [self_ effects state frame_count set_stop_event frame_queue] in T2, T4, T5, T7.
  split; [exact T1|]. split; [exact T2|]. split; [exact T4|]. split; [exact T5|].
  split; [unfold start_capture_thread; now rewrite Ha|].
  intros Hturn. specialize (T7 Hs Hturn).
  unfold start_capture_thread, is_alive. rewrite T7. cbn. auto.
Qed.

(** The statement at work: a fresh thread that is stopped, takes one more
    turn and is started again runs with the stop event cleared. *)
Lemma stop_then_start_witness :
  state (thread_run nearest_resize
           (stop_capture_thread (thread_start (default_capturer 4 3)))
           [Grab (Some Samples.frame3x4)]) = Exited /\
  state (start_capture_thread
           (thread_run nearest_resize
              (stop_capture_thread (thread_start (default_capturer 4 3)))
              [Grab (Some Samples.frame3x4)])) = Running.
Proof.
  destruct (stop_then_start nearest_resize (thread_start (default_capturer 4 3))
              [Grab (Some Samples.frame3x4)] eq_refl)
    as (_ & _ & _ & _ & _ & H).
  destruct H as (H1 & H2 & _).
  - exists (Grab (Some Samples.frame3x4)). split; [now left|].
    right. eexists. reflexivity.
  - split; [exact H1 | exact H2].
Defined.

End ThreadMore.

(** ** Further facts about slices *)
Module SliceFacts.
Import Numpy NumpyFacts.

Lemma nth_error_sub {A} (s : nat * nat) (l : list A) (k : nat) :
  in_span s k = true -> nth_error (sub s l) (k - fst s) = nth_error l k.
Proof.
  unfold in_span, sub. rewrite andb_true_iff, Nat.leb_le, Nat.ltb_lt.
  intros [Hlo Hhi]. rewrite nth_error_firstn, nth_error_skipn.
  replace (k - fst s <? snd s - fst s)%nat with true
    by (symmetry; apply Nat.ltb_lt; lia).
  f_equal. lia.
Qed.

(** A rewrite that puts every pixel back is no rewrite. *)
Lemma rewrite_px_id g sel img :
  (forall r c p, px img r c = Some p -> sel r = true -> g r c p = p) ->
  rewrite_px g sel img = img.
Proof.
  intros H. unfold rewrite_px. apply nth_error_ext. intros r.
  rewrite nth_error_imap.
  destruct (nth_error img r) as [row|] eqn:Er; [|reflexivity].
  cbn [option_map]. f_equal.
  destruct (sel r) eqn:Es; [|reflexivity].
  apply nth_error_ext. intros c. rewrite nth_error_imap.
  destruct (nth_error row c) as [p|] eqn:Ec; [|reflexivity].
  cbn [option_map]. f_equal. apply H; [|exact Es].
  unfold px. now rewrite Er.
Qed.

(** Writing a slice back into the place it was read from changes
    nothing. *)
Lemma setitem_getitem img ys xs :
  rect img = true -> setitem img ys xs (getitem img ys xs) = Some img.
Proof.
  intros Hrect. unfold setitem, same_shape.
  rewrite !Z.eqb_refl, (rect_getitem img ys xs Hrect). cbn [andb].
  f_equal. apply rewrite_px_id. intros r c p Hp Hr.
  destruct (in_span (indices (shape1 img) xs) c) eqn:Hc; [|reflexivity].
  unfold px in Hp. destruct (nth_error img r) as [row|] eqn:Er; [|discriminate].
  assert (E1 : nth_error (getitem img ys xs) (r - fst (indices (shape0 img) ys))
               = Some (sub (indices (shape1 img) xs) row)).
  { unfold getitem. rewrite nth_error_map, nth_error_sub by exact Hr.
    now rewrite Er. }
  rewrite (nth_error_nth _ _ _ E1).
  apply nth_error_nth. rewrite nth_error_sub by exact Hc. exact Hp.
Qed.

End SliceFacts.

(** ** Further properties of the mosaic processor *)
Module MosaicMore.
Import Numpy Cv2 Py Mosaic NumpyFacts MosaicFacts SliceFacts.

Lemma update_config_strength kwargs : forall self,
  1 <= strength self <= 50 -> 1 <= strength (update_config self kwargs) <= 50.
Proof.
  induction kwargs as [|kw kwargs IH]; intros self H; [exact H|].
  cbn [update_config fold_left]. apply IH.
  destruct kw; cbn [update_one strength]; lia.
Qed.

(** X7.  The strength a processor is given through [set_strength] or a
    [strength] argument of [update_config] lies between 1 and 50 (values
    in that range are kept), later arguments of [update_config] do not take
    it out of the range, and with such a strength [apply_mosaic] called
    without a strength never takes its error path on a non-empty image: it
    returns the image reduced with linear interpolation and enlarged back
    with nearest neighbour. *)
Theorem clamped_strength_always_pixelates :
  forall resize, resize_contract resize ->
  forall self s,
    1 <= strength (set_strength self s) <= 50 /\
    (1 <= s <= 50 -> strength (set_strength self s) = s) /\
    (forall before after,
        1 <= strength (update_config self (before ++ Kw_strength s :: after)) <= 50) /\
    (forall img,
        0 < size img ->
        exists small out,
          resize img (Z.max 1 (shape1 img / strength (set_strength self s)),
                      Z.max 1 (shape0 img / strength (set_strength self s)))
                 INTER_LINEAR = Some small /\
          resize small (shape1 img, shape0 img) INTER_NEAREST = Some out /\
          apply_mosaic resize (set_strength self s) img None = Ret out).
Proof.
  intros resize contract self s.
  assert (Hr : 1 <= strength (set_strength self s) <= 50)
    by (cbn [set_strength strength]; lia).
  split; [exact Hr|]. split; [cbn [set_strength strength]; lia|]. split.
  - intros before after. unfold update_config. rewrite fold_left_app.
    cbn [fold_left]. apply update_config_strength. cbn [update_one strength]. lia.
  - intros img Hsz.
    destruct (mosaic_body_contract resize contract img
                (strength (set_strength self s)) Hsz) as (out & Hb & _); [lia|].
    pose proof (proj1 (mosaic_body_ret resize img _ out) Hb) as (_ & small & H1 & H2).
    exists small, out. split; [exact H1|]. split; [exact H2|].
    unfold apply_mosaic. cbn [strength_of].
    replace (size img =? 0) with false by lia. now rewrite Hb.
Qed.

(** The statement at work: a strength of 0 is raised to 1 by
    [set_strength], and the 3 x 4 frame is then pixelated, not handed
    back through the error path. *)
Lemma clamped_strength_always_pixelates_witness :
  strength (set_strength Samples.processor 0) = 1 /\
  exists out,
    apply_mosaic nearest_resize (set_strength Samples.processor 0)
                 Samples.frame3x4 None = Ret out.
Proof.
  destruct (clamped_strength_always_pixelates nearest_resize nearest_resize_contract
              Samples.processor 0) as (_ & _ & _ & H).
  split; [reflexivity|].
  destruct (H Samples.frame3x4 eq_refl) as (small & out & _ & _ & Hout).
  exists out. exact Hout.
Defined.

Lemma shape_getitem_inside img x1 y1 x2 y2 :
  rect img = true ->
  0 <= x1 < x2 -> x2 <= shape1 img -> 0 <= y1 < y2 -> y2 <= shape0 img ->
  shape0 (getitem img (y1, y2) (x1, x2)) = y2 - y1 /\
  shape1 (getitem img (y1, y2) (x1, x2)) = x2 - x1.
Proof.
  intros Hrect Hx Hx2 Hy Hy2.
  assert (Hlen0 : length (sub (indices (shape0 img) (y1, y2)) img)
                  = Z.to_nat (y2 - y1)).
  { rewrite length_sub. unfold indices, slice_index. cbn [fst snd].
    replace (y1 <? 0) with false by lia. replace (y2 <? 0) with false by lia.
    unfold shape0 in *. lia. }
  split.
  - unfold shape0 at 1, getitem. rewrite length_map, Hlen0. lia.
  - unfold getitem.
    destruct (sub (indices (shape0 img) (y1, y2)) img) as [|row rows] eqn:E;
      [cbn [length] in Hlen0; lia|].
    cbn [map shape1]. rewrite length_sub.
    assert (Hin : In row img).
    { apply (In_sub (indices (shape0 img) (y1, y2))). rewrite E. now left. }
    apply rect_spec in Hrect. rewrite Forall_forall in Hrect.
    specialize (Hrect row Hin).
    unfold indices, slice_index. cbn [fst snd].
    replace (x1 <? 0) with false by lia. replace (x2 <? 0) with false by lia.
    lia.
Qed.

(** X8.  [create_mosaic_for_region] returns [None] exactly when the box
    selects no pixel of the frame, and never raises; otherwise it returns
    an image of the shape of the selected region, which for a box lying
    inside a rectangular frame is (y2 - y1) rows by (x2 - x1) columns. *)
Theorem create_mosaic_for_region_shape :
  forall resize, resize_contract resize ->
  forall self frame x1 y1 x2 y2 arg,
    rect frame = true ->
    (create_mosaic_for_region resize self frame x1 y1 x2 y2 arg = None <->
     size (getitem frame (y1, y2) (x1, x2)) = 0) /\
    (forall m,
        create_mosaic_for_region resize self frame x1 y1 x2 y2 arg = Some m ->
        shape0 m = shape0 (getitem frame (y1, y2) (x1, x2)) /\
        shape1 m = shape1 (getitem frame (y1, y2) (x1, x2))) /\
    (0 <= x1 < x2 -> x2 <= shape1 frame -> 0 <= y1 < y2 -> y2 <= shape0 frame ->
     exists m,
       create_mosaic_for_region resize self frame x1 y1 x2 y2 arg = Some m /\
       shape0 m = y2 - y1 /\ shape1 m = x2 - x1).
Proof.
  intros resize contract self frame x1 y1 x2 y2 arg Hrect.
  pose proof (rect_getitem frame (y1, y2) (x1, x2) Hrect) as Hr.
  destruct (apply_mosaic_shape resize contract self
              (getitem frame (y1, y2) (x1, x2)) arg Hr) as (m0 & Hm0 & S0 & S1 & _).
  unfold create_mosaic_for_region. rewrite Hm0.
  destruct (size (getitem frame (y1, y2) (x1, x2)) =? 0) eqn:Ez.
  - split; [split; [lia | reflexivity]|]. split; [discriminate|].
    intros Hx Hx2 Hy Hy2.
    destruct (shape_getitem_inside frame x1 y1 x2 y2 Hrect Hx Hx2 Hy Hy2) as [E0 E1].
    unfold size in Ez. rewrite E0, E1 in Ez. nia.
  - split; [split; [discriminate | lia]|]. split.
    + intros m H. injection H as <-. auto.
    + intros Hx Hx2 Hy Hy2.
      destruct (shape_getitem_inside frame x1 y1 x2 y2 Hrect Hx Hx2 Hy Hy2)
        as [E0 E1].
      exists m0. split; [reflexivity|]. split; congruence.
Qed.

(** The statement at work: the box (1, 1, 3, 3) of the 3 x 4 frame gives a
    2 x 2 mosaic, and a box beyond the frame gives [None]. *)
Lemma create_mosaic_for_region_shape_witness :
  (exists m,
      create_mosaic_for_region nearest_resize Samples.processor Samples.frame3x4
                               1 1 3 3 None = Some m /\
      shape0 m = 2 /\ shape1 m = 2) /\
  create_mosaic_for_region nearest_resize Samples.processor Samples.frame3x4
                           10 10 12 12 None = None.
Proof.
  destruct (create_mosaic_for_region_shape nearest_resize nearest_resize_contract
              Samples.processor Samples.frame3x4 1 1 3 3 None eq_refl)
    as (_ & _ & H).
  destruct (create_mosaic_for_region_shape nearest_resize nearest_resize_contract
              Samples.processor Samples.frame3x4 10 10 12 12 None eq_refl)
    as (Hnone & _).
  split.
  - apply H; cbn; lia.
  - apply Hnone. reflexivity.
Defined.

Lemma record_detection_bound st t ds :
  (length (detection_times st) <= 100)%nat ->
  (length (detection_times (record_detection st t ds)) <= 100)%nat.
Proof.
  intros H. unfold record_detection. cbn [detection_times].
  rewrite length_app. cbn [length].
  destruct (100 <? length (detection_times st) + 1)%nat eqn:E.
  - rewrite length_skipn, !length_app. cbn [length]. lia.
  - apply Nat.ltb_ge in E. rewrite length_app. cbn [length]. lia.
Qed.

Lemma detect_objects_timed_bound self st boxes t :
  (length (detection_times st) <= 100)%nat ->
  (length (detection_times (snd (detect_objects_timed self st boxes t))) <= 100)%nat.
Proof.
  intros H. unfold detect_objects_timed.
  destruct (model_loaded self); [|exact H].
  destruct boxes as [l|]; [|exact H].
  cbn [snd]. now apply record_detection_bound.
Qed.

(** X9.  What [detect_objects] returns and records: every detection
    returned is one the model reported, with x2 > x1, y2 > y1 and a
    confidence of at least the threshold, and every such report is
    returned; without a model, or when the inference raises, the result is
    empty and the statistics are left alone.  Across any series of calls
    starting from [reset_stats], [detection_times] never holds more than
    100 entries, and the call that would make it 101 leaves the last 50. *)
Theorem detect_objects_valid_and_bounded :
  forall self,
    (forall st boxes t d,
        In d (fst (detect_objects_timed self st boxes t)) <->
        model_loaded self = true /\
        exists l, boxes = Some l /\ In d l /\
                  (let '(x1, y1, x2, y2) := bbox d in x1 < x2 /\ y1 < y2) /\
                  Qle_bool (conf_threshold self) (confidence d) = true) /\
    (forall st boxes t,
        fst (detect_objects_timed self st boxes t) = detect_objects self boxes) /\
    (forall st boxes t,
        model_loaded self = false \/ boxes = None ->
        detect_objects_timed self st boxes t = ([], st)) /\
    (forall calls,
        (length (detection_times (stats_after self reset_stats calls)) <= 100)%nat) /\
    (forall st l t,
        model_loaded self = true -> length (detection_times st) = 100%nat ->
        detection_times (snd (detect_objects_timed self st (Some l) t)) =
          skipn 51 (detection_times st) ++ [t]).
Proof.
  intros self. split; [|split; [|split; [|split]]].
  - intros st boxes t d. unfold detect_objects_timed.
    destruct (model_loaded self).
    + destruct boxes as [l|]; cbn [fst].
      * rewrite filter_In. unfold valid_box.
        destruct (bbox d) as [[[x1 y1] x2] y2].
        rewrite !andb_true_iff. split.
        -- intros (Hin & (H1 & H2) & H3). split; [reflexivity|].
           exists l. repeat split; auto; lia.
        -- intros (_ & l' & E & Hin & (H1 & H2) & H3). injection E as <-.
           repeat split; auto; lia.
      * split; [intros []|]. intros (_ & l & E & _). discriminate.
    + cbn [fst]. split; [intros []|]. intros (E & _). discriminate.
  - intros st boxes t. unfold detect_objects_timed, detect_objects.
    destruct (model_loaded self); [|reflexivity]. now destruct boxes.
  - intros st boxes t [E|E]; unfold detect_objects_timed; rewrite E;
      [reflexivity|]. now destruct (model_loaded self).
  - intros calls. unfold stats_after.
    assert (G : forall st, (length (detection_times st) <= 100)%nat ->
                (length (detection_times
                   (fold_left (fun st' call =>
                                 snd (detect_objects_timed self st' (fst call) (snd call)))
                              calls st)) <= 100)%nat).
    { induction calls as [|c calls IH]; intros st Hst; [exact Hst|].
      cbn [fold_left]. apply IH. now apply detect_objects_timed_bound. }
    apply G. cbn. lia.
  - intros st l t Hm Hlen. unfold detect_objects_timed. rewrite Hm. cbn [snd].
    unfold record_detection. cbn [detection_times].
    rewrite length_app, Hlen. cbn [length Nat.add Nat.ltb Nat.leb Nat.sub].
    rewrite skipn_app, Hlen. cbn [Nat.sub skipn]. reflexivity.
Qed.

(** The statement at work: a report with an empty box and one below the
    threshold beside a valid one gives the valid one alone. *)
Lemma detect_objects_valid_and_bounded_witness :
  detect_objects_timed Samples.processor reset_stats None (1 # 100) = ([], reset_stats) /\
  In Samples.face_box
     (fst (detect_objects_timed Samples.processor reset_stats
             (Some [Mosaic.mkDetection "face" (9 # 10) (3, 3, 3, 5) 0;
                    Samples.face_box;
                    Mosaic.mkDetection "face" (1 # 100) (0, 0, 2, 2) 0])
             (1 # 100))).
Proof.
  destruct (detect_objects_valid_and_bounded Samples.processor)
    as (Hin & _ & Hnone & _).
  split.
  - apply Hnone. now right.
  - apply Hin. split; [reflexivity|]. eexists. split; [reflexivity|].
    split; [right; left; reflexivity|]. split; [cbn; lia | reflexivity].
Defined.

End MosaicMore.

(** ** Frames the processing loop hands over unchanged *)
Module PipelineMore.
Import Numpy Cv2 Py Mosaic App NumpyFacts MosaicFacts SliceFacts PipelineFacts.

Lemma filter_none {A} (f : A -> bool) (l : list A) :
  (forall a, In a l -> f a = false) -> filter f l = [].
Proof.
  induction l as [|a l IH]; intros H; [reflexivity|].
  cbn [filter]. rewrite (H a (or_introl eq_refl)).
  apply IH. intros b Hb. apply H. now right.
Qed.

Lemma mosaic_detections_no_target resize p arg ds : forall img,
  (forall d, In d ds -> is_target p d = false) ->
  mosaic_detections resize p arg img ds = Ret img.
Proof.
  induction ds as [|d ds IH]; intros img H; [reflexivity|].
  cbn [mosaic_detections]. unfold mosaic_detection.
  rewrite (H d (or_introl eq_refl)). cbn [bind].
  apply IH. intros d' Hd'. apply H. now right.
Qed.

(** X10.  A frame in which nothing of a target class is detected reaches
    the overlay as it was captured, whatever [cv2.resize] would do: this
    covers a processor without a model and an inference that raises.  The
    turn counts the frame and the detections, and no mosaic;
    [detect_objects_detailed] returns the frame itself in that case. *)
Theorem frame_without_targets_passes_unchanged :
  forall resize app frame boxes,
    (forall d, In d (detect_objects (processor app) boxes) ->
               is_target (processor app) d = false) ->
    exists app',
      process_frame resize app frame boxes = Ret app' /\
      delivered app' = Some frame /\
      frames_processed (counters app') = frames_processed (counters app) + 1 /\
      objects_detected (counters app') =
        objects_detected (counters app)
        + Z.of_nat (length (detect_objects (processor app) boxes)) /\
      mosaic_applied (counters app') = mosaic_applied (counters app) /\
      detect_objects_detailed resize (processor app) frame boxes =
        Ret (frame, detect_objects (processor app) boxes).
Proof.
  intros resize app frame boxes H.
  destruct (process_frame_ret resize app frame boxes (copy frame)
              (mosaic_detections_no_target resize (processor app) _ _ (copy frame) H))
    as (notes & E & _).
  eexists. split; [exact E|].
  unfold delivered, count, detect_objects_detailed.
  rewrite (mosaic_detections_no_target resize (processor app) _ _ (copy frame) H).
  cbn. rewrite (filter_none _ _ H). cbn.
  repeat split; try lia; reflexivity.
Qed.

(** The statement at work: a hand is no target of the sample processor,
    and without a report nothing is detected at all. *)
Lemma frame_without_targets_passes_unchanged_witness :
  (exists app',
      process_frame failing_resize Samples.app Samples.frame3x4
                    (Some [Samples.hand_box]) = Ret app' /\
      delivered app' = Some Samples.frame3x4) /\
  (exists app',
      process_frame failing_resize Samples.app Samples.frame3x4 None = Ret app' /\
      delivered app' = Some Samples.frame3x4).
Proof.
  split.
  - destruct (frame_without_targets_passes_unchanged failing_resize Samples.app
                Samples.frame3x4 (Some [Samples.hand_box]))
      as (app' & H1 & H2 & _).
    + intros d [<-|[]]. reflexivity.
    + exists app'. split; assumption.
  - destruct (frame_without_targets_passes_unchanged failing_resize Samples.app
                Samples.frame3x4 None)
      as (app' & H1 & H2 & _).
    + intros d [].
    + exists app'. split; assumption.
Defined.

Lemma apply_mosaic_error_path resize p img s :
  s = 0 \/ (forall src dsize i, resize src dsize i = None) ->
  apply_mosaic resize p img (Some s) = Ret img.
Proof.
  intros H. unfold apply_mosaic. cbn [strength_of].
  destruct (size img =? 0); [reflexivity|].
  unfold mosaic_body, floordiv.
  destruct (s =? 0) eqn:Es; [reflexivity|].
  destruct H as [->|H]; [discriminate|].
  cbn [bind]. unfold cv2_resize. rewrite H. reflexivity.
Qed.

Lemma mosaic_detections_error_path resize p s ds : forall img,
  rect img = true ->
  s = 0 \/ (forall src dsize i, resize src dsize i = None) ->
  mosaic_detections resize p (Some s) img ds = Ret img.
Proof.
  induction ds as [|d ds IH]; intros img Hrect H; [reflexivity|].
  cbn [mosaic_detections].
  assert (E : mosaic_detection resize p (Some s) img d = Ret img).
  { unfold mosaic_detection. destruct (is_target p d); [|reflexivity].
    destruct (bbox d) as [[[x1 y1] x2] y2].
    destruct (size (getitem img (y1, y2) (x1, x2)) >? 0); [|reflexivity].
    rewrite (apply_mosaic_error_path resize p _ s H). cbn [bind].
    now rewrite (setitem_getitem img (y1, y2) (x1, x2) Hrect). }
  rewrite E. cbn [bind]. now apply IH.
Qed.

(** X11.  The mosaic fails open.  When [cv2.resize] raises on every call,
    or the strength read from the slider is 0, [apply_mosaic] hands every
    region back as it is, so the frame reaches the overlay exactly as it
    was captured, targets included, and the turn still counts a mosaic for
    every detection of a target class. *)
Theorem mosaic_failure_shows_frame_uncensored :
  forall resize app frame boxes,
    rect frame = true ->
    strength_var app = 0 \/ (forall src dsize i, resize src dsize i = None) ->
    exists app',
      process_frame resize app frame boxes = Ret app' /\
      delivered app' = Some frame /\
      mosaic_applied (counters app') =
        mosaic_applied (counters app)
        + Z.of_nat (length (filter (is_target (processor app))
                                   (detect_objects (processor app) boxes))).
Proof.
  intros resize app frame boxes Hrect H.
  destruct (process_frame_ret resize app frame boxes (copy frame)
              (mosaic_detections_error_path resize (processor app) (strength_var app)
                 _ (copy frame) Hrect H))
    as (notes & E & _).
  eexists. split; [exact E|]. split; reflexivity.
Qed.

(** The statement at work: with the slider at 0 and with a resize that
    raises, the face of the sample frame is displayed as captured and one
    mosaic is counted. *)
Lemma mosaic_failure_shows_frame_uncensored_witness :
  (exists app',
      process_frame nearest_resize Samples.app_strength_0 Samples.frame3x4
                    (Some [Samples.face_box]) = Ret app' /\
      delivered app' = Some Samples.frame3x4 /\
      mosaic_applied (counters app') = 1) /\
  (exists app',
      process_frame failing_resize Samples.app Samples.frame3x4
                    (Some [Samples.face_box]) = Ret app' /\
      delivered app' = Some Samples.frame3x4 /\
      mosaic_applied (counters app') = 1).
Proof.
  split.
  - destruct (mosaic_failure_shows_frame_uncensored nearest_resize
                Samples.app_strength_0 Samples.frame3x4 (Some [Samples.face_box])
                eq_refl (or_introl eq_refl)) as (app' & H1 & H2 & H3).
    exists app'. split; [exact H1|]. split; [exact H2|]. exact H3.
  - destruct (mosaic_failure_shows_frame_uncensored failing_resize
                Samples.app Samples.frame3x4 (Some [Samples.face_box])
                eq_refl (or_intror (fun _ _ _ => eq_refl))) as (app' & H1 & H2 & H3).
    exists app'. split; [exact H1|]. split; [exact H2|]. exact H3.
Defined.

End PipelineMore.

(** ** Further properties of the overlay window *)
Module OverlayMore.
Import Numpy Cv2 Py Overlay NumpyFacts MosaicFacts OverlayFacts.

Lemma issue_issue self a b : issue (issue self a) b = issue self (a ++ b).
Proof. unfold issue. cbn. now rewrite <- app_assoc. Qed.

(** X12.  The activation hook never swallows an event and never activates
    the overlay: every call of [activation_hook_proc] ends by handing the
    event to [CallNextHookEx] with the arguments it received; before that
    it issues requests only for an activation event (nCode = HCBT_ACTIVATE)
    of another window while [force_topmost] is on and the handle is known,
    and these requests are [SetWindowPos] calls on the overlay's own window
    that carry SWP_NOACTIVATE, the first of them to the topmost band. *)
Theorem hook_always_forwards :
  forall hw self nCode wParam lParam ok1,
  exists extra,
    activation_hook_proc hw self nCode wParam lParam ok1 =
      issue self (extra ++ [CallNextHookEx (hook_handle self) nCode wParam lParam]) /\
    Forall (fun c => asks_no_activate c = true /\
                     exists insert_after flags,
                       c = SetWindowPos (handle self) insert_after flags) extra /\
    (extra <> [] <->
     nCode = HCBT_ACTIVATE /\ force_topmost self = true /\
     differs wParam (hwnd self) = true /\ hw = true /\
     truthy (hwnd self) = true) /\
    (forall c rest, extra = c :: rest -> reasserts_topmost (handle self) c = true).
Proof.
  intros hw self nCode wParam lParam ok1.
  unfold activation_hook_proc, _instant_force_topmost.
  destruct (nCode =? HCBT_ACTIVATE) eqn:En.
  - apply Z.eqb_eq in En. subst nCode.
    change (HCBT_ACTIVATE >=? 0) with true. cbn [andb].
    destruct (force_topmost self) eqn:Ef, (differs wParam (hwnd self)) eqn:Ed, hw,
      (truthy (hwnd self)) eqn:Et; cbn [negb orb];
      try (exists []; cbn [app]; split; [reflexivity|]; split; [constructor|];
           split; [|discriminate];
           split; [intros H; now elim H | intros (_ & ? & ? & ? & ?); discriminate]).
    set (flags := Z.lor (Z.lor (Z.lor SWP_NOMOVE SWP_NOSIZE) SWP_NOACTIVATE)
                        SWP_NOREDRAW).
    destruct ok1; cbn [negb]; rewrite ?issue_issue; cbn [app hook_handle issue];
      [exists [SetWindowPos (handle self) HWND_TOPMOST flags;
               SetWindowPos (handle self) HWND_TOP flags]
      |exists [SetWindowPos (handle self) HWND_TOPMOST flags]];
      (split; [reflexivity|]);
      (split; [repeat constructor; eexists; eexists; reflexivity|]);
      (split; [split; [intros _; repeat split; reflexivity | discriminate]|]);
      intros c rest E; injection E as <- _; cbn [reasserts_topmost];
      now rewrite Z.eqb_refl.
  - exists []. cbn [app].
    split.
    { destruct ((nCode >=? 0) && force_topmost self); reflexivity. }
    split; [constructor|]. split; [|discriminate].
    split; [intros H; now elim H|].
    intros (E & _). apply Z.eqb_neq in En. contradiction.
Qed.





Lemma land_bit_zero x k :
  0 <= k -> (Z.land x (2 ^ k) =? 0) = negb (Z.testbit x k).
Proof.
  intros Hk. destruct (Z.testbit x k) eqn:E; cbn [negb].
  - apply Z.eqb_neq. intros H0.
    assert (H : Z.testbit (Z.land x (2 ^ k)) k = true)
      by (rewrite Z.land_spec, E, Z.pow2_bits_true; auto).
    rewrite H0, Z.bits_0 in H. discriminate.
  - apply Z.eqb_eq. apply Z.bits_inj'. intros n Hn.
    rewrite Z.land_spec, Z.bits_0.
    destruct (Z.eq_dec n k) as [->|Hne]; [now rewrite E|].
    rewrite Z.pow2_bits_false by lia. apply andb_false_r.
Qed.

Lemma test_click_through_bits self style :
  truthy (hwnd self) = true ->
  test_click_through_immediately true self (Ret style) =
  Z.testbit style 5 && Z.testbit style 19.
Proof.
  intros Ht. unfold test_click_through_immediately. rewrite Ht. cbn [negb orb].
  change WS_EX_TRANSPARENT with (2 ^ 5). change WS_EX_LAYERED with (2 ^ 19).
  rewrite !land_bit_zero by lia. now rewrite !negb_involutive.
Qed.

Lemma style_bits_set ex :
  Z.testbit (Z.lor (Z.lor ex WS_EX_LAYERED) WS_EX_TRANSPARENT) 5 = true /\
  Z.testbit (Z.lor (Z.lor ex WS_EX_LAYERED) WS_EX_TRANSPARENT) 19 = true.
Proof.
  rewrite !Z.lor_spec.
  change (Z.testbit WS_EX_TRANSPARENT 5) with true.
  change (Z.testbit WS_EX_LAYERED 19) with true.
  now rewrite !orb_true_r.
Qed.

Lemma style_clear_then_set ex :
  Z.lor (Z.lor (Z.land ex (Z.lnot (Z.lor WS_EX_LAYERED WS_EX_TRANSPARENT)))
               WS_EX_LAYERED) WS_EX_TRANSPARENT
  = Z.lor (Z.lor ex WS_EX_LAYERED) WS_EX_TRANSPARENT.
Proof.
  apply Z.bits_inj'. intros n Hn.
  rewrite !Z.lor_spec, Z.land_spec, Z.lnot_spec, Z.lor_spec by exact Hn.
  destruct (Z.testbit ex n), (Z.testbit WS_EX_LAYERED n),
    (Z.testbit WS_EX_TRANSPARENT n); reflexivity.
Qed.

(** X14.  The click-through style.  The test of the overlay passes
    exactly on a style with bit 5 (WS_EX_TRANSPARENT) and bit 19
    (WS_EX_LAYERED); the style the protection sequence writes, the style
    read before with both bits added, passes it whatever that style was; the
    retry first writes a style that fails the test and then the very style
    of the first attempt; and when the style read back is the one written,
    the sequence writes a style once and does not retry. *)
Theorem click_through_style_bits :
  forall self ex,
    truthy (hwnd self) = true ->
    (forall style,
        test_click_through_immediately true self (Ret style) = true <->
        Z.testbit style 5 = true /\ Z.testbit style 19 = true) /\
    test_click_through_immediately true self
      (Ret (Z.lor (Z.lor ex WS_EX_LAYERED) WS_EX_TRANSPARENT)) = true /\
    (exists clean,
        calls (_retry_click_through_setup self (Ret ex)) =
          calls self ++
          [SetWindowLong (handle self) clean;
           SetWindowLong (handle self)
                         (Z.lor (Z.lor ex WS_EX_LAYERED) WS_EX_TRANSPARENT);
           SetLayeredWindowAttributes (handle self) 0 255 LWA_ALPHA] /\
        test_click_through_immediately true self (Ret clean) = false) /\
    (forall env,
        ex_style env = Ret ex -> set_pos env = true ->
        style_check env = Ret (Z.lor (Z.lor ex WS_EX_LAYERED) WS_EX_TRANSPARENT) ->
        style_writes (calls (protect_handle true env self)) =
          style_writes (calls self)
          ++ [Z.lor (Z.lor ex WS_EX_LAYERED) WS_EX_TRANSPARENT]).
Proof.
  intros self ex Ht.
  destruct (style_bits_set ex) as [B5 B19].
  split.
  { intros style. rewrite (test_click_through_bits self style Ht).
    apply andb_true_iff. }
  split.
  { rewrite (test_click_through_bits self _ Ht), B5, B19. reflexivity. }
  split.
  { eexists. split.
    - unfold _retry_click_through_setup. cbn [calls issue].
      rewrite style_clear_then_set. reflexivity.
    - rewrite (test_click_through_bits self _ Ht).
      rewrite Z.land_spec, Z.lnot_spec, Z.lor_spec by lia.
      change (Z.testbit WS_EX_TRANSPARENT 5) with true.
      now rewrite orb_true_r, andb_false_r. }
  intros env Hex Hpos Hcheck.
  unfold protect_handle. rewrite Hex, Hpos, Hcheck. cbn [negb].
  assert (T : forall s, hwnd s = hwnd self ->
                test_click_through_immediately true s
                  (Ret (Z.lor (Z.lor ex WS_EX_LAYERED) WS_EX_TRANSPARENT)) = true).
  { intros s Hs. rewrite test_click_through_bits by (now rewrite Hs).
    now rewrite B5, B19. }
  unfold style_writes.
  destruct (set_style env) as [r|e]; [destruct (r =? 0)|];
    cbn [negb]; (rewrite T by reflexivity);
    unfold start_topmost_keeper, install_activation_hook;
    cbn [negb orb hwnd with_force_topmost issue];
    rewrite Ht; cbn [negb];
    branch; cbn [calls with_threads with_hook issue with_force_topmost];
    rewrite !flat_map_app; cbn [flat_map app]; rewrite ?app_nil_r;
    reflexivity.
Qed.

(** The statement at work: on the sample machine the extended style 0
    becomes WS_EX_LAYERED | WS_EX_TRANSPARENT, written once. *)
Lemma click_through_style_bits_witness :
  style_writes (calls Samples.shown) = [Z.lor WS_EX_LAYERED WS_EX_TRANSPARENT] /\
  test_click_through_immediately true Samples.shown
    (Ret (Z.lor (Z.lor 256 WS_EX_LAYERED) WS_EX_TRANSPARENT)) = true.
Proof.
  destruct (click_through_style_bits Samples.shown 256 eq_refl) as (_ & H & _).
  split; [reflexivity | exact H].
Defined.

Lemma shape0_transpose img : shape0 (transpose img) = shape1 img.
Proof.
  unfold shape0 at 1, transpose. rewrite length_map, length_seq.
  pose proof (shape_nonneg img). lia.
Qed.

Lemma shape1_transpose img : 0 < shape1 img -> shape1 (transpose img) = shape0 img.
Proof.
  intros H. unfold transpose.
  destruct (Z.to_nat (shape1 img)) as [|n] eqn:E; [lia|].
  cbn [seq map shape1]. now rewrite length_map.
Qed.

Lemma px_transpose img x y p :
  rect img = true -> px img y x = Some p -> px (transpose img) x y = Some p.
Proof.
  intros Hrect H. unfold px in *.
  destruct (nth_error img y) as [row|] eqn:Er; [|discriminate].
  assert (Hx : (x < length row)%nat) by (apply nth_error_Some; congruence).
  assert (Hin : In row img) by (eapply nth_error_In; eauto).
  apply rect_spec in Hrect. rewrite Forall_forall in Hrect.
  specialize (Hrect row Hin).
  unfold transpose. rewrite nth_error_map.
  rewrite (nth_error_nth' (seq 0 (Z.to_nat (shape1 img))) 0%nat)
    by (rewrite length_seq; lia).
  rewrite seq_nth by lia. cbn [option_map Nat.add].
  rewrite nth_error_map, Er. cbn [option_map]. f_equal.
  now apply nth_error_nth.
Qed.

Lemma shape_map_pixels (f : pixel -> pixel) img :
  shape0 (map (map f) img) = shape0 img /\
  shape1 (map (map f) img) = shape1 img.
Proof.
  unfold shape0. rewrite length_map. split; [reflexivity|].
  destruct img as [|row rows]; [reflexivity|]. cbn [map shape1].
  now rewrite length_map.
Qed.

Lemma rect_map_pixels (f : pixel -> pixel) img :
  rect img = true -> rect (map (map f) img) = true.
Proof.
  intros H. unfold rect in *. rewrite forallb_forall in *.
  intros row' Hin. apply in_map_iff in Hin as (row & <- & Hin).
  rewrite length_map, (proj2 (shape_map_pixels f img)). now apply H.
Qed.

Lemma px_map_pixels (f : pixel -> pixel) img r c :
  px (map (map f) img) r c = option_map f (px img r c).
Proof.
  unfold px. rewrite nth_error_map.
  destruct (nth_error img r) as [row|]; [|reflexivity].
  cbn [option_map]. apply nth_error_map.
Qed.

(** X15.  What the display loop draws.  [cv2_to_pygame_surface] gives up
    ([None]) on an empty frame; for a frame of the size of the screen it
    returns a surface of [screen_width] columns by [screen_height] rows
    whose pixel (x, y) is the pixel of row y, column x of the frame with
    the first and third channel exchanged, without calling [cv2.resize];
    and for any other non-empty frame the surface still has the size of
    the screen. *)
Theorem surface_is_transposed_rgb :
  forall resize screen_width screen_height frame,
    rect frame = true ->
    (size frame = 0 ->
     cv2_to_pygame_surface resize screen_width screen_height frame = None) /\
    (0 < size frame ->
     shape0 frame = screen_height -> shape1 frame = screen_width ->
     exists surface,
       (forall resize',
           cv2_to_pygame_surface resize' screen_width screen_height frame
           = Some surface) /\
       shape0 surface = screen_width /\ shape1 surface = screen_height /\
       forall x y p,
         px frame y x = Some p -> px surface x y = Some (swap_channels p)) /\
    (0 < size frame -> resize_contract resize ->
     0 < screen_width -> 0 < screen_height ->
     exists surface,
       cv2_to_pygame_surface resize screen_width screen_height frame
       = Some surface /\
       shape0 surface = screen_width /\ shape1 surface = screen_height).
Proof.
  intros resize sw sh frame Hrect.
  destruct (shape_map_pixels swap_channels frame) as [S0 S1].
  assert (Same : 0 < size frame -> shape0 frame = sh -> shape1 frame = sw ->
            forall resize',
              cv2_to_pygame_surface resize' sw sh frame
              = Some (transpose (map (map swap_channels) frame))).
  { intros Hsz H0 H1 resize'. unfold cv2_to_pygame_surface, cvtColor_BGR2RGB.
    replace (size frame =? 0) with false by lia.
    now rewrite S0, S1, H0, H1, !Z.eqb_refl. }
  assert (Shape : 0 < size frame ->
            shape0 (transpose (map (map swap_channels) frame)) = shape1 frame /\
            shape1 (transpose (map (map swap_channels) frame)) = shape0 frame).
  { intros Hsz. apply size_pos in Hsz as [_ Hw].
    rewrite shape0_transpose, shape1_transpose by lia. now rewrite S0, S1. }
  split; [|split].
  - intros Hz. unfold cv2_to_pygame_surface, cvtColor_BGR2RGB.
    now rewrite Hz.
  - intros Hsz H0 H1. eexists. split; [exact (Same Hsz H0 H1)|].
    destruct (Shape Hsz) as [-> ->]. split; [exact H1|]. split; [exact H0|].
    intros x y p Hp. apply px_transpose; [now apply rect_map_pixels|].
    now rewrite px_map_pixels, Hp.
  - intros Hsz contract Hw Hh.
    destruct ((shape0 frame =? sh) && (shape1 frame =? sw)) eqn:E.
    + apply andb_true_iff in E as [E0 E1].
      apply Z.eqb_eq in E0. apply Z.eqb_eq in E1.
      eexists. split; [exact (Same Hsz E0 E1 resize)|].
      destruct (Shape Hsz) as [-> ->]. split; assumption.
    + apply size_pos in Hsz as [Hh0 Hw0].
      destruct (contract (map (map swap_channels) frame) sw sh INTER_LINEAR)
        as (dst & Hd & D0 & D1 & _); try lia.
      exists (transpose dst). split.
      * unfold cv2_to_pygame_surface, cvtColor_BGR2RGB.
        replace (size frame =? 0) with false
          by (symmetry; apply size_zero, size_pos; lia).
        now rewrite S0, S1, E, Hd.
      * rewrite shape0_transpose, shape1_transpose by lia. split; assumption.
Qed.

(** The statement at work: the 3 x 4 frame on a 4 x 3 screen, the pixel of
    row 1 and column 2 found at (2, 1). *)
Lemma surface_is_transposed_rgb_witness :
  exists surface,
    cv2_to_pygame_surface failing_resize 4 3 Samples.frame3x4 = Some surface /\
    shape0 surface = 4 /\ shape1 surface = 3 /\
    px surface 2 1 = Some (7, 7, 7).
Proof.
  destruct (surface_is_transposed_rgb failing_resize 4 3 Samples.frame3x4 eq_refl)
    as (_ & H & _).
  destruct (H eq_refl eq_refl eq_refl) as (surface & H1 & H2 & H3 & H4).
  exists surface. split; [apply H1|]. split; [exact H2|]. split; [exact H3|].
  exact (H4 2%nat 1%nat (7, 7, 7) eq_refl).
Defined.

End OverlayMore.

(** ** The processing thread, start after a close, and shutdown *)
Module AppMore.
Import Numpy Cv2 Py Mosaic App.

Lemma mosaic_loop_log resize p s fc ds : forall img c lg,
  exists notes,
    snd (fst (mosaic_loop resize p s fc img c lg ds)) = lg ++ notes /\
    forallb mosaic_notice notes = true.
Proof.
  induction ds as [|d ds IH]; intros img c lg.
  - exists []. cbn. now rewrite app_nil_r.
  - cbn [mosaic_loop].
    assert (Stop : forall (i : image) (c' : stats) (e : exn),
               exists notes,
                 snd (fst (i, c', lg, Some e)) = lg ++ notes /\
                 forallb mosaic_notice notes = true).
    { intros. exists []. cbn. now rewrite app_nil_r. }
    destruct (is_target p d); [|apply IH].
    destruct (bbox d) as [[[x1 y1] x2] y2].
    destruct (size (getitem img (y1, y2) (x1, x2)) >? 0); [|apply IH].
    destruct (apply_mosaic resize p (getitem img (y1, y2) (x1, x2)) (Some s))
      as [m|e]; [|apply Stop].
    destruct (setitem img (y1, y2) (x1, x2) m) as [img'|]; [|apply Stop].
    destruct (fc mod 30 =? 0); [|apply IH].
    match goal with
    | |- context [mosaic_loop _ _ _ _ ?i ?c' ?l ds] =>
        destruct (IH i c' l) as (notes & E & Hn)
    end.
    exists (MsgMosaic (class_name d) :: notes). split; [|exact Hn].
    rewrite E, <- app_assoc. reflexivity.
Qed.

(** Whatever happens in it, a turn leaves alone what [outside_loop]
    names, the running flags and the display thread, and adds to the log
    notices of mosaics only. *)
Lemma run_turn_fields resize app frame boxes :
  is_running (fst (run_turn resize app frame boxes)) = is_running app /\
  outside_loop (fst (run_turn resize app frame boxes)) = outside_loop app /\
  Overlay.is_running (overlay (fst (run_turn resize app frame boxes)))
    = Overlay.is_running (overlay app) /\
  Overlay.display_thread (overlay (fst (run_turn resize app frame boxes)))
    = Overlay.display_thread (overlay app) /\
  exists notes,
    log (fst (run_turn resize app frame boxes)) = log app ++ notes /\
    forallb mosaic_notice notes = true.
Proof.
  unfold run_turn.
  destruct (mosaic_loop_log resize (processor app) (strength_var app)
              (frames_processed (counters app) + 1)
              (detect_objects (processor app) boxes) (copy frame)
              (mkStats (frames_processed (counters app) + 1)
                       (objects_detected (counters app))
                       (mosaic_applied (counters app)))
              (log app)) as (notes & E & Hn).
  destruct (mosaic_loop _ _ _ _ _ _ _ _) as [[[img c] lg] [e|]];
    cbn [fst snd] in E; subst lg; cbn; repeat split; eauto.
Qed.

Lemma processing_loop_outside resize turns : forall app,
  outside_loop (processing_loop resize app turns) = outside_loop app.
Proof.
  induction turns as [|t rest IH]; intros app; cbn [processing_loop];
    destruct (negb (is_running app)); try reflexivity.
  destruct (frame_in t) as [f|]; [|apply IH].
  destruct (run_turn_fields resize app f (boxes_in t)) as (_ & Ho & _).
  destruct (run_turn resize app f (boxes_in t)) as [app1 [e|]];
    cbn [fst] in Ho; [exact Ho|].
  destruct (closed t);
    (destruct (negb (Overlay.is_window_visible _)); [|rewrite IH]; exact Ho).
Qed.

Lemma processing_loop_exit resize turns : forall app,
  is_running app = true ->
  is_running (processing_loop resize app turns) = false ->
  Overlay.is_window_visible (overlay (processing_loop resize app turns)) = false /\
  exists notes,
    log (processing_loop resize app turns) = log app ++ notes /\
    forallb mosaic_notice notes = true.
Proof.
  induction turns as [|t rest IH]; intros app Hr; cbn [processing_loop];
    rewrite Hr; cbn [negb]; [congruence|].
  destruct (frame_in t) as [f|]; [|now apply IH].
  destruct (run_turn_fields resize app f (boxes_in t))
    as (Hr1 & _ & _ & _ & notes & Hl & Hn).
  destruct (run_turn resize app f (boxes_in t)) as [app1 [e|]];
    cbn [fst] in Hr1, Hl.
  { cbn [with_log is_running]. congruence. }
  rewrite Hr in Hr1.
  assert (Log : forall app2,
             is_running app2 = true -> log app2 = log app1 ->
             is_running (processing_loop resize app2 rest) = false ->
             Overlay.is_window_visible
               (overlay (processing_loop resize app2 rest)) = false /\
             exists notes',
               log (processing_loop resize app2 rest) = log app ++ notes' /\
               forallb mosaic_notice notes' = true).
  { intros app2 Hr2 Hl2 Hoff.
    destruct (IH app2 Hr2 Hoff) as (Hw & notes2 & Hl3 & Hn2).
    split; [exact Hw|]. exists (notes ++ notes2).
    rewrite Hl3, Hl2, Hl, <- app_assoc. split; [reflexivity|].
    rewrite forallb_app, Hn, Hn2. reflexivity. }
  destruct (closed t).
  - destruct (Overlay.is_window_visible _) eqn:Ev; cbn [negb].
    + now apply Log.
    + intros _. split; [exact Ev|]. exists notes. split; [exact Hl | exact Hn].
  - destruct (Overlay.is_window_visible _) eqn:Ev; cbn [negb].
    + now apply Log.
    + intros _. split; [exact Ev|]. exists notes. split; [exact Hl | exact Hn].
Qed.

(** X16.  Closing the overlay with the escape key does not take it down.
    When the display loop has met the key and ended, the processing loop
    ends at the turn in progress by switching [is_running] off itself; the
    [stop_censoring] that the thread then hands to the main thread finds
    nothing running and returns at once.  The overlay therefore stays
    marked visible with its topmost settings, hook and keeper as they were,
    no request is issued and the buttons keep their state; all that the
    thread has added to the log are notices of mosaics applied, no stop
    message among them. *)
Theorem escape_leaves_overlay_up :
  forall resize unhook joined app,
    is_running app = true ->
    Overlay.is_visible (overlay app) = true ->
    (forall t rest frame app1,
        frame_in t = Some frame -> closed t = true ->
        process_frame resize app frame (boxes_in t) = Ret app1 ->
        is_running (processing_loop resize app (t :: rest)) = false /\
        Overlay.display_thread (overlay (processing_loop resize app (t :: rest)))
          = false) /\
    (forall turns,
        is_running (processing_loop resize app turns) = false ->
        processing_thread resize unhook joined app turns
          = processing_loop resize app turns /\
        Overlay.is_visible (overlay (processing_thread resize unhook joined app turns))
          = true /\
        Overlay.is_running (overlay (processing_thread resize unhook joined app turns))
          = false /\
        outside_loop (processing_thread resize unhook joined app turns)
          = outside_loop app /\
        exists notes,
          log (processing_thread resize unhook joined app turns)
            = log app ++ notes /\
          forallb mosaic_notice notes = true).
Proof.
  intros resize unhook joined app Hr Hv. split.
  - intros t rest frame app1 Hf Hc Hp. cbn [processing_loop].
    rewrite Hr, Hf, Hc. cbn [negb]. unfold process_frame in Hp.
    destruct (run_turn resize app frame (boxes_in t)) as [app' [e|]];
      [discriminate|].
    unfold Overlay.is_window_visible, Overlay.on_close_request.
    cbn [overlay with_overlay Overlay.is_running Overlay.is_visible
         Overlay.with_flags Overlay.with_threads].
    rewrite andb_false_r. cbn [negb]. split; reflexivity.
  - intros turns Hoff.
    assert (E : processing_thread resize unhook joined app turns
                = processing_loop resize app turns).
    { unfold processing_thread, stop_censoring. now rewrite Hoff. }
    rewrite E. split; [reflexivity|].
    pose proof (processing_loop_outside resize turns app) as Ho.
    destruct (processing_loop_exit resize turns app Hr Hoff) as (Hx & Hlog).
    assert (Hv' : Overlay.is_visible (overlay (processing_loop resize app turns))
                  = true).
    { apply (f_equal (fun v => fst (fst (fst (fst (fst (fst (fst v)))))))) in Ho.
      cbn [outside_loop fst] in Ho. now rewrite Ho. }
    split; [exact Hv'|]. split; [|split; [exact Ho | exact Hlog]].
    unfold Overlay.is_window_visible in Hx. rewrite Hv' in Hx. exact Hx.
Qed.

(** The statement at work: the session of the sample machine, closed with
    the escape key during its second frame. *)
Lemma escape_leaves_overlay_up_witness :
  is_running Samples.app_after_escape = false /\
  Overlay.is_visible (overlay Samples.app_after_escape) = true /\
  Overlay.force_topmost (overlay Samples.app_after_escape) = true /\
  stop_button Samples.app_after_escape = true.
Proof.
  destruct (escape_leaves_overlay_up nearest_resize true true Samples.running_app
              eq_refl eq_refl) as (_ & H).
  destruct (H [Samples.plain_turn; Samples.escape_turn; Samples.plain_turn] eq_refl)
    as (_ & Hv & _ & _).
  split; [reflexivity|]. split; [exact Hv|]. split; reflexivity.
Defined.




(** X18.  Closing the main window stops everything, whatever state the
    application is in: afterwards it is not running, the overlay is not
    visible (also when the escape key had left it up), and the stop event
    of a running capture thread is set, so that the thread leaves its loop
    at its next turn without grabbing and without touching the queue.  The
    stop messages are logged exactly when the application was running. *)
Theorem closing_stops_everything :
  forall resize unhook joined_stop joined app t,
    Capture.state t = Capture.Running ->
    is_running (fst (on_closing unhook joined_stop joined (app, t))) = false /\
    Overlay.is_visible
      (overlay (fst (on_closing unhook joined_stop joined (app, t)))) = false /\
    Overlay.is_window_visible
      (overlay (fst (on_closing unhook joined_stop joined (app, t)))) = false /\
    (joined = true ->
     process_thread (fst (on_closing unhook joined_stop joined (app, t))) = false) /\
    log (fst (on_closing unhook joined_stop joined (app, t))) =
      (if is_running app then log app ++ [MsgStopping; MsgStopped] else log app) /\
    Capture.stop_event
      (Capture.self_ (snd (on_closing unhook joined_stop joined (app, t)))) = true /\
    forall shot,
      Capture.state
        (Capture.thread_step resize
           (snd (on_closing unhook joined_stop joined (app, t)))
           (Capture.Grab shot)) = Capture.Exited /\
      Capture.frame_queue
        (Capture.self_
           (Capture.thread_step resize
              (snd (on_closing unhook joined_stop joined (app, t)))
              (Capture.Grab shot))) = Capture.frame_queue (Capture.self_ t).
Proof.
  intros resize unhook joined_stop joined app t Ht.
  unfold on_closing, cleanup. cbn [fst snd].
  set (app1 := if is_running app then stop_censoring unhook joined_stop app else app).
  cbn [is_running overlay process_thread log].
  assert (Hh : Overlay.is_visible (Overlay.hide unhook (overlay app1)) = false)
    by apply AppFacts.hide_hides.
  split; [reflexivity|]. split; [exact Hh|].
  split; [unfold Overlay.is_window_visible; now rewrite Hh|].
  split; [intros ->; apply andb_false_r|].
  split.
  { subst app1. unfold stop_censoring. destruct (is_running app); reflexivity. }
  unfold Capture.stop_capture_thread, Capture.is_alive. rewrite Ht.
  cbn [Capture.self_ Capture.stop_event Capture.set_stop_event].
  split; [reflexivity|]. intros shot.
  unfold Capture.thread_step. cbn [Capture.state].
  cbn [Capture.self_ Capture.stop_event Capture.set_stop_event Capture.state
       Capture.frame_queue].
  split; reflexivity.
Qed.

(** The statement at work: the window is closed after the escape key had
    left the overlay up. *)
Lemma closing_stops_everything_witness :
  Overlay.is_visible (overlay Samples.app_after_escape) = true /\
  Overlay.is_visible
    (overlay (fst (on_closing true true true
                     (Samples.app_after_escape,
                      Capture.thread_start (Capture.default_capturer 4 3)))))
  = false /\
  Capture.stop_event
    (Capture.self_
       (snd (on_closing true true true
               (Samples.app_after_escape,
                Capture.thread_start (Capture.default_capturer 4 3))))) = true.
Proof.
  destruct (closing_stops_everything nearest_resize true true true
              Samples.app_after_escape
              (Capture.thread_start (Capture.default_capturer 4 3)) eq_refl)
    as (_ & Hv & _ & _ & _ & Hs & _).
  split; [reflexivity|]. split; [exact Hv | exact Hs].
Defined.

End AppMore.

(** ** The target check boxes *)
Module GuiFacts.
Import Gui.

Lemma ticked_cons label state rest :
  ticked ((label, state) :: rest) =
  if state then label :: ticked rest else ticked rest.
Proof. unfold ticked. cbn. now destruct state. Qed.

Lemma get_selected_targets_ticked boxes :
  ticked boxes <> [] -> get_selected_targets boxes = (boxes, ticked boxes).
Proof.
  intros H. unfold get_selected_targets.
  destruct (ticked boxes) as [|s sel]; [now elim H|].
  destruct boxes as [|[first_key state] rest]; reflexivity.
Qed.

(** X19.  [get_selected_targets] never reports an empty selection while
    there is a check box: with nothing ticked it ticks the first box and
    returns its label.  What it returns is always what the boxes show
    afterwards; the labels and their order stay, a ticked box stays ticked,
    and asking again gives the same answer and changes nothing more. *)
Theorem get_selected_targets_never_empty :
  forall boxes,
    snd (get_selected_targets boxes) = ticked (fst (get_selected_targets boxes)) /\
    (boxes <> [] -> snd (get_selected_targets boxes) <> []) /\
    map fst (fst (get_selected_targets boxes)) = map fst boxes /\
    (forall label, In (label, true) boxes ->
                   In (label, true) (fst (get_selected_targets boxes))) /\
    (ticked boxes <> [] -> fst (get_selected_targets boxes) = boxes) /\
    get_selected_targets (fst (get_selected_targets boxes))
      = get_selected_targets boxes.
Proof.
  intros boxes. destruct (ticked boxes) as [|s sel] eqn:Et.
  - destruct boxes as [|[first_key state] rest].
    + cbn. repeat split; auto; try (intros H; now elim H).
    + rewrite ticked_cons in Et. destruct state; [discriminate|].
      assert (E : get_selected_targets ((first_key, false) :: rest)
                  = ((first_key, true) :: rest, [first_key])).
      { unfold get_selected_targets. now rewrite ticked_cons, Et. }
      rewrite E. cbn [fst snd]. rewrite ticked_cons, Et.
      split; [reflexivity|]. split; [discriminate|]. split; [reflexivity|].
      split.
      { intros label [H|H]; [discriminate|now right]. }
      split; [intros H; now elim H|].
      rewrite get_selected_targets_ticked by (rewrite ticked_cons, Et; discriminate).
      now rewrite ticked_cons, Et.
  - assert (Hne : ticked boxes <> []) by (rewrite Et; discriminate).
    rewrite !(get_selected_targets_ticked boxes Hne). cbn [fst snd].
    rewrite (get_selected_targets_ticked boxes Hne), Et.
    repeat split; auto; discriminate.
Qed.

(** The statement at work: with nothing ticked the first of three boxes is
    chosen, and a ticked second box is reported alone. *)
Lemma get_selected_targets_never_empty_witness :
  get_selected_targets Samples.boxes_none =
    ([("face"%string, true); ("hand"%string, false); ("foot"%string, false)],
     ["face"%string]) /\
  get_selected_targets Samples.boxes_hand = (Samples.boxes_hand, ["hand"%string]).
Proof.
  destruct (get_selected_targets_never_empty Samples.boxes_hand)
    as (_ & _ & _ & _ & H & _).
  split; [reflexivity|].
  rewrite (surjective_pairing (get_selected_targets Samples.boxes_hand)).
  rewrite H by discriminate. reflexivity.
Defined.

End GuiFacts.
